(** * Uncle Credit: peer-to-peer lending with vouching and reputation

    A shallow embedding of the three Solidity contracts of the repository
    ([UserRegistry.sol], [Reputation.sol], [P2PLending.sol]) and of the
    fungible-token collaborator they call, followed by the properties of
    the protocol specification that were checked against them.

    Conventions of the embedding:
    - an [address] and every [uintN] value is a [Z]; Solidity 0.8 arithmetic
      is checked, so an operation whose result leaves the type reverts with
      a panic ([checked_add], [checked_sub], [checked_mul], [checked_add_int]);
    - a Solidity [mapping] is a finite map read with the total lookup [!!!],
      whose default is the all-zero value of the mapped type;
    - an external function is a function [World -> result World]; a revert
      discards every effect of the call, which [commit] makes explicit;
    - [keccak256(abi.encodePacked(...))] over fixed-width fields is taken as
      an injective, never-zero constructor of [bytes32];
    - [nonReentrant] is not modelled: the token collaborator never calls
      back, so no call of the model is nested inside another one of the same
      contract. *)

From stdpp Require Import gmap strings list fin_maps.

Open Scope Z_scope.

(** ** Values and reverts *)

Definition address := Z.

(** The zero value of an address and of every integer type, which a mapping
    holds where nothing was written. *)
#[global] Instance uint_inhabited : Inhabited Z := populate 0.

Definition MAX_UINT256 : Z := 2 ^ 256 - 1.
Definition MAX_UINT16 : Z := 2 ^ 16 - 1.
Definition MAX_INT256 : Z := 2 ^ 255 - 1.
Definition MIN_INT256 : Z := - 2 ^ 255.

Inductive result (A : Type) : Type :=
| Ok (a : A)
| Revert (reason : string).
Arguments Ok {A} a.
Arguments Revert {A} reason.

#[global] Instance result_ret : MRet result := λ A a, Ok a.
#[global] Instance result_bind : MBind result :=
  λ A B f m, match m with Ok a => f a | Revert r => Revert r end.

Definition require (b : bool) (reason : string) : result unit :=
  if b then Ok () else Revert reason.

Definition is_ok {A} (r : result A) : bool :=
  match r with Ok _ => true | Revert _ => false end.

(** Arithmetic overflow, underflow: [Panic(0x11)]. *)
Definition PANIC_ARITHMETIC : string := "Panic(0x11)".

Definition checked_add (a b : Z) : result Z :=
  if bool_decide (a + b ≤ MAX_UINT256) then Ok (a + b) else Revert PANIC_ARITHMETIC.
Definition checked_sub (a b : Z) : result Z :=
  if bool_decide (b ≤ a) then Ok (a - b) else Revert PANIC_ARITHMETIC.
Definition checked_mul (a b : Z) : result Z :=
  if bool_decide (a * b ≤ MAX_UINT256) then Ok (a * b) else Revert PANIC_ARITHMETIC.
Definition checked_add_int (a b : Z) : result Z :=
  if bool_decide (MIN_INT256 ≤ a + b ≤ MAX_INT256) then Ok (a + b) else Revert PANIC_ARITHMETIC.

(** ** Identifiers

    [createLoanOffer] and [createLoanRequest] hash seven packed fields,
    [acceptLoanOffer] and [fundLoanRequest] hash an identifier, the caller and
    the start time. *)

Inductive bytes32 : Type :=
| zero32
| keccak7 (sender amount token rate duration timestamp count : Z)
| keccak3 (origin : bytes32) (sender startTime : Z).

Fixpoint bytes32_to_list (x : bytes32) : list Z :=
  match x with
  | zero32 => []
  | keccak7 a b c d e f g => [7; a; b; c; d; e; f; g]
  | keccak3 i s t => 3 :: s :: t :: bytes32_to_list i
  end.

Fixpoint bytes32_of_list (l : list Z) : bytes32 :=
  match l with
  | 3 :: s :: t :: r => keccak3 (bytes32_of_list r) s t
  | [7; a; b; c; d; e; f; g] => keccak7 a b c d e f g
  | _ => zero32
  end.

#[global] Instance bytes32_eq_dec : EqDecision bytes32.
Proof. solve_decision. Defined.
#[global] Instance bytes32_countable : Countable bytes32.
Proof.
  refine (inj_countable' bytes32_to_list bytes32_of_list _).
  intros x. induction x; simpl; congruence.
Defined.

(** ** The token collaborator

    The contracts move value only through [IERC20.transfer] and
    [IERC20.transferFrom]. The ledger below follows the OpenZeppelin ERC20
    that [MockERC20] extends: a transfer reverts when the balance (or, for a
    pull, the allowance) is too small, and an unlimited allowance is not
    spent. One ledger holds every token, keyed by the token's address. *)

Module ERC20.

Record t : Type := {
  balances : gmap (address * address) Z;             (* token, holder *)
  allowances : gmap (address * address * address) Z  (* token, owner, spender *)
}.

Definition balanceOf (token holder : address) (l : t) : Z :=
  balances l !!! (token, holder).

Definition allowance (token owner spender : address) (l : t) : Z :=
  allowances l !!! (token, owner, spender).

Definition transfer (token from to : address) (value : Z) (l : t) : result t :=
  require (bool_decide (from ≠ 0)) "ERC20InvalidSender";;
  require (bool_decide (to ≠ 0)) "ERC20InvalidReceiver";;
  require (bool_decide (value ≤ balanceOf token from l)) "ERC20InsufficientBalance";;
  let b1 := <[(token, from) := balanceOf token from l - value]> (balances l) in
  let b2 := <[(token, to) := b1 !!! (token, to) + value]> b1 in
  Ok {| balances := b2; allowances := allowances l |}.

Definition approve (token owner spender : address) (value : Z) (l : t) : result t :=
  require (bool_decide (owner ≠ 0)) "ERC20InvalidApprover";;
  require (bool_decide (spender ≠ 0)) "ERC20InvalidSpender";;
  Ok {| balances := balances l;
        allowances := <[(token, owner, spender) := value]> (allowances l) |}.

Definition transferFrom (token spender from to : address) (value : Z) (l : t) : result t :=
  let current := allowance token from spender l in
  l' ← (if bool_decide (current < MAX_UINT256)
        then require (bool_decide (value ≤ current)) "ERC20InsufficientAllowance";;
             approve token from spender (current - value) l
        else Ok l);
  transfer token from to value l'.

End ERC20.

(** ** Enumerations of [P2PLending.sol] and [Reputation.sol] *)

Module PaymentModificationType.
Inductive t : Type :=
| None                       (* no modification active or requested *)
| DueDateExtension
| PartialPaymentAgreement.
#[global] Instance eq_dec : EqDecision t.
Proof. solve_decision. Defined.
End PaymentModificationType.

Module LoanStatus.
Inductive t : Type :=
| Active
| Repaid
| Defaulted
| Cancelled
| PendingModificationApproval
| Active_PartialPaymentAgreed
| Overdue.
#[global] Instance eq_dec : EqDecision t.
Proof. solve_decision. Defined.
End LoanStatus.

Module PaymentOutcomeType.
Inductive t : Type :=
| None
| OnTimeOriginal
| LateGraceOriginal
| OnTimeExtended
| LateExtended
| PartialAgreementMetAndRepaid
| Defaulted.
#[global] Instance eq_dec : EqDecision t.
Proof. solve_decision. Defined.
End PaymentOutcomeType.

(** ** Storage records

    Each [set_f v x] is the assignment [x.f = v] on a storage struct;
    [zero] is the value a mapping returns for a key never written. *)

Module UserProfile.

Record t : Type := mk {
  isRegistered : bool;
  name : string;
  registrationTime : Z
}.

Definition zero : t :=
  mk false EmptyString 0.

Definition set_name (v : string) (x : t) : t :=
  mk (isRegistered x) v (registrationTime x).

End UserProfile.

#[global] Instance UserProfile_inhabited : Inhabited UserProfile.t := populate UserProfile.zero.

Module ReputationProfile.

Record t : Type := mk {
  userAddress : address;
  loansTaken : Z;
  loansGiven : Z;
  loansRepaidOnTime : Z;
  loansRepaidLateGrace : Z;
  loansDefaulted : Z;
  totalValueBorrowed : Z;
  totalValueLent : Z;
  currentReputationScore : Z;
  vouchingStakeAmount : Z;
  timesVouchedForOthers : Z;
  timesDefaultedAsVoucher : Z;
  modificationsApprovedByLender : Z;
  modificationsRejectedByLender : Z
}.

Definition zero : t :=
  mk 0 0 0 0 0 0 0 0 0 0 0 0 0 0.

Definition set_loansTaken (v : Z) (x : t) : t :=
  mk (userAddress x) v (loansGiven x) (loansRepaidOnTime x) (loansRepaidLateGrace x) (loansDefaulted x) (totalValueBorrowed x) (totalValueLent x) (currentReputationScore x) (vouchingStakeAmount x) (timesVouchedForOthers x) (timesDefaultedAsVoucher x) (modificationsApprovedByLender x) (modificationsRejectedByLender x).
Definition set_loansGiven (v : Z) (x : t) : t :=
  mk (userAddress x) (loansTaken x) v (loansRepaidOnTime x) (loansRepaidLateGrace x) (loansDefaulted x) (totalValueBorrowed x) (totalValueLent x) (currentReputationScore x) (vouchingStakeAmount x) (timesVouchedForOthers x) (timesDefaultedAsVoucher x) (modificationsApprovedByLender x) (modificationsRejectedByLender x).
Definition set_loansRepaidOnTime (v : Z) (x : t) : t :=
  mk (userAddress x) (loansTaken x) (loansGiven x) v (loansRepaidLateGrace x) (loansDefaulted x) (totalValueBorrowed x) (totalValueLent x) (currentReputationScore x) (vouchingStakeAmount x) (timesVouchedForOthers x) (timesDefaultedAsVoucher x) (modificationsApprovedByLender x) (modificationsRejectedByLender x).
Definition set_loansRepaidLateGrace (v : Z) (x : t) : t :=
  mk (userAddress x) (loansTaken x) (loansGiven x) (loansRepaidOnTime x) v (loansDefaulted x) (totalValueBorrowed x) (totalValueLent x) (currentReputationScore x) (vouchingStakeAmount x) (timesVouchedForOthers x) (timesDefaultedAsVoucher x) (modificationsApprovedByLender x) (modificationsRejectedByLender x).
Definition set_loansDefaulted (v : Z) (x : t) : t :=
  mk (userAddress x) (loansTaken x) (loansGiven x) (loansRepaidOnTime x) (loansRepaidLateGrace x) v (totalValueBorrowed x) (totalValueLent x) (currentReputationScore x) (vouchingStakeAmount x) (timesVouchedForOthers x) (timesDefaultedAsVoucher x) (modificationsApprovedByLender x) (modificationsRejectedByLender x).
Definition set_totalValueBorrowed (v : Z) (x : t) : t :=
  mk (userAddress x) (loansTaken x) (loansGiven x) (loansRepaidOnTime x) (loansRepaidLateGrace x) (loansDefaulted x) v (totalValueLent x) (currentReputationScore x) (vouchingStakeAmount x) (timesVouchedForOthers x) (timesDefaultedAsVoucher x) (modificationsApprovedByLender x) (modificationsRejectedByLender x).
Definition set_totalValueLent (v : Z) (x : t) : t :=
  mk (userAddress x) (loansTaken x) (loansGiven x) (loansRepaidOnTime x) (loansRepaidLateGrace x) (loansDefaulted x) (totalValueBorrowed x) v (currentReputationScore x) (vouchingStakeAmount x) (timesVouchedForOthers x) (timesDefaultedAsVoucher x) (modificationsApprovedByLender x) (modificationsRejectedByLender x).
Definition set_currentReputationScore (v : Z) (x : t) : t :=
  mk (userAddress x) (loansTaken x) (loansGiven x) (loansRepaidOnTime x) (loansRepaidLateGrace x) (loansDefaulted x) (totalValueBorrowed x) (totalValueLent x) v (vouchingStakeAmount x) (timesVouchedForOthers x) (timesDefaultedAsVoucher x) (modificationsApprovedByLender x) (modificationsRejectedByLender x).
Definition set_vouchingStakeAmount (v : Z) (x : t) : t :=
  mk (userAddress x) (loansTaken x) (loansGiven x) (loansRepaidOnTime x) (loansRepaidLateGrace x) (loansDefaulted x) (totalValueBorrowed x) (totalValueLent x) (currentReputationScore x) v (timesVouchedForOthers x) (timesDefaultedAsVoucher x) (modificationsApprovedByLender x) (modificationsRejectedByLender x).
Definition set_timesVouchedForOthers (v : Z) (x : t) : t :=
  mk (userAddress x) (loansTaken x) (loansGiven x) (loansRepaidOnTime x) (loansRepaidLateGrace x) (loansDefaulted x) (totalValueBorrowed x) (totalValueLent x) (currentReputationScore x) (vouchingStakeAmount x) v (timesDefaultedAsVoucher x) (modificationsApprovedByLender x) (modificationsRejectedByLender x).
Definition set_timesDefaultedAsVoucher (v : Z) (x : t) : t :=
  mk (userAddress x) (loansTaken x) (loansGiven x) (loansRepaidOnTime x) (loansRepaidLateGrace x) (loansDefaulted x) (totalValueBorrowed x) (totalValueLent x) (currentReputationScore x) (vouchingStakeAmount x) (timesVouchedForOthers x) v (modificationsApprovedByLender x) (modificationsRejectedByLender x).
Definition set_modificationsApprovedByLender (v : Z) (x : t) : t :=
  mk (userAddress x) (loansTaken x) (loansGiven x) (loansRepaidOnTime x) (loansRepaidLateGrace x) (loansDefaulted x) (totalValueBorrowed x) (totalValueLent x) (currentReputationScore x) (vouchingStakeAmount x) (timesVouchedForOthers x) (timesDefaultedAsVoucher x) v (modificationsRejectedByLender x).
Definition set_modificationsRejectedByLender (v : Z) (x : t) : t :=
  mk (userAddress x) (loansTaken x) (loansGiven x) (loansRepaidOnTime x) (loansRepaidLateGrace x) (loansDefaulted x) (totalValueBorrowed x) (totalValueLent x) (currentReputationScore x) (vouchingStakeAmount x) (timesVouchedForOthers x) (timesDefaultedAsVoucher x) (modificationsApprovedByLender x) v.

End ReputationProfile.

#[global] Instance ReputationProfile_inhabited : Inhabited ReputationProfile.t := populate ReputationProfile.zero.

Module Vouch.

Record t : Type := mk {
  voucher : address;
  borrower : address;
  tokenAddress : address;
  stakedAmount : Z;
  isActive : bool
}.

Definition zero : t :=
  mk 0 0 0 0 false.

Definition set_stakedAmount (v : Z) (x : t) : t :=
  mk (voucher x) (borrower x) (tokenAddress x) v (isActive x).
Definition set_isActive (v : bool) (x : t) : t :=
  mk (voucher x) (borrower x) (tokenAddress x) (stakedAmount x) v.

End Vouch.

#[global] Instance Vouch_inhabited : Inhabited Vouch.t := populate Vouch.zero.

Module LoanOffer.

Record t : Type := mk {
  id : bytes32;
  lender : address;
  amount : Z;
  token : address;
  interestRateBPS : Z;
  durationSeconds : Z;
  requiredCollateralAmount : Z;
  collateralToken : address;
  isActive : bool;
  isFulfilled : bool
}.

Definition zero : t :=
  mk zero32 0 0 0 0 0 0 0 false false.

Definition set_isActive (v : bool) (x : t) : t :=
  mk (id x) (lender x) (amount x) (token x) (interestRateBPS x) (durationSeconds x) (requiredCollateralAmount x) (collateralToken x) v (isFulfilled x).
Definition set_isFulfilled (v : bool) (x : t) : t :=
  mk (id x) (lender x) (amount x) (token x) (interestRateBPS x) (durationSeconds x) (requiredCollateralAmount x) (collateralToken x) (isActive x) v.

End LoanOffer.

#[global] Instance LoanOffer_inhabited : Inhabited LoanOffer.t := populate LoanOffer.zero.

Module LoanRequest.

Record t : Type := mk {
  id : bytes32;
  borrower : address;
  amount : Z;
  token : address;
  proposedInterestRateBPS : Z;
  proposedDurationSeconds : Z;
  offeredCollateralAmount : Z;
  collateralToken : address;
  isActive : bool;
  isFulfilled : bool
}.

Definition zero : t :=
  mk zero32 0 0 0 0 0 0 0 false false.

Definition set_isActive (v : bool) (x : t) : t :=
  mk (id x) (borrower x) (amount x) (token x) (proposedInterestRateBPS x) (proposedDurationSeconds x) (offeredCollateralAmount x) (collateralToken x) v (isFulfilled x).
Definition set_isFulfilled (v : bool) (x : t) : t :=
  mk (id x) (borrower x) (amount x) (token x) (proposedInterestRateBPS x) (proposedDurationSeconds x) (offeredCollateralAmount x) (collateralToken x) (isActive x) v.

End LoanRequest.

#[global] Instance LoanRequest_inhabited : Inhabited LoanRequest.t := populate LoanRequest.zero.

Module LoanAgreement.

Record t : Type := mk {
  id : bytes32;
  originalOfferId : bytes32;
  originalRequestId : bytes32;
  lender : address;
  borrower : address;
  principalAmount : Z;
  loanToken : address;
  interestRateBPS : Z;
  durationSeconds : Z;
  collateralAmount : Z;
  collateralToken : address;
  startTime : Z;
  dueDate : Z;
  amountPaid : Z;
  status : LoanStatus.t;
  requestedModificationType : PaymentModificationType.t;
  requestedModificationValue : Z;
  modificationApprovedByLender : bool
}.

Definition zero : t :=
  mk zero32 zero32 zero32 0 0 0 0 0 0 0 0 0 0 0 LoanStatus.Active PaymentModificationType.None 0 false.

Definition set_dueDate (v : Z) (x : t) : t :=
  mk (id x) (originalOfferId x) (originalRequestId x) (lender x) (borrower x) (principalAmount x) (loanToken x) (interestRateBPS x) (durationSeconds x) (collateralAmount x) (collateralToken x) (startTime x) v (amountPaid x) (status x) (requestedModificationType x) (requestedModificationValue x) (modificationApprovedByLender x).
Definition set_amountPaid (v : Z) (x : t) : t :=
  mk (id x) (originalOfferId x) (originalRequestId x) (lender x) (borrower x) (principalAmount x) (loanToken x) (interestRateBPS x) (durationSeconds x) (collateralAmount x) (collateralToken x) (startTime x) (dueDate x) v (status x) (requestedModificationType x) (requestedModificationValue x) (modificationApprovedByLender x).
Definition set_status (v : LoanStatus.t) (x : t) : t :=
  mk (id x) (originalOfferId x) (originalRequestId x) (lender x) (borrower x) (principalAmount x) (loanToken x) (interestRateBPS x) (durationSeconds x) (collateralAmount x) (collateralToken x) (startTime x) (dueDate x) (amountPaid x) v (requestedModificationType x) (requestedModificationValue x) (modificationApprovedByLender x).
Definition set_requestedModificationType (v : PaymentModificationType.t) (x : t) : t :=
  mk (id x) (originalOfferId x) (originalRequestId x) (lender x) (borrower x) (principalAmount x) (loanToken x) (interestRateBPS x) (durationSeconds x) (collateralAmount x) (collateralToken x) (startTime x) (dueDate x) (amountPaid x) (status x) v (requestedModificationValue x) (modificationApprovedByLender x).
Definition set_requestedModificationValue (v : Z) (x : t) : t :=
  mk (id x) (originalOfferId x) (originalRequestId x) (lender x) (borrower x) (principalAmount x) (loanToken x) (interestRateBPS x) (durationSeconds x) (collateralAmount x) (collateralToken x) (startTime x) (dueDate x) (amountPaid x) (status x) (requestedModificationType x) v (modificationApprovedByLender x).
Definition set_modificationApprovedByLender (v : bool) (x : t) : t :=
  mk (id x) (originalOfferId x) (originalRequestId x) (lender x) (borrower x) (principalAmount x) (loanToken x) (interestRateBPS x) (durationSeconds x) (collateralAmount x) (collateralToken x) (startTime x) (dueDate x) (amountPaid x) (status x) (requestedModificationType x) (requestedModificationValue x) v.

End LoanAgreement.

#[global] Instance LoanAgreement_inhabited : Inhabited LoanAgreement.t := populate LoanAgreement.zero.


(** ** Events *)

Inductive Event : Type :=
| UserRegistered (userAddress : address) (name : string) (timestamp : Z)
| UserProfileUpdated (userAddress : address) (newName : string)
| ReputationUpdated (user : address) (newScore : Z) (reason : string)
| LoanTermOutcomeRecorded (agreementId : bytes32) (user : address)
    (reputationChange : Z) (reason : string) (outcomeType : PaymentOutcomeType.t)
| VouchAdded (voucher borrower token : address) (amount : Z)
| VouchRemoved (voucher borrower : address) (returnedAmount : Z)
| VouchSlashed (voucher defaultingBorrower : address) (slashedAmount : Z)
    (slashedToLender : address)
| LoanOfferCreated (offerId : bytes32) (lender : address) (amount : Z)
    (token : address) (interestRateBPS durationSeconds : Z)
| LoanRequestCreated (requestId : bytes32) (borrower : address) (amount : Z)
    (token : address) (proposedInterestRateBPS proposedDurationSeconds : Z)
| LoanAgreementCreated (agreementId : bytes32) (lender borrower : address)
    (principalAmount : Z) (token : address)
    (interestRateBPS durationSeconds startTime dueDate collateralAmount : Z)
    (collateralToken : address)
| LoanRepayment (agreementId : bytes32) (payer : address)
    (amountPaidThisTime newTotalAmountPaid newRemainingBalance : Z)
    (newStatus : LoanStatus.t)
| LoanAgreementRepaid (agreementId : bytes32)
| LoanAgreementDefaulted (agreementId : bytes32)
| PaymentModificationRequested (agreementId : bytes32) (borrower : address)
    (modificationType : PaymentModificationType.t) (value : Z)
| PaymentModificationResponded (agreementId : bytes32) (lender : address)
    (approved : bool) (modificationType : PaymentModificationType.t)
    (originalRequestedValue : Z).

(** ** Contract storage and the world *)

Module UserRegistry.
Record t : Type := mk {
  userProfiles : gmap address UserProfile.t;
  registeredUsers : list address;
  totalUsers : Z
}.
End UserRegistry.

Module Reputation.
Record t : Type := mk {
  owner : address;
  p2pLendingContractAddress : address;
  userReputations : gmap address ReputationProfile.t;
  activeVouches : gmap (address * address) Vouch.t;     (* voucher, borrower *)
  userVouchesGiven : gmap address (list Vouch.t);
  userVouchesReceived : gmap address (list Vouch.t)
}.
Definition set_owner (v : address) (x : t) : t :=
  mk v (p2pLendingContractAddress x) (userReputations x) (activeVouches x)
     (userVouchesGiven x) (userVouchesReceived x).
Definition set_p2pLendingContractAddress (v : address) (x : t) : t :=
  mk (owner x) v (userReputations x) (activeVouches x)
     (userVouchesGiven x) (userVouchesReceived x).
Definition set_userReputations (v : gmap address ReputationProfile.t) (x : t) : t :=
  mk (owner x) (p2pLendingContractAddress x) v (activeVouches x)
     (userVouchesGiven x) (userVouchesReceived x).
Definition set_activeVouches (v : gmap (address * address) Vouch.t) (x : t) : t :=
  mk (owner x) (p2pLendingContractAddress x) (userReputations x) v
     (userVouchesGiven x) (userVouchesReceived x).
Definition set_userVouchesGiven (v : gmap address (list Vouch.t)) (x : t) : t :=
  mk (owner x) (p2pLendingContractAddress x) (userReputations x) (activeVouches x)
     v (userVouchesReceived x).
Definition set_userVouchesReceived (v : gmap address (list Vouch.t)) (x : t) : t :=
  mk (owner x) (p2pLendingContractAddress x) (userReputations x) (activeVouches x)
     (userVouchesGiven x) v.
End Reputation.

Module P2PLending.
Record t : Type := mk {
  owner : address;
  reputationContract : address;
  reputationOApp : address;
  platformWallet : address;
  loanOffers : gmap bytes32 LoanOffer.t;
  userLoanOfferIds : gmap address (list bytes32);
  loanRequests : gmap bytes32 LoanRequest.t;
  userLoanRequestIds : gmap address (list bytes32);
  loanAgreements : gmap bytes32 LoanAgreement.t;
  userLoanAgreementIdsAsLender : gmap address (list bytes32);
  userLoanAgreementIdsAsBorrower : gmap address (list bytes32)
}.
Definition set_owner (v : address) (x : t) : t :=
  mk v (reputationContract x) (reputationOApp x) (platformWallet x)
     (loanOffers x) (userLoanOfferIds x) (loanRequests x) (userLoanRequestIds x)
     (loanAgreements x) (userLoanAgreementIdsAsLender x) (userLoanAgreementIdsAsBorrower x).
Definition set_reputationContract (v : address) (x : t) : t :=
  mk (owner x) v (reputationOApp x) (platformWallet x)
     (loanOffers x) (userLoanOfferIds x) (loanRequests x) (userLoanRequestIds x)
     (loanAgreements x) (userLoanAgreementIdsAsLender x) (userLoanAgreementIdsAsBorrower x).
Definition set_reputationOApp (v : address) (x : t) : t :=
  mk (owner x) (reputationContract x) v (platformWallet x)
     (loanOffers x) (userLoanOfferIds x) (loanRequests x) (userLoanRequestIds x)
     (loanAgreements x) (userLoanAgreementIdsAsLender x) (userLoanAgreementIdsAsBorrower x).
Definition set_loanOffers (v : gmap bytes32 LoanOffer.t) (x : t) : t :=
  mk (owner x) (reputationContract x) (reputationOApp x) (platformWallet x)
     v (userLoanOfferIds x) (loanRequests x) (userLoanRequestIds x)
     (loanAgreements x) (userLoanAgreementIdsAsLender x) (userLoanAgreementIdsAsBorrower x).
Definition set_userLoanOfferIds (v : gmap address (list bytes32)) (x : t) : t :=
  mk (owner x) (reputationContract x) (reputationOApp x) (platformWallet x)
     (loanOffers x) v (loanRequests x) (userLoanRequestIds x)
     (loanAgreements x) (userLoanAgreementIdsAsLender x) (userLoanAgreementIdsAsBorrower x).
Definition set_loanRequests (v : gmap bytes32 LoanRequest.t) (x : t) : t :=
  mk (owner x) (reputationContract x) (reputationOApp x) (platformWallet x)
     (loanOffers x) (userLoanOfferIds x) v (userLoanRequestIds x)
     (loanAgreements x) (userLoanAgreementIdsAsLender x) (userLoanAgreementIdsAsBorrower x).
Definition set_userLoanRequestIds (v : gmap address (list bytes32)) (x : t) : t :=
  mk (owner x) (reputationContract x) (reputationOApp x) (platformWallet x)
     (loanOffers x) (userLoanOfferIds x) (loanRequests x) v
     (loanAgreements x) (userLoanAgreementIdsAsLender x) (userLoanAgreementIdsAsBorrower x).
Definition set_loanAgreements (v : gmap bytes32 LoanAgreement.t) (x : t) : t :=
  mk (owner x) (reputationContract x) (reputationOApp x) (platformWallet x)
     (loanOffers x) (userLoanOfferIds x) (loanRequests x) (userLoanRequestIds x)
     v (userLoanAgreementIdsAsLender x) (userLoanAgreementIdsAsBorrower x).
Definition set_userLoanAgreementIdsAsLender (v : gmap address (list bytes32)) (x : t) : t :=
  mk (owner x) (reputationContract x) (reputationOApp x) (platformWallet x)
     (loanOffers x) (userLoanOfferIds x) (loanRequests x) (userLoanRequestIds x)
     (loanAgreements x) v (userLoanAgreementIdsAsBorrower x).
Definition set_userLoanAgreementIdsAsBorrower (v : gmap address (list bytes32)) (x : t) : t :=
  mk (owner x) (reputationContract x) (reputationOApp x) (platformWallet x)
     (loanOffers x) (userLoanOfferIds x) (loanRequests x) (userLoanRequestIds x)
     (loanAgreements x) (userLoanAgreementIdsAsLender x) v.
End P2PLending.

(** The deployed system: the three contracts, their addresses (the
    registry is never a caller or a holder, so it needs none), the token
    ledger and the event log in emission order. *)
Record World : Type := mkWorld {
  reputationAddress : address;
  lendingAddress : address;
  userRegistry : UserRegistry.t;
  reputation : Reputation.t;
  lending : P2PLending.t;
  tokens : ERC20.t;
  log : list Event
}.

Definition set_userRegistry (v : UserRegistry.t) (w : World) : World :=
  mkWorld (reputationAddress w) (lendingAddress w) v (reputation w) (lending w) (tokens w) (log w).
Definition set_reputation (v : Reputation.t) (w : World) : World :=
  mkWorld (reputationAddress w) (lendingAddress w) (userRegistry w) v (lending w) (tokens w) (log w).
Definition set_lending (v : P2PLending.t) (w : World) : World :=
  mkWorld (reputationAddress w) (lendingAddress w) (userRegistry w) (reputation w) v (tokens w) (log w).
Definition set_tokens (v : ERC20.t) (w : World) : World :=
  mkWorld (reputationAddress w) (lendingAddress w) (userRegistry w) (reputation w) (lending w) v (log w).
Definition emit (e : Event) (w : World) : World :=
  mkWorld (reputationAddress w) (lendingAddress w) (userRegistry w) (reputation w) (lending w)
          (tokens w) (log w ++ [e]).

(** A transaction either commits its final world or leaves the world as it was. *)
Definition commit (w : World) (r : result World) : World :=
  match r with Ok w' => w' | Revert _ => w end.

(** Token calls made by a contract, lifted to the world. *)
Definition token_transfer (token from to : address) (value : Z) (w : World) : result World :=
  l ← ERC20.transfer token from to value (tokens w); Ok (set_tokens l w).
Definition token_transferFrom (token spender from to : address) (value : Z) (w : World)
  : result World :=
  l ← ERC20.transferFrom token spender from to value (tokens w); Ok (set_tokens l w).

(** ** UserRegistry.sol *)

Definition isUserRegistered (_userAddress : address) (w : World) : bool :=
  UserProfile.isRegistered (UserRegistry.userProfiles (userRegistry w) !!! _userAddress).

Definition nameLength (s : string) : Z := Z.of_nat (String.length s).

Definition registerUser (sender : address) (now : Z) (_name : string) (w : World)
  : result World :=
  require (negb (isUserRegistered sender w)) "UserRegistry: Address already registered";;
  require (bool_decide (nameLength _name > 0)) "UserRegistry: Name cannot be empty";;
  require (bool_decide (nameLength _name ≤ 50)) "UserRegistry: Name too long";;
  let r := userRegistry w in
  let profiles := <[sender := UserProfile.mk true _name now]> (UserRegistry.userProfiles r) in
  let users := UserRegistry.registeredUsers r ++ [sender] in
  total ← checked_add (UserRegistry.totalUsers r) 1;
  Ok (emit (UserRegistered sender _name now)
        (set_userRegistry (UserRegistry.mk profiles users total) w)).

Definition updateProfile (sender : address) (_newName : string) (w : World) : result World :=
  require (isUserRegistered sender w) "UserRegistry: User not registered";;
  require (bool_decide (nameLength _newName > 0)) "UserRegistry: Name cannot be empty";;
  require (bool_decide (nameLength _newName ≤ 50)) "UserRegistry: Name too long";;
  let r := userRegistry w in
  let p := UserRegistry.userProfiles r !!! sender in
  let profiles := <[sender := UserProfile.set_name _newName p]> (UserRegistry.userProfiles r) in
  Ok (emit (UserProfileUpdated sender _newName)
        (set_userRegistry
           (UserRegistry.mk profiles (UserRegistry.registeredUsers r) (UserRegistry.totalUsers r)) w)).

Definition getUserProfile (_userAddress : address) (w : World) : bool * string * Z :=
  let profile := UserRegistry.userProfiles (userRegistry w) !!! _userAddress in
  (UserProfile.isRegistered profile, UserProfile.name profile, UserProfile.registrationTime profile).

Definition getRegisteredUser (_index : Z) (w : World) : result address :=
  require (bool_decide (_index < UserRegistry.totalUsers (userRegistry w)))
    "UserRegistry: Index out of bounds";;
  match UserRegistry.registeredUsers (userRegistry w) !! Z.to_nat _index with
  | Some a => Ok a
  | None => Revert "Panic(0x32)"
  end.

Definition getTotalUsers (w : World) : Z := UserRegistry.totalUsers (userRegistry w).

(** ** Reputation.sol *)

Definition REPUTATION_POINTS_REPAID_ON_TIME_ORIGINAL : Z := 10.
Definition REPUTATION_POINTS_REPAID_LATE_GRACE : Z := 3.
Definition REPUTATION_POINTS_REPAID_ON_TIME_AFTER_EXTENSION : Z := 7.
Definition REPUTATION_POINTS_REPAID_LATE_AFTER_EXTENSION : Z := 2.
Definition REPUTATION_POINTS_REPAID_WITH_PARTIAL_AGREEMENT_MET : Z := 8.
Definition REPUTATION_POINTS_DEFAULTED : Z := -50.
Definition REPUTATION_POINTS_LENT_SUCCESSFULLY_ON_TIME_ORIGINAL : Z := 5.
Definition REPUTATION_POINTS_LENT_SUCCESSFULLY_AFTER_MODIFICATION : Z := 3.
Definition REPUTATION_POINTS_LENDER_APPROVED_EXTENSION : Z := 2.
Definition REPUTATION_POINTS_LENDER_APPROVED_PARTIAL_AGREEMENT : Z := 1.
Definition REPUTATION_POINTS_LENDER_REJECTED_MODIFICATION : Z := 0.
Definition REPUTATION_POINTS_VOUCH_DEFAULTED_VOUCHER : Z := -20.

Definition NOT_P2P_LENDING : string := "Reputation: Caller is not P2PLending contract".

Definition onlyP2PLendingContract (sender : address) (w : World) : result unit :=
  require (bool_decide (sender = Reputation.p2pLendingContractAddress (reputation w)))
    NOT_P2P_LENDING.

Definition onlyVerifiedUser_Reputation (user : address) (w : World) : result unit :=
  require (isUserRegistered user w) "Reputation: User not World ID verified".

Definition setP2PLendingContractAddress (sender _p2pLendingAddress : address) (w : World)
  : result World :=
  require (bool_decide (sender = Reputation.owner (reputation w))) "OwnableUnauthorizedAccount";;
  require (bool_decide (_p2pLendingAddress ≠ 0)) "Invalid P2PLending contract address";;
  Ok (set_reputation
        (Reputation.set_p2pLendingContractAddress _p2pLendingAddress (reputation w)) w).

(** [userReputations[user]], read and written through a storage pointer. *)
Definition getReputationProfile (_user : address) (w : World) : ReputationProfile.t :=
  Reputation.userReputations (reputation w) !!! _user.

Definition writeProfile (user : address) (p : ReputationProfile.t) (w : World) : World :=
  set_reputation
    (Reputation.set_userReputations
       (<[user := p]> (Reputation.userReputations (reputation w))) (reputation w)) w.

Definition getVouchDetails (voucher borrower : address) (w : World) : Vouch.t :=
  Reputation.activeVouches (reputation w) !!! (voucher, borrower).

Definition writeVouch (voucher borrower : address) (v : Vouch.t) (w : World) : World :=
  set_reputation
    (Reputation.set_activeVouches
       (<[(voucher, borrower) := v]> (Reputation.activeVouches (reputation w))) (reputation w)) w.

Definition getUserVouchesGiven (voucher : address) (w : World) : list Vouch.t :=
  Reputation.userVouchesGiven (reputation w) !!! voucher.

Definition getUserVouchesReceived (borrower : address) (w : World) : list Vouch.t :=
  Reputation.userVouchesReceived (reputation w) !!! borrower.

(** [profile.field++] and [profile.field += v] on an unsigned counter,
    [profile.field -= v], and [profile.currentReputationScore += d]. *)
Definition increase (get : ReputationProfile.t → Z)
    (set : Z → ReputationProfile.t → ReputationProfile.t)
    (user : address) (v : Z) (w : World) : result World :=
  n ← checked_add (get (getReputationProfile user w)) v;
  Ok (writeProfile user (set n (getReputationProfile user w)) w).

Definition decrease (get : ReputationProfile.t → Z)
    (set : Z → ReputationProfile.t → ReputationProfile.t)
    (user : address) (v : Z) (w : World) : result World :=
  n ← checked_sub (get (getReputationProfile user w)) v;
  Ok (writeProfile user (set n (getReputationProfile user w)) w).

Definition addScore (user : address) (d : Z) (w : World) : result World :=
  n ← checked_add_int (ReputationProfile.currentReputationScore (getReputationProfile user w)) d;
  Ok (writeProfile user
        (ReputationProfile.set_currentReputationScore n (getReputationProfile user w)) w).

Definition _initializeReputationProfileIfNotExists (user : address) (w : World) : World :=
  if bool_decide (ReputationProfile.userAddress (getReputationProfile user w) = 0)
     && isUserRegistered user w
  then writeProfile user (ReputationProfile.mk user 0 0 0 0 0 0 0 0 0 0 0 0 0) w
  else w.

(** The outcome branch of [recordLoanPaymentOutcome]: the borrower's change
    and reason, the lender's base change and reason, and the borrower counter
    that the branch increments. *)
Definition outcomeBranch (outcome : PaymentOutcomeType.t) (borrower : address) (w : World)
  : result (Z * string * Z * string * World) :=
  match outcome with
  | PaymentOutcomeType.OnTimeOriginal =>
      w ← increase ReputationProfile.loansRepaidOnTime ReputationProfile.set_loansRepaidOnTime
            borrower 1 w;
      Ok (REPUTATION_POINTS_REPAID_ON_TIME_ORIGINAL, "Loan repaid on time (original terms)",
          0 + REPUTATION_POINTS_LENT_SUCCESSFULLY_ON_TIME_ORIGINAL,
          "Loan lent and repaid on time (original terms)", w)
  | PaymentOutcomeType.LateGraceOriginal =>
      w ← increase ReputationProfile.loansRepaidLateGrace
            ReputationProfile.set_loansRepaidLateGrace borrower 1 w;
      Ok (REPUTATION_POINTS_REPAID_LATE_GRACE, "Loan repaid late (grace, original terms)",
          0 + REPUTATION_POINTS_LENT_SUCCESSFULLY_AFTER_MODIFICATION,
          "Loan lent and repaid (late grace)", w)
  | PaymentOutcomeType.OnTimeExtended =>
      w ← increase ReputationProfile.loansRepaidOnTime ReputationProfile.set_loansRepaidOnTime
            borrower 1 w;
      Ok (REPUTATION_POINTS_REPAID_ON_TIME_AFTER_EXTENSION,
          "Loan repaid on time (after extension)",
          0 + REPUTATION_POINTS_LENT_SUCCESSFULLY_AFTER_MODIFICATION,
          "Loan lent and repaid (on time after extension)", w)
  | PaymentOutcomeType.LateExtended =>
      w ← increase ReputationProfile.loansRepaidLateGrace
            ReputationProfile.set_loansRepaidLateGrace borrower 1 w;
      Ok (REPUTATION_POINTS_REPAID_LATE_AFTER_EXTENSION, "Loan repaid late (after extension)",
          0 + REPUTATION_POINTS_LENT_SUCCESSFULLY_AFTER_MODIFICATION,
          "Loan lent and repaid (late after extension)", w)
  | PaymentOutcomeType.PartialAgreementMetAndRepaid =>
      w ← increase ReputationProfile.loansRepaidOnTime ReputationProfile.set_loansRepaidOnTime
            borrower 1 w;
      Ok (REPUTATION_POINTS_REPAID_WITH_PARTIAL_AGREEMENT_MET,
          "Loan repaid after meeting partial payment agreement",
          0 + REPUTATION_POINTS_LENT_SUCCESSFULLY_AFTER_MODIFICATION,
          "Loan lent and repaid (after partial payment agreement)", w)
  | _ => Ok (0, "Loan outcome processed", 0, "Loan outcome processed for lender", w)
  end.

(** The lender's modification handling: the counter that is incremented and
    the points added to the base change. *)
Definition lenderModificationBranch (lender : address)
    (modificationTypeUsed : PaymentModificationType.t) (lenderApprovedRequest : bool)
    (lenderRepChange : Z) (w : World) : result (Z * World) :=
  if lenderApprovedRequest then
    w ← increase ReputationProfile.modificationsApprovedByLender
          ReputationProfile.set_modificationsApprovedByLender lender 1 w;
    if bool_decide (modificationTypeUsed = PaymentModificationType.DueDateExtension)
    then Ok (lenderRepChange + REPUTATION_POINTS_LENDER_APPROVED_EXTENSION, w)
    else if bool_decide (modificationTypeUsed = PaymentModificationType.PartialPaymentAgreement)
    then Ok (lenderRepChange + REPUTATION_POINTS_LENDER_APPROVED_PARTIAL_AGREEMENT, w)
    else Ok (lenderRepChange, w)
  else if bool_decide (modificationTypeUsed ≠ PaymentModificationType.None) then
    w ← increase ReputationProfile.modificationsRejectedByLender
          ReputationProfile.set_modificationsRejectedByLender lender 1 w;
    Ok (lenderRepChange + REPUTATION_POINTS_LENDER_REJECTED_MODIFICATION, w)
  else Ok (lenderRepChange, w).

(** Whether the lender's reason is replaced by the combined one. *)
Definition modificationSpecificPointsInvolved
    (modificationTypeUsed : PaymentModificationType.t) (lenderApprovedRequest : bool)
    (lenderRepChange : Z) : bool :=
  let isExtension := bool_decide (modificationTypeUsed = PaymentModificationType.DueDateExtension) in
  let isPartial :=
    bool_decide (modificationTypeUsed = PaymentModificationType.PartialPaymentAgreement) in
  let afterMod := REPUTATION_POINTS_LENT_SUCCESSFULLY_AFTER_MODIFICATION in
  let onTime := REPUTATION_POINTS_LENT_SUCCESSFULLY_ON_TIME_ORIGINAL in
  if lenderApprovedRequest then
    let m1 :=
      if isExtension
         && bool_decide (lenderRepChange ≠ afterMod + REPUTATION_POINTS_LENDER_APPROVED_EXTENSION)
         && bool_decide (lenderRepChange ≠ onTime + REPUTATION_POINTS_LENDER_APPROVED_EXTENSION)
      then false
      else if isExtension && bool_decide (REPUTATION_POINTS_LENDER_APPROVED_EXTENSION ≠ 0)
      then true else false in
    if isPartial
       && bool_decide (lenderRepChange
                       ≠ afterMod + REPUTATION_POINTS_LENDER_APPROVED_PARTIAL_AGREEMENT)
       && bool_decide (lenderRepChange
                       ≠ onTime + REPUTATION_POINTS_LENDER_APPROVED_PARTIAL_AGREEMENT)
    then m1
    else if isPartial && bool_decide (REPUTATION_POINTS_LENDER_APPROVED_PARTIAL_AGREEMENT ≠ 0)
    then true else m1
  else if bool_decide (modificationTypeUsed ≠ PaymentModificationType.None) then
    bool_decide (REPUTATION_POINTS_LENDER_REJECTED_MODIFICATION ≠ 0)
    && (bool_decide (lenderRepChange = onTime + REPUTATION_POINTS_LENDER_REJECTED_MODIFICATION)
        || bool_decide (lenderRepChange
                        = afterMod + REPUTATION_POINTS_LENDER_REJECTED_MODIFICATION))
  else false.

Definition recordLoanPaymentOutcome (sender : address) (agreementId : bytes32)
    (borrower lender : address) (principalAmount : Z) (outcome : PaymentOutcomeType.t)
    (modificationTypeUsed : PaymentModificationType.t) (lenderApprovedRequest : bool)
    (w : World) : result World :=
  onlyP2PLendingContract sender w;;
  let w := _initializeReputationProfileIfNotExists borrower w in
  let w := _initializeReputationProfileIfNotExists lender w in
  w ← increase ReputationProfile.loansTaken ReputationProfile.set_loansTaken borrower 1 w;
  w ← increase ReputationProfile.totalValueBorrowed ReputationProfile.set_totalValueBorrowed
        borrower principalAmount w;
  '(borrowerRepChange, borrowerReason, lenderRepChange, lenderReason, w) ←
     outcomeBranch outcome borrower w;
  w ← (if bool_decide (borrowerRepChange ≠ 0) then
         w ← addScore borrower borrowerRepChange w;
         let score := ReputationProfile.currentReputationScore (getReputationProfile borrower w) in
         Ok (emit (LoanTermOutcomeRecorded agreementId borrower borrowerRepChange
                     borrowerReason outcome)
               (emit (ReputationUpdated borrower score borrowerReason) w))
       else Ok w);
  '(lenderRepChange, w) ←
     lenderModificationBranch lender modificationTypeUsed lenderApprovedRequest
       lenderRepChange w;
  w ← increase ReputationProfile.loansGiven ReputationProfile.set_loansGiven lender 1 w;
  w ← increase ReputationProfile.totalValueLent ReputationProfile.set_totalValueLent
        lender principalAmount w;
  if bool_decide (lenderRepChange ≠ 0) then
    w ← addScore lender lenderRepChange w;
    let finalLenderReason :=
      if modificationSpecificPointsInvolved modificationTypeUsed lenderApprovedRequest
           lenderRepChange
      then "Loan outcome and modification handling for lender" else lenderReason in
    let score := ReputationProfile.currentReputationScore (getReputationProfile lender w) in
    Ok (emit (LoanTermOutcomeRecorded agreementId lender lenderRepChange finalLenderReason outcome)
          (emit (ReputationUpdated lender score finalLenderReason) w))
  else Ok w.

Definition updateReputationOnLoanDefault (sender borrower lender : address) (loanAmount : Z)
    (vouchesForThisLoan : list bytes32) (w : World) : result World :=
  onlyP2PLendingContract sender w;;
  let w := _initializeReputationProfileIfNotExists borrower w in
  w ← increase ReputationProfile.loansTaken ReputationProfile.set_loansTaken borrower 1 w;
  w ← increase ReputationProfile.loansDefaulted ReputationProfile.set_loansDefaulted
        borrower 1 w;
  w ← addScore borrower REPUTATION_POINTS_DEFAULTED w;
  let score := ReputationProfile.currentReputationScore (getReputationProfile borrower w) in
  Ok (emit (ReputationUpdated borrower score "Loan defaulted") w).

Definition addVouch (sender borrowerToVouchFor : address) (amountToStake : Z)
    (tokenAddress : address) (w : World) : result World :=
  onlyVerifiedUser_Reputation sender w;;
  require (bool_decide (borrowerToVouchFor ≠ sender)) "Cannot vouch for yourself";;
  require (isUserRegistered borrowerToVouchFor w) "Borrower not World ID verified";;
  require (bool_decide (amountToStake > 0)) "Stake amount must be positive";;
  require (bool_decide (tokenAddress ≠ 0)) "Invalid token address";;
  require (negb (Vouch.isActive (getVouchDetails sender borrowerToVouchFor w)))
    "Already actively vouching for this borrower";;
  let w := _initializeReputationProfileIfNotExists sender w in
  let w := _initializeReputationProfileIfNotExists borrowerToVouchFor w in
  w ← token_transferFrom tokenAddress (reputationAddress w) sender (reputationAddress w)
        amountToStake w;
  let newVouch := Vouch.mk sender borrowerToVouchFor tokenAddress amountToStake true in
  let w := writeVouch sender borrowerToVouchFor newVouch w in
  let w := set_reputation
             (Reputation.set_userVouchesGiven
                (<[sender := getUserVouchesGiven sender w ++ [newVouch]]>
                   (Reputation.userVouchesGiven (reputation w))) (reputation w)) w in
  let w := set_reputation
             (Reputation.set_userVouchesReceived
                (<[borrowerToVouchFor := getUserVouchesReceived borrowerToVouchFor w ++ [newVouch]]>
                   (Reputation.userVouchesReceived (reputation w))) (reputation w)) w in
  w ← increase ReputationProfile.vouchingStakeAmount ReputationProfile.set_vouchingStakeAmount
        sender amountToStake w;
  w ← increase ReputationProfile.timesVouchedForOthers
        ReputationProfile.set_timesVouchedForOthers sender 1 w;
  Ok (emit (VouchAdded sender borrowerToVouchFor tokenAddress amountToStake) w).

Definition removeVouch (sender borrowerVouchedFor : address) (w : World) : result World :=
  onlyVerifiedUser_Reputation sender w;;
  let vouch := getVouchDetails sender borrowerVouchedFor w in
  require (Vouch.isActive vouch) "No active vouch for this borrower";;
  let w := writeVouch sender borrowerVouchedFor (Vouch.set_isActive false vouch) w in
  let stakedAmountToReturn := Vouch.stakedAmount vouch in
  w ← decrease ReputationProfile.vouchingStakeAmount ReputationProfile.set_vouchingStakeAmount
        sender stakedAmountToReturn w;
  w ← token_transfer (Vouch.tokenAddress vouch) (reputationAddress w) sender
        stakedAmountToReturn w;
  Ok (emit (VouchRemoved sender borrowerVouchedFor stakedAmountToReturn) w).

Definition slashVouchAndReputation (sender voucher defaultingBorrower : address)
    (amountToSlash : Z) (lenderToCompensate : address) (w : World) : result World :=
  onlyP2PLendingContract sender w;;
  let vouch := getVouchDetails voucher defaultingBorrower w in
  require (Vouch.isActive vouch) "Vouch not active or does not exist";;
  require (bool_decide (amountToSlash ≤ Vouch.stakedAmount vouch))
    "Slash amount exceeds staked amount";;
  require (bool_decide (amountToSlash > 0)) "Slash amount must be positive";;
  let w := _initializeReputationProfileIfNotExists voucher w in
  staked ← checked_sub (Vouch.stakedAmount vouch) amountToSlash;
  let vouch := Vouch.set_stakedAmount staked vouch in
  let w := writeVouch voucher defaultingBorrower vouch w in
  w ← addScore voucher REPUTATION_POINTS_VOUCH_DEFAULTED_VOUCHER w;
  w ← decrease ReputationProfile.vouchingStakeAmount ReputationProfile.set_vouchingStakeAmount
        voucher amountToSlash w;
  w ← increase ReputationProfile.timesDefaultedAsVoucher
        ReputationProfile.set_timesDefaultedAsVoucher voucher 1 w;
  w ← token_transfer (Vouch.tokenAddress vouch) (reputationAddress w) lenderToCompensate
        amountToSlash w;
  let w := emit (VouchSlashed voucher defaultingBorrower amountToSlash lenderToCompensate) w in
  let score := ReputationProfile.currentReputationScore (getReputationProfile voucher w) in
  let w := emit (ReputationUpdated voucher score "Vouched loan defaulted, stake slashed") w in
  if bool_decide (Vouch.stakedAmount vouch = 0)
  then Ok (writeVouch voucher defaultingBorrower (Vouch.set_isActive false vouch) w)
  else Ok w.

(** The first loop of the source counts the entries of the received history
    whose pair is active in [activeVouches]; the second copies the current
    [activeVouches] record of each such entry, in order, into an array of that
    size. Both loops test the same condition, so the array is exactly full. *)
Fixpoint collectActive (allReceived : list Vouch.t) (w : World) : list Vouch.t :=
  match allReceived with
  | [] => []
  | e :: rest =>
      let currentVouchState := getVouchDetails (Vouch.voucher e) (Vouch.borrower e) w in
      if Vouch.isActive currentVouchState
      then currentVouchState :: collectActive rest w
      else collectActive rest w
  end.

Definition getActiveVouchesForBorrower (borrower : address) (w : World) : list Vouch.t :=
  collectActive (getUserVouchesReceived borrower w) w.

(** ** P2PLending.sol *)

Definition BASIS_POINTS : Z := 10000.

Definition onlyVerifiedUser_P2PL (user : address) (w : World) : result unit :=
  require (isUserRegistered user w) "P2PL: User not World ID verified".

Definition onlyOwner_P2PL (sender : address) (w : World) : result unit :=
  require (bool_decide (sender = P2PLending.owner (lending w))) "OwnableUnauthorizedAccount".

Definition setReputationContractAddress (sender _newReputationContractAddress : address)
    (w : World) : result World :=
  onlyOwner_P2PL sender w;;
  require (bool_decide (_newReputationContractAddress ≠ 0))
    "P2PL: Invalid Reputation contract address";;
  Ok (set_lending (P2PLending.set_reputationContract _newReputationContractAddress (lending w)) w).

Definition setReputationOAppAddress (sender newReputationOAppAddress : address) (w : World)
  : result World :=
  onlyOwner_P2PL sender w;;
  if bool_decide (newReputationOAppAddress = 0)
  then Ok (set_lending (P2PLending.set_reputationOApp 0 (lending w)) w)
  else Ok (set_lending (P2PLending.set_reputationOApp newReputationOAppAddress (lending w)) w).

Definition setPythAddress (sender newPythAddress : address) (w : World) : result World :=
  onlyOwner_P2PL sender w;;
  Revert "P2PL: Pyth integration removed".

Definition getOffer (offerId : bytes32) (w : World) : LoanOffer.t :=
  P2PLending.loanOffers (lending w) !!! offerId.
Definition getRequest (requestId : bytes32) (w : World) : LoanRequest.t :=
  P2PLending.loanRequests (lending w) !!! requestId.
Definition getAgreement (agreementId : bytes32) (w : World) : LoanAgreement.t :=
  P2PLending.loanAgreements (lending w) !!! agreementId.

Definition writeOffer (offerId : bytes32) (o : LoanOffer.t) (w : World) : World :=
  set_lending (P2PLending.set_loanOffers
                 (<[offerId := o]> (P2PLending.loanOffers (lending w))) (lending w)) w.
Definition writeRequest (requestId : bytes32) (r : LoanRequest.t) (w : World) : World :=
  set_lending (P2PLending.set_loanRequests
                 (<[requestId := r]> (P2PLending.loanRequests (lending w))) (lending w)) w.
Definition writeAgreement (agreementId : bytes32) (a : LoanAgreement.t) (w : World) : World :=
  set_lending (P2PLending.set_loanAgreements
                 (<[agreementId := a]> (P2PLending.loanAgreements (lending w))) (lending w)) w.

Definition checkCollateralShape (amount : Z) (token : address) : result unit :=
  if bool_decide (amount > 0)
  then require (bool_decide (token ≠ 0)) "P2PL: Invalid collateral token for non-zero amount"
  else require (bool_decide (token = 0)) "P2PL: Collateral token must be zero for zero amount".

Definition createLoanOffer (sender : address) (now amount_ : Z) (token_ : address)
    (interestRateBPS_ durationSeconds_ requiredCollateralAmount_ : Z)
    (collateralToken_ : address) (w : World) : result (bytes32 * World) :=
  onlyVerifiedUser_P2PL sender w;;
  require (bool_decide (amount_ > 0)) "P2PL: Offer amount must be > 0";;
  require (bool_decide (token_ ≠ 0)) "P2PL: Invalid loan token";;
  require (bool_decide (durationSeconds_ > 0)) "P2PL: Duration must be > 0";;
  checkCollateralShape requiredCollateralAmount_ collateralToken_;;
  require (bool_decide (amount_ ≤ ERC20.balanceOf token_ sender (tokens w)))
    "P2PL: Insufficient balance for offer";;
  let ids := P2PLending.userLoanOfferIds (lending w) !!! sender in
  let offerId := keccak7 sender amount_ token_ interestRateBPS_ durationSeconds_ now
                   (Z.of_nat (length ids)) in
  let w := writeOffer offerId
             (LoanOffer.mk offerId sender amount_ token_ interestRateBPS_ durationSeconds_
                requiredCollateralAmount_ collateralToken_ true false) w in
  let w := set_lending (P2PLending.set_userLoanOfferIds
                          (<[sender := ids ++ [offerId]]> (P2PLending.userLoanOfferIds (lending w)))
                          (lending w)) w in
  w ← token_transferFrom token_ (lendingAddress w) sender (lendingAddress w) amount_ w;
  Ok (offerId,
      emit (LoanOfferCreated offerId sender amount_ token_ interestRateBPS_ durationSeconds_) w).

Definition createLoanRequest (sender : address) (now amount_ : Z) (token_ : address)
    (proposedInterestRateBPS_ proposedDurationSeconds_ offeredCollateralAmount_ : Z)
    (offeredCollateralToken_ : address) (w : World) : result (bytes32 * World) :=
  onlyVerifiedUser_P2PL sender w;;
  require (bool_decide (amount_ > 0)) "P2PL: Request amount must be > 0";;
  require (bool_decide (token_ ≠ 0)) "P2PL: Invalid loan token";;
  require (bool_decide (proposedDurationSeconds_ > 0)) "P2PL: Duration must be > 0";;
  (if bool_decide (offeredCollateralAmount_ > 0) then
     require (bool_decide (offeredCollateralToken_ ≠ 0))
       "P2PL: Invalid collateral token for non-zero amount";;
     require (bool_decide (offeredCollateralAmount_
                           ≤ ERC20.balanceOf offeredCollateralToken_ sender (tokens w)))
       "P2PL: Insufficient collateral balance for request"
   else require (bool_decide (offeredCollateralToken_ = 0))
          "P2PL: Collateral token must be zero for zero amount");;
  let ids := P2PLending.userLoanRequestIds (lending w) !!! sender in
  let requestId := keccak7 sender amount_ token_ proposedInterestRateBPS_
                     proposedDurationSeconds_ now (Z.of_nat (length ids)) in
  let w := writeRequest requestId
             (LoanRequest.mk requestId sender amount_ token_ proposedInterestRateBPS_
                proposedDurationSeconds_ offeredCollateralAmount_ offeredCollateralToken_
                true false) w in
  let w := set_lending (P2PLending.set_userLoanRequestIds
                          (<[sender := ids ++ [requestId]]>
                             (P2PLending.userLoanRequestIds (lending w)))
                          (lending w)) w in
  Ok (requestId,
      emit (LoanRequestCreated requestId sender amount_ token_ proposedInterestRateBPS_
              proposedDurationSeconds_) w).

(** [userLoanAgreementIdsAsLender[lender].push(id)] and the borrower's list. *)
Definition pushAgreementIds (agreementId : bytes32) (lender borrower : address) (w : World)
  : World :=
  let asLender := P2PLending.userLoanAgreementIdsAsLender (lending w) in
  let w := set_lending (P2PLending.set_userLoanAgreementIdsAsLender
                          (<[lender := (asLender !!! lender) ++ [agreementId]]> asLender)
                          (lending w)) w in
  let asBorrower := P2PLending.userLoanAgreementIdsAsBorrower (lending w) in
  set_lending (P2PLending.set_userLoanAgreementIdsAsBorrower
                 (<[borrower := (asBorrower !!! borrower) ++ [agreementId]]> asBorrower)
                 (lending w)) w.

Definition acceptLoanOffer (sender : address) (now : Z) (offerId_ : bytes32)
    (borrowerCollateralAmount_ : Z) (borrowerCollateralToken_ : address) (w : World)
  : result (bytes32 * World) :=
  onlyVerifiedUser_P2PL sender w;;
  require (bool_decide (LoanOffer.lender (getOffer offerId_ w) ≠ 0))
    "P2PL: Offer does not exist";;
  let offer := getOffer offerId_ w in
  require (LoanOffer.isActive offer) "P2PL: Offer not active";;
  require (negb (LoanOffer.isFulfilled offer)) "P2PL: Offer already fulfilled";;
  require (bool_decide (LoanOffer.lender offer ≠ sender)) "P2PL: Cannot accept own offer";;
  w ← (if bool_decide (LoanOffer.requiredCollateralAmount offer > 0) then
         require (bool_decide (borrowerCollateralToken_ = LoanOffer.collateralToken offer))
           "P2PL: Collateral token mismatch";;
         require (bool_decide (borrowerCollateralAmount_ = LoanOffer.requiredCollateralAmount offer))
           "P2PL: Collateral amount mismatch";;
         require (bool_decide (borrowerCollateralAmount_
                               ≤ ERC20.balanceOf borrowerCollateralToken_ sender (tokens w)))
           "P2PL: Insufficient collateral balance";;
         token_transferFrom borrowerCollateralToken_ (lendingAddress w) sender
           (lendingAddress w) borrowerCollateralAmount_ w
       else
         require (bool_decide (borrowerCollateralAmount_ = 0))
           "P2PL: Collateral not required by offer";;
         require (bool_decide (borrowerCollateralToken_ = 0))
           "P2PL: Collateral not required by offer";;
         Ok w);
  w ← token_transfer (LoanOffer.token offer) (lendingAddress w) sender (LoanOffer.amount offer) w;
  let w := writeOffer offerId_
             (LoanOffer.set_isActive false (LoanOffer.set_isFulfilled true offer)) w in
  let startTime := now in
  dueDate ← checked_add startTime (LoanOffer.durationSeconds offer);
  let agreementId := keccak3 (LoanOffer.id offer) sender startTime in
  let w := writeAgreement agreementId
             (LoanAgreement.mk agreementId offerId_ zero32 (LoanOffer.lender offer) sender
                (LoanOffer.amount offer) (LoanOffer.token offer) (LoanOffer.interestRateBPS offer)
                (LoanOffer.durationSeconds offer) borrowerCollateralAmount_
                borrowerCollateralToken_ startTime dueDate 0 LoanStatus.Active
                PaymentModificationType.DueDateExtension 0 false) w in
  let w := pushAgreementIds agreementId (LoanOffer.lender offer) sender w in
  Ok (agreementId,
      emit (LoanAgreementCreated agreementId (LoanOffer.lender offer) sender
              (LoanOffer.amount offer) (LoanOffer.token offer) (LoanOffer.interestRateBPS offer)
              (LoanOffer.durationSeconds offer) startTime dueDate borrowerCollateralAmount_
              borrowerCollateralToken_) w).

Definition fundLoanRequest (sender : address) (now : Z) (requestId_ : bytes32) (w : World)
  : result (bytes32 * World) :=
  onlyVerifiedUser_P2PL sender w;;
  require (bool_decide (LoanRequest.borrower (getRequest requestId_ w) ≠ 0))
    "P2PL: Request does not exist";;
  let request := getRequest requestId_ w in
  require (LoanRequest.isActive request) "P2PL: Request not active";;
  require (negb (LoanRequest.isFulfilled request)) "P2PL: Request already fulfilled";;
  require (bool_decide (LoanRequest.borrower request ≠ sender)) "P2PL: Cannot fund own request";;
  require (bool_decide (LoanRequest.amount request
                        ≤ ERC20.balanceOf (LoanRequest.token request) sender (tokens w)))
    "P2PL: Insufficient balance to fund";;
  w ← token_transferFrom (LoanRequest.token request) (lendingAddress w) sender
        (LoanRequest.borrower request) (LoanRequest.amount request) w;
  w ← (if bool_decide (LoanRequest.offeredCollateralAmount request > 0) then
         token_transferFrom (LoanRequest.collateralToken request) (lendingAddress w)
           (LoanRequest.borrower request) (lendingAddress w)
           (LoanRequest.offeredCollateralAmount request) w
       else Ok w);
  let w := writeRequest requestId_
             (LoanRequest.set_isFulfilled true (LoanRequest.set_isActive false request)) w in
  let startTime := now in
  dueDate ← checked_add startTime (LoanRequest.proposedDurationSeconds request);
  let agreementId := keccak3 (LoanRequest.id request) sender startTime in
  let w := writeAgreement agreementId
             (LoanAgreement.mk agreementId zero32 requestId_ sender (LoanRequest.borrower request)
                (LoanRequest.amount request) (LoanRequest.token request)
                (LoanRequest.proposedInterestRateBPS request)
                (LoanRequest.proposedDurationSeconds request)
                (LoanRequest.offeredCollateralAmount request)
                (LoanRequest.collateralToken request) startTime dueDate 0 LoanStatus.Active
                PaymentModificationType.DueDateExtension 0 false) w in
  let w := pushAgreementIds agreementId sender (LoanRequest.borrower request) w in
  Ok (agreementId,
      emit (LoanAgreementCreated agreementId sender (LoanRequest.borrower request)
              (LoanRequest.amount request) (LoanRequest.token request)
              (LoanRequest.proposedInterestRateBPS request)
              (LoanRequest.proposedDurationSeconds request) startTime dueDate
              (LoanRequest.offeredCollateralAmount request)
              (LoanRequest.collateralToken request)) w).

Definition _calculateInterest (principalAmount interestRateBps : Z) : result Z :=
  if bool_decide (principalAmount = 0) || bool_decide (interestRateBps = 0) then Ok 0
  else product ← checked_mul principalAmount interestRateBps; Ok (product ÷ BASIS_POINTS).

Definition _calculateTotalDue (agreement : LoanAgreement.t) : result Z :=
  interest ← _calculateInterest (LoanAgreement.principalAmount agreement)
               (LoanAgreement.interestRateBPS agreement);
  checked_add (LoanAgreement.principalAmount agreement) interest.

(** The status chosen by a repayment outside a partial-payment agreement,
    and after the agreed partial amount has been paid. *)
Definition statusAfterPayment (amountPaid totalDue now dueDate : Z) : LoanStatus.t :=
  if bool_decide (totalDue ≤ amountPaid) then LoanStatus.Repaid
  else if bool_decide (now > dueDate) then LoanStatus.Overdue
  else LoanStatus.Active.

(** The outcome computed in the [newStatus == Repaid] branch of [repayLoan]
    from the timestamp, the due date at that moment and the modification type
    and approval flag read before the payment was applied. *)
Definition settlementOutcome (now originalDueDate : Z)
    (originalModificationTypeBeforeRepay : PaymentModificationType.t)
    (wasModificationApprovedBeforeRepay : bool) : PaymentOutcomeType.t :=
  if bool_decide (now ≤ originalDueDate) then
    if wasModificationApprovedBeforeRepay then
      if bool_decide (originalModificationTypeBeforeRepay
                      = PaymentModificationType.DueDateExtension)
      then PaymentOutcomeType.OnTimeExtended
      else if bool_decide (originalModificationTypeBeforeRepay
                           = PaymentModificationType.PartialPaymentAgreement)
      then PaymentOutcomeType.PartialAgreementMetAndRepaid
      else PaymentOutcomeType.None
    else PaymentOutcomeType.OnTimeOriginal
  else
    if wasModificationApprovedBeforeRepay
       && bool_decide (originalModificationTypeBeforeRepay
                       = PaymentModificationType.DueDateExtension)
    then PaymentOutcomeType.LateExtended
    else PaymentOutcomeType.LateGraceOriginal.

Definition isRepayable (s : LoanStatus.t) : bool :=
  bool_decide (s = LoanStatus.Active) || bool_decide (s = LoanStatus.Overdue)
  || bool_decide (s = LoanStatus.Active_PartialPaymentAgreed).

Definition repayLoan (sender : address) (now : Z) (agreementId : bytes32) (paymentAmount : Z)
    (w : World) : result World :=
  let agreement := getAgreement agreementId w in
  require (bool_decide (LoanAgreement.borrower agreement = sender)) "P2PL: Not borrower";;
  require (isRepayable (LoanAgreement.status agreement)) "P2PL: Loan not in repayable state";;
  require (bool_decide (paymentAmount > 0)) "P2PL: Payment amount must be > 0";;
  totalDue ← _calculateTotalDue agreement;
  remainingDueBeforePayment ← checked_sub totalDue (LoanAgreement.amountPaid agreement);
  require (bool_decide (paymentAmount ≤ remainingDueBeforePayment))
    "P2PL: Payment exceeds remaining due";;
  let originalModificationTypeBeforeRepay := LoanAgreement.requestedModificationType agreement in
  let wasModificationApprovedBeforeRepay := LoanAgreement.modificationApprovedByLender agreement in
  let agreedPartialPaymentValue := LoanAgreement.requestedModificationValue agreement in
  w ← token_transferFrom (LoanAgreement.loanToken agreement) (lendingAddress w) sender
        (LoanAgreement.lender agreement) paymentAmount w;
  paid ← checked_add (LoanAgreement.amountPaid agreement) paymentAmount;
  let agreement := LoanAgreement.set_amountPaid paid agreement in
  let '(agreement, newStatus) :=
    if bool_decide (LoanAgreement.status agreement = LoanStatus.Active_PartialPaymentAgreed) then
      if bool_decide (paymentAmount = agreedPartialPaymentValue) then
        (LoanAgreement.set_requestedModificationValue 0
           (LoanAgreement.set_modificationApprovedByLender false agreement),
         statusAfterPayment paid totalDue now (LoanAgreement.dueDate agreement))
      else (agreement, LoanStatus.Active_PartialPaymentAgreed)
    else (agreement, statusAfterPayment paid totalDue now (LoanAgreement.dueDate agreement)) in
  let newRemainingBalance := if bool_decide (totalDue ≤ paid) then 0 else totalDue - paid in
  let w := writeAgreement agreementId agreement w in
  let w := emit (LoanRepayment agreementId sender paymentAmount paid newRemainingBalance
                   newStatus) w in
  w ← (if bool_decide (newStatus = LoanStatus.Repaid) then
         let w := emit (LoanAgreementRepaid agreementId) w in
         let originalDueDate := LoanAgreement.dueDate agreement in
         let outcomeType := settlementOutcome now originalDueDate
                              originalModificationTypeBeforeRepay
                              wasModificationApprovedBeforeRepay in
         w ← (if bool_decide (LoanAgreement.collateralAmount agreement > 0)
                 && bool_decide (LoanAgreement.collateralToken agreement ≠ 0)
              then token_transfer (LoanAgreement.collateralToken agreement) (lendingAddress w)
                     (LoanAgreement.borrower agreement) (LoanAgreement.collateralAmount agreement) w
              else Ok w);
         if bool_decide (P2PLending.reputationContract (lending w) ≠ 0)
         then recordLoanPaymentOutcome (lendingAddress w) agreementId
                (LoanAgreement.borrower agreement) (LoanAgreement.lender agreement)
                (LoanAgreement.principalAmount agreement) outcomeType
                originalModificationTypeBeforeRepay wasModificationApprovedBeforeRepay w
         else Ok w
       else Ok w);
  Ok (writeAgreement agreementId
        (LoanAgreement.set_status newStatus (getAgreement agreementId w)) w).

(** The body of the loop of [handleP2PDefault] over the snapshot returned by
    [getActiveVouchesForBorrower]. *)
Definition tenPercentSlashBasis : Z := 1000.

Definition slashAmountFor (stakedAmount : Z) : result Z :=
  product ← checked_mul stakedAmount tenPercentSlashBasis;
  let slashAmount := product ÷ BASIS_POINTS in
  let slashAmount :=
    if bool_decide (slashAmount = 0) && bool_decide (stakedAmount > 0) then 1 else slashAmount in
  let slashAmount :=
    if bool_decide (slashAmount > stakedAmount) then stakedAmount else slashAmount in
  Ok slashAmount.

Fixpoint slashVouches (activeVouches : list Vouch.t) (borrower lender : address) (w : World)
  : result World :=
  match activeVouches with
  | [] => Ok w
  | currentVouch :: rest =>
      w ← (if Vouch.isActive currentVouch && bool_decide (Vouch.stakedAmount currentVouch > 0)
           then
             slashAmount ← slashAmountFor (Vouch.stakedAmount currentVouch);
             if bool_decide (slashAmount > 0)
             then slashVouchAndReputation (lendingAddress w) (Vouch.voucher currentVouch)
                    borrower slashAmount lender w
             else Ok w
           else Ok w);
      slashVouches rest borrower lender w
  end.

Definition handleP2PDefault (sender : address) (now : Z) (agreementId : bytes32) (w : World)
  : result World :=
  let agreement := getAgreement agreementId w in
  require (bool_decide (LoanAgreement.lender agreement ≠ 0)) "P2PL: Agreement does not exist";;
  require (bool_decide (LoanAgreement.status agreement = LoanStatus.Active))
    "P2PL: Loan not active for default";;
  require (bool_decide (now > LoanAgreement.dueDate agreement)) "P2PL: Loan not yet overdue";;
  totalDue ← _calculateTotalDue agreement;
  require (bool_decide (LoanAgreement.amountPaid agreement < totalDue))
    "P2PL: Loan already fully paid, cannot default";;
  let agreement := LoanAgreement.set_status LoanStatus.Defaulted agreement in
  let w := writeAgreement agreementId agreement w in
  let w := emit (LoanAgreementDefaulted agreementId) w in
  w ← (if bool_decide (LoanAgreement.collateralAmount agreement > 0)
          && bool_decide (LoanAgreement.collateralToken agreement ≠ 0)
       then token_transfer (LoanAgreement.collateralToken agreement) (lendingAddress w)
              (LoanAgreement.lender agreement) (LoanAgreement.collateralAmount agreement) w
       else Ok w);
  if bool_decide (P2PLending.reputationContract (lending w) ≠ 0) then
    w ← updateReputationOnLoanDefault (lendingAddress w) (LoanAgreement.borrower agreement)
          (LoanAgreement.lender agreement) (LoanAgreement.principalAmount agreement) [] w;
    let activeVouches := getActiveVouchesForBorrower (LoanAgreement.borrower agreement) w in
    slashVouches activeVouches (LoanAgreement.borrower agreement)
      (LoanAgreement.lender agreement) w
  else Ok w.

Definition requestPaymentModification (sender : address) (_agreementId : bytes32)
    (_modificationType : PaymentModificationType.t) (_value : Z) (w : World) : result World :=
  let agreement := getAgreement _agreementId w in
  require (bool_decide (LoanAgreement.borrower agreement = sender)) "P2PL: Not borrower";;
  require (bool_decide (LoanAgreement.status agreement = LoanStatus.Active)
           || bool_decide (LoanAgreement.status agreement = LoanStatus.Overdue))
    "P2PL: Loan not active/overdue";;
  require (bool_decide (_value > 0)) "P2PL: Modification value must be > 0";;
  (if bool_decide (_modificationType = PaymentModificationType.DueDateExtension)
   then require (bool_decide (_value > LoanAgreement.dueDate agreement))
          "P2PL: New due date must be later"
   else Ok ());;
  let agreement :=
    LoanAgreement.set_status LoanStatus.PendingModificationApproval
      (LoanAgreement.set_modificationApprovedByLender false
         (LoanAgreement.set_requestedModificationValue _value
            (LoanAgreement.set_requestedModificationType _modificationType agreement))) in
  Ok (emit (PaymentModificationRequested _agreementId sender _modificationType _value)
        (writeAgreement _agreementId agreement w)).

Definition statusByDueDate (now dueDate : Z) : LoanStatus.t :=
  if bool_decide (now < dueDate) then LoanStatus.Active else LoanStatus.Overdue.

Definition respondToPaymentModification (sender : address) (now : Z) (_agreementId : bytes32)
    (_approved : bool) (w : World) : result World :=
  let agreement := getAgreement _agreementId w in
  require (bool_decide (LoanAgreement.lender agreement = sender)) "P2PL: Not lender";;
  require (bool_decide (LoanAgreement.status agreement = LoanStatus.PendingModificationApproval))
    "P2PL: No pending modification";;
  let originalType := LoanAgreement.requestedModificationType agreement in
  let originalValue := LoanAgreement.requestedModificationValue agreement in
  let agreement :=
    if _approved then
      let agreement := LoanAgreement.set_modificationApprovedByLender true agreement in
      if bool_decide (originalType = PaymentModificationType.DueDateExtension) then
        let agreement := LoanAgreement.set_dueDate originalValue agreement in
        LoanAgreement.set_status (statusByDueDate now (LoanAgreement.dueDate agreement)) agreement
      else if bool_decide (originalType = PaymentModificationType.PartialPaymentAgreement) then
        LoanAgreement.set_status LoanStatus.Active_PartialPaymentAgreed agreement
      else agreement
    else
      let agreement := LoanAgreement.set_modificationApprovedByLender false agreement in
      LoanAgreement.set_status (statusByDueDate now (LoanAgreement.dueDate agreement)) agreement in
  Ok (emit (PaymentModificationResponded _agreementId sender _approved originalType originalValue)
        (writeAgreement _agreementId agreement w)).

(** ** Ownership (OpenZeppelin [Ownable], inherited by Reputation and P2PLending) *)

Definition transferOwnership_Reputation (sender newOwner : address) (w : World) : result World :=
  require (bool_decide (sender = Reputation.owner (reputation w))) "OwnableUnauthorizedAccount";;
  require (bool_decide (newOwner ≠ 0)) "OwnableInvalidOwner";;
  Ok (set_reputation (Reputation.set_owner newOwner (reputation w)) w).

Definition renounceOwnership_Reputation (sender : address) (w : World) : result World :=
  require (bool_decide (sender = Reputation.owner (reputation w))) "OwnableUnauthorizedAccount";;
  Ok (set_reputation (Reputation.set_owner 0 (reputation w)) w).

Definition transferOwnership_P2PL (sender newOwner : address) (w : World) : result World :=
  onlyOwner_P2PL sender w;;
  require (bool_decide (newOwner ≠ 0)) "OwnableInvalidOwner";;
  Ok (set_lending (P2PLending.set_owner newOwner (lending w)) w).

Definition renounceOwnership_P2PL (sender : address) (w : World) : result World :=
  onlyOwner_P2PL sender w;;
  Ok (set_lending (P2PLending.set_owner 0 (lending w)) w).

(** ** Deployment

    The constructors of the three contracts, as the deployment scripts run
    them: the registry first, then Reputation, then P2PLending wired to both.
    [reputationContract] is the address of the one Reputation instance of the
    world; a non-zero [reputationContract] is taken throughout to denote it. *)

Definition deploy (deployer reputationAddress_ lendingAddress_ platformWallet_
    reputationOAppAddress_ : address) (tokens_ : ERC20.t) : result World :=
  require (bool_decide (deployer ≠ 0)) "OwnableInvalidOwner";;
  require (bool_decide (reputationAddress_ ≠ 0)) "P2PL: Invalid Reputation contract address";;
  require (bool_decide (platformWallet_ ≠ 0)) "P2PL: Invalid platform wallet";;
  Ok (mkWorld reputationAddress_ lendingAddress_
        (UserRegistry.mk ∅ [] 0)
        (Reputation.mk deployer 0 ∅ ∅ ∅ ∅)
        (P2PLending.mk deployer reputationAddress_ reputationOAppAddress_ platformWallet_
           ∅ ∅ ∅ ∅ ∅ ∅ ∅)
        tokens_ []).

(** ** Transactions *)

Inductive Tx : Type :=
| RegisterUser (_name : string)
| UpdateProfile (_newName : string)
| SetP2PLendingContractAddress (_p2pLendingAddress : address)
| TransferOwnershipReputation (newOwner : address)
| RenounceOwnershipReputation
| RecordLoanPaymentOutcome (agreementId : bytes32) (borrower lender : address)
    (principalAmount : Z) (outcome : PaymentOutcomeType.t)
    (modificationTypeUsed : PaymentModificationType.t) (lenderApprovedRequest : bool)
| UpdateReputationOnLoanDefault (borrower lender : address) (loanAmount : Z)
    (vouchesForThisLoan : list bytes32)
| AddVouch (borrowerToVouchFor : address) (amountToStake : Z) (tokenAddress : address)
| RemoveVouch (borrowerVouchedFor : address)
| SlashVouchAndReputation (voucher defaultingBorrower : address) (amountToSlash : Z)
    (lenderToCompensate : address)
| SetReputationContractAddress (_newReputationContractAddress : address)
| SetReputationOAppAddress (newReputationOAppAddress : address)
| SetPythAddress (newPythAddress : address)
| TransferOwnershipP2PL (newOwner : address)
| RenounceOwnershipP2PL
| CreateLoanOffer (amount_ : Z) (token_ : address)
    (interestRateBPS_ durationSeconds_ requiredCollateralAmount_ : Z) (collateralToken_ : address)
| CreateLoanRequest (amount_ : Z) (token_ : address)
    (proposedInterestRateBPS_ proposedDurationSeconds_ offeredCollateralAmount_ : Z)
    (offeredCollateralToken_ : address)
| AcceptLoanOffer (offerId_ : bytes32) (borrowerCollateralAmount_ : Z)
    (borrowerCollateralToken_ : address)
| FundLoanRequest (requestId_ : bytes32)
| RepayLoan (agreementId : bytes32) (paymentAmount : Z)
| HandleP2PDefault (agreementId : bytes32)
| RequestPaymentModification (_agreementId : bytes32)
    (_modificationType : PaymentModificationType.t) (_value : Z)
| RespondToPaymentModification (_agreementId : bytes32) (_approved : bool)
| TokenApprove (token spender : address) (value : Z)
| TokenTransfer (token to : address) (value : Z)
| TokenTransferFrom (token from to : address) (value : Z).

(** The world left by a call that also returns an identifier. *)
Definition worldOf (r : result (bytes32 * World)) : result World :=
  match r with Ok (_, w) => Ok w | Revert m => Revert m end.

Definition execute (sender : address) (now : Z) (tx : Tx) (w : World) : result World :=
  match tx with
  | RegisterUser n => registerUser sender now n w
  | UpdateProfile n => updateProfile sender n w
  | SetP2PLendingContractAddress a => setP2PLendingContractAddress sender a w
  | TransferOwnershipReputation a => transferOwnership_Reputation sender a w
  | RenounceOwnershipReputation => renounceOwnership_Reputation sender w
  | RecordLoanPaymentOutcome i b l p o m a => recordLoanPaymentOutcome sender i b l p o m a w
  | UpdateReputationOnLoanDefault b l p v => updateReputationOnLoanDefault sender b l p v w
  | AddVouch b a t => addVouch sender b a t w
  | RemoveVouch b => removeVouch sender b w
  | SlashVouchAndReputation v b a l => slashVouchAndReputation sender v b a l w
  | SetReputationContractAddress a => setReputationContractAddress sender a w
  | SetReputationOAppAddress a => setReputationOAppAddress sender a w
  | SetPythAddress a => setPythAddress sender a w
  | TransferOwnershipP2PL a => transferOwnership_P2PL sender a w
  | RenounceOwnershipP2PL => renounceOwnership_P2PL sender w
  | CreateLoanOffer a t r d ca ct => worldOf (createLoanOffer sender now a t r d ca ct w)
  | CreateLoanRequest a t r d ca ct => worldOf (createLoanRequest sender now a t r d ca ct w)
  | AcceptLoanOffer i ca ct => worldOf (acceptLoanOffer sender now i ca ct w)
  | FundLoanRequest i => worldOf (fundLoanRequest sender now i w)
  | RepayLoan i p => repayLoan sender now i p w
  | HandleP2PDefault i => handleP2PDefault sender now i w
  | RequestPaymentModification i m v => requestPaymentModification sender i m v w
  | RespondToPaymentModification i a => respondToPaymentModification sender now i a w
  | TokenApprove t s v => l ← ERC20.approve t sender s v (tokens w); Ok (set_tokens l w)
  | TokenTransfer t to v => token_transfer t sender to v w
  | TokenTransferFrom t from to v => token_transferFrom t sender from to v w
  end.

(** The ABI decoder accepts only arguments that fit their types. *)
Definition uint256 (z : Z) : Prop := 0 ≤ z ≤ MAX_UINT256.
Definition uint16 (z : Z) : Prop := 0 ≤ z ≤ MAX_UINT16.

Definition well_typed (tx : Tx) : Prop :=
  match tx with
  | RecordLoanPaymentOutcome _ _ _ p _ _ _ => uint256 p
  | UpdateReputationOnLoanDefault _ _ p _ => uint256 p
  | AddVouch _ a _ => uint256 a
  | SlashVouchAndReputation _ _ a _ => uint256 a
  | CreateLoanOffer a _ r d ca _ => uint256 a ∧ uint16 r ∧ uint256 d ∧ uint256 ca
  | CreateLoanRequest a _ r d ca _ => uint256 a ∧ uint16 r ∧ uint256 d ∧ uint256 ca
  | AcceptLoanOffer _ ca _ => uint256 ca
  | RepayLoan _ p => uint256 p
  | RequestPaymentModification _ _ v => uint256 v
  | TokenApprove _ _ v => uint256 v
  | TokenTransfer _ _ v => uint256 v
  | TokenTransferFrom _ _ _ v => uint256 v
  | _ => True
  end.

(** The worlds the deployed system can be in: the one the constructors
    leave, over any token ledger, and those that a well-typed transaction
    leads to, committed or reverted. The tokens are contracts of their own, so
    between two transactions their ledger may change in any way (mints,
    transfers and approvals by anyone). *)
Inductive reachable : World → Prop :=
| reachable_deploy deployer ra la pw oapp tk w :
    deploy deployer ra la pw oapp tk = Ok w → reachable w
| reachable_step w sender now tx :
    reachable w → uint256 now → well_typed tx →
    reachable (commit w (execute sender now tx w))
| reachable_tokens w tk :
    reachable w → reachable (set_tokens tk w).

(** ** Scenarios

    A scenario is a list of transactions, each with its caller and block
    timestamp; [run] executes them in order and reverts as a whole when one
    of them reverts, so that a scenario that returns [Ok] is one in which
    every step succeeded. *)

Fixpoint run (txs : list (address * Z * Tx)) (w : World) : result World :=
  match txs with
  | [] => Ok w
  | (sender, now, tx) :: rest => w ← execute sender now tx w; run rest w
  end.

(** The same with the chain's behaviour on a revert: the step is skipped. *)
Fixpoint play (txs : list (address * Z * Tx)) (w : World) : World :=
  match txs with
  | [] => w
  | (sender, now, tx) :: rest => play rest (commit w (execute sender now tx w))
  end.

Module Scenario.

Definition deployer : address := 1.
Definition platform : address := 2.
Definition L : address := 100.          (* lender *)
Definition B : address := 200.          (* borrower *)
Definition V : address := 300.          (* voucher *)
Definition DAI : address := 500.
Definition REP : address := 900.        (* the Reputation contract *)
Definition P2PL : address := 901.       (* the P2PLending contract *)

Definition e18 : Z := 10 ^ 18.
Definition day : Z := 86400.
Definition t0 : Z := 1700000000.

(** Every party starts with 1000 DAI. *)
Definition funded : ERC20.t :=
  {| ERC20.balances :=
       <[(DAI, L) := 1000 * e18]> (<[(DAI, B) := 1000 * e18]> (<[(DAI, V) := 1000 * e18]> ∅));
     ERC20.allowances := ∅ |}.

(** Deployment, wiring of the Lending authority and registration. *)
Definition setup : list (address * Z * Tx) :=
  [ (deployer, t0, SetP2PLendingContractAddress P2PL);
    (L, t0, RegisterUser "lender");
    (B, t0, RegisterUser "borrower");
    (V, t0, RegisterUser "voucher") ].

(** The lender offers [amount] DAI at 1000 bps for [days] days without
    collateral and the borrower accepts, both at [t0]. *)
Definition offerId (amount days : Z) : bytes32 :=
  keccak7 L amount DAI 1000 (days * day) t0 0.
Definition agreementId (amount days : Z) : bytes32 :=
  keccak3 (offerId amount days) B t0.

Definition openLoan (amount days : Z) : list (address * Z * Tx) :=
  [ (L, t0, TokenApprove DAI P2PL amount);
    (L, t0, CreateLoanOffer amount DAI 1000 (days * day) 0 0);
    (B, t0, AcceptLoanOffer (offerId amount days) 0 0) ].

(** The world right after deployment. *)
Definition genesis : World :=
  mkWorld REP P2PL (UserRegistry.mk ∅ [] 0) (Reputation.mk deployer 0 ∅ ∅ ∅ ∅)
    (P2PLending.mk deployer REP 0 platform ∅ ∅ ∅ ∅ ∅ ∅ ∅) funded [].

(** A scenario run from deployment, every step of which must succeed, and
    the world it ends in. *)
Definition start (txs : list (address * Z * Tx)) : result World :=
  w ← deploy deployer REP P2PL platform 0 funded; run (setup ++ txs) w.

Definition world (txs : list (address * Z * Tx)) : World := play (setup ++ txs) genesis.

(** S1 up to the repayment: 100 DAI for 7 days, no modification ever
    requested; on day 6 the borrower approves the 110 DAI due. *)
Definition S1_prefix : list (address * Z * Tx) :=
  openLoan (100 * e18) 7 ++ [ (B, t0 + 6 * day, TokenApprove DAI P2PL (110 * e18)) ].

(** S3 up to the lender's answer: 70 DAI for 7 days; on day 6 the borrower asks
    to extend the due date to day 14. *)
Definition S3_prefix : list (address * Z * Tx) :=
  openLoan (70 * e18) 7 ++
  [ (B, t0 + 6 * day, RequestPaymentModification (agreementId (70 * e18) 7)
                        PaymentModificationType.DueDateExtension (t0 + 14 * day)) ].

(** S5 up to the settling repayment: 90 DAI for 10 days; a partial-payment
    agreement of 30 DAI is requested and approved on day 1, the 30 DAI are paid
    on day 2. *)
Definition S5_prefix : list (address * Z * Tx) :=
  openLoan (90 * e18) 10 ++
  [ (B, t0 + 1 * day, RequestPaymentModification (agreementId (90 * e18) 10)
                        PaymentModificationType.PartialPaymentAgreement (30 * e18));
    (L, t0 + 1 * day, RespondToPaymentModification (agreementId (90 * e18) 10) true);
    (B, t0 + 2 * day, TokenApprove DAI P2PL (99 * e18));
    (B, t0 + 2 * day, RepayLoan (agreementId (90 * e18) 10) (30 * e18)) ].

(** A loan of 100 DAI for 7 days on which a first repayment of 10 DAI arrives
    on day 8, after the due date: the agreement becomes Overdue. *)
Definition overdueLoan : list (address * Z * Tx) :=
  openLoan (100 * e18) 7 ++
  [ (B, t0 + 8 * day, TokenApprove DAI P2PL (10 * e18));
    (B, t0 + 8 * day, RepayLoan (agreementId (100 * e18) 7) (10 * e18)) ].

(** The voucher stakes [stake] for the borrower, withdraws the vouch and
    stakes the same amount again. *)
Definition revouch (stake : Z) : list (address * Z * Tx) :=
  [ (V, t0, TokenApprove DAI REP (2 * stake));
    (V, t0, AddVouch B stake DAI);
    (V, t0 + 1 * day, RemoveVouch B);
    (V, t0 + 2 * day, AddVouch B stake DAI) ].

(** A loan of 100 DAI for 7 days whose borrower holds a vouch of [stake]
    that was withdrawn and placed again. *)
Definition revouchedLoan (stake : Z) : list (address * Z * Tx) :=
  openLoan (100 * e18) 7 ++ revouch stake.

End Scenario.

(** * Specification-level definitions *)

(** The amount due of the specification:
    [principal + principal * rate_bps / 10_000], division truncating. *)
Definition totalDueOf (a : LoanAgreement.t) : Z :=
  LoanAgreement.principalAmount a
  + LoanAgreement.principalAmount a * LoanAgreement.interestRateBPS a ÷ 10000.

(** The agreement a successful [repayLoan] stores. *)
Definition agreementAfterRepay (now paymentAmount totalDue : Z) (a : LoanAgreement.t)
  : LoanAgreement.t :=
  let paid := LoanAgreement.amountPaid a + paymentAmount in
  let a1 := LoanAgreement.set_amountPaid paid a in
  if bool_decide (LoanAgreement.status a = LoanStatus.Active_PartialPaymentAgreed) then
    if bool_decide (paymentAmount = LoanAgreement.requestedModificationValue a) then
      LoanAgreement.set_status (statusAfterPayment paid totalDue now (LoanAgreement.dueDate a))
        (LoanAgreement.set_requestedModificationValue 0
           (LoanAgreement.set_modificationApprovedByLender false a1))
    else LoanAgreement.set_status LoanStatus.Active_PartialPaymentAgreed a1
  else LoanAgreement.set_status (statusAfterPayment paid totalDue now (LoanAgreement.dueDate a)) a1.

(** The agreement a successful [respondToPaymentModification] stores. *)
Definition agreementAfterResponse (now : Z) (approved : bool) (a : LoanAgreement.t)
  : LoanAgreement.t :=
  if approved then
    let a1 := LoanAgreement.set_modificationApprovedByLender true a in
    match LoanAgreement.requestedModificationType a with
    | PaymentModificationType.DueDateExtension =>
        LoanAgreement.set_status
          (statusByDueDate now (LoanAgreement.requestedModificationValue a))
          (LoanAgreement.set_dueDate (LoanAgreement.requestedModificationValue a) a1)
    | PaymentModificationType.PartialPaymentAgreement =>
        LoanAgreement.set_status LoanStatus.Active_PartialPaymentAgreed a1
    | PaymentModificationType.None => a1
    end
  else
    LoanAgreement.set_status (statusByDueDate now (LoanAgreement.dueDate a))
      (LoanAgreement.set_modificationApprovedByLender false a).

(** The agreement a successful [requestPaymentModification] stores. *)
Definition agreementAfterRequest (m : PaymentModificationType.t) (v : Z) (a : LoanAgreement.t)
  : LoanAgreement.t :=
  LoanAgreement.set_status LoanStatus.PendingModificationApproval
    (LoanAgreement.set_modificationApprovedByLender false
       (LoanAgreement.set_requestedModificationValue v
          (LoanAgreement.set_requestedModificationType m a))).

(** What holds of every stored agreement: the terms are non-negative, the
    amount paid stays within the amount due, a pending due-date extension
    proposes a later date, and an approval without a modification type is only
    found on an agreement that is still pending. *)
Definition agreement_ok (a : LoanAgreement.t) : Prop :=
  0 ≤ LoanAgreement.principalAmount a
  ∧ 0 ≤ LoanAgreement.interestRateBPS a
  ∧ 0 ≤ LoanAgreement.amountPaid a ≤ totalDueOf a
  ∧ (LoanAgreement.status a = LoanStatus.PendingModificationApproval →
     LoanAgreement.requestedModificationType a = PaymentModificationType.DueDateExtension →
     LoanAgreement.dueDate a < LoanAgreement.requestedModificationValue a)
  ∧ (LoanAgreement.modificationApprovedByLender a = true →
     LoanAgreement.requestedModificationType a = PaymentModificationType.None →
     LoanAgreement.status a = LoanStatus.PendingModificationApproval).

Definition lending_ok (l : P2PLending.t) : Prop :=
  P2PLending.reputationContract l ≠ 0
  ∧ (∀ i, 0 ≤ LoanOffer.amount (P2PLending.loanOffers l !!! i)
          ∧ 0 ≤ LoanOffer.interestRateBPS (P2PLending.loanOffers l !!! i))
  ∧ (∀ i, 0 ≤ LoanRequest.amount (P2PLending.loanRequests l !!! i)
          ∧ 0 ≤ LoanRequest.proposedInterestRateBPS (P2PLending.loanRequests l !!! i))
  ∧ (∀ i, agreement_ok (P2PLending.loanAgreements l !!! i)).

(** [w'] differs from [w] in the Lending storage at most by the agreement
    stored under [i], which is now [a]. *)
Definition agreement_written (i : bytes32) (a : LoanAgreement.t) (w w' : World) : Prop :=
  userRegistry w' = userRegistry w
  ∧ reputationAddress w' = reputationAddress w ∧ lendingAddress w' = lendingAddress w
  ∧ lending w' = P2PLending.set_loanAgreements
                   (<[i := a]> (P2PLending.loanAgreements (lending w))) (lending w).

(** [frame w w'] holds when [w'] differs from [w] at most in the Reputation
    storage, the token ledger and the event log: it is what every function of
    Reputation and every token call guarantees. *)

Definition frame (w w' : World) : Prop :=
  userRegistry w' = userRegistry w ∧ lending w' = lending w
  ∧ reputationAddress w' = reputationAddress w ∧ lendingAddress w' = lendingAddress w.


(** The changes a successful transaction can make to one stored agreement:
    the five transitions of the state machine of an agreement. *)
Inductive agreement_step (now : Z) (a : LoanAgreement.t) : Tx → LoanAgreement.t → Prop :=
| step_accept i o l b p t rate d ca ct due :
    0 ≤ p → 0 ≤ rate →
    agreement_step now a (AcceptLoanOffer o ca ct)
      (LoanAgreement.mk i o zero32 l b p t rate d ca ct now due 0 LoanStatus.Active
         PaymentModificationType.DueDateExtension 0 false)
| step_fund i r l b p t rate d ca ct due :
    0 ≤ p → 0 ≤ rate →
    agreement_step now a (FundLoanRequest r)
      (LoanAgreement.mk i zero32 r l b p t rate d ca ct now due 0 LoanStatus.Active
         PaymentModificationType.DueDateExtension 0 false)
| step_repay i p :
    isRepayable (LoanAgreement.status a) = true →
    0 < p → LoanAgreement.amountPaid a + p ≤ totalDueOf a →
    agreement_step now a (RepayLoan i p) (agreementAfterRepay now p (totalDueOf a) a)
| step_default i :
    LoanAgreement.status a = LoanStatus.Active →
    LoanAgreement.dueDate a < now → LoanAgreement.amountPaid a < totalDueOf a →
    agreement_step now a (HandleP2PDefault i) (LoanAgreement.set_status LoanStatus.Defaulted a)
| step_request i m v :
    LoanAgreement.status a = LoanStatus.Active ∨ LoanAgreement.status a = LoanStatus.Overdue →
    0 < v → (m = PaymentModificationType.DueDateExtension → LoanAgreement.dueDate a < v) →
    agreement_step now a (RequestPaymentModification i m v) (agreementAfterRequest m v a)
| step_respond i approved :
    LoanAgreement.status a = LoanStatus.PendingModificationApproval →
    agreement_step now a (RespondToPaymentModification i approved)
      (agreementAfterResponse now approved a).

(** The classifier of the specification: the first matching rule. *)
Definition firstMatchOutcome (now due_date : Z)
    (modification_type_before : PaymentModificationType.t) (lender_approved_before : bool)
  : PaymentOutcomeType.t :=
  if bool_decide (now ≤ due_date) && lender_approved_before
     && bool_decide (modification_type_before = PaymentModificationType.DueDateExtension)
  then PaymentOutcomeType.OnTimeExtended
  else if bool_decide (now ≤ due_date) && lender_approved_before
          && bool_decide (modification_type_before
                          = PaymentModificationType.PartialPaymentAgreement)
  then PaymentOutcomeType.PartialAgreementMetAndRepaid
  else if bool_decide (now ≤ due_date) then PaymentOutcomeType.OnTimeOriginal
  else if bool_decide (now > due_date) && lender_approved_before
          && bool_decide (modification_type_before = PaymentModificationType.DueDateExtension)
  then PaymentOutcomeType.LateExtended
  else PaymentOutcomeType.LateGraceOriginal.

(** The error kinds of the specification that the registry can raise, and
    the revert reasons of [UserRegistry.sol] they stand for. *)
Inductive RegistryError : Type := AlreadyRegistered | NameInvalid | NotRegistered.

Definition registryError (reason : string) : option RegistryError :=
  if bool_decide (reason = "UserRegistry: Address already registered") then Some AlreadyRegistered
  else if bool_decide (reason = "UserRegistry: Name cannot be empty")
          || bool_decide (reason = "UserRegistry: Name too long") then Some NameInvalid
  else if bool_decide (reason = "UserRegistry: User not registered") then Some NotRegistered
  else None.

Definition failsWith (r : result World) (e : RegistryError) : Prop :=
  ∃ reason, r = Revert reason ∧ registryError reason = Some e.


(** Shorthands used by the scenario theorems. *)
Definition scoreOf (user : address) (w : World) : Z :=
  ReputationProfile.currentReputationScore (getReputationProfile user w).

Definition pairOf (v : Vouch.t) : address * address := (Vouch.voucher v, Vouch.borrower v).


(** * Further definitions

    The view functions of [P2PLending.sol], the deployment script, and the
    invariants and bookkeeping that the properties of the last part are
    stated with. *)

(** What holds of the registry: the counter is the length of the list, and
    the list holds each registered address once and no other. *)
Definition registry_ok (r : UserRegistry.t) : Prop :=
  UserRegistry.totalUsers r = Z.of_nat (length (UserRegistry.registeredUsers r))
  ∧ NoDup (UserRegistry.registeredUsers r)
  ∧ ∀ u, u ∈ UserRegistry.registeredUsers r
         ↔ UserProfile.isRegistered (UserRegistry.userProfiles r !!! u) = true.

(** The change a movement of [v] from [from] to [to] in token [t] makes to the
    balance of [holder] in token [t']. *)
Definition moved (t from to : address) (v : Z) (t' holder : address) : Z :=
  (if bool_decide ((t', holder) = (t, to)) then v else 0)
  - (if bool_decide ((t', holder) = (t, from)) then v else 0).

(** The points table of [recordLoanPaymentOutcome]: what each outcome is worth
    to the borrower and to the lender, and what answering a modification
    request adds to the lender. *)
Definition borrowerPoints (outcome : PaymentOutcomeType.t) : Z :=
  match outcome with
  | PaymentOutcomeType.OnTimeOriginal => REPUTATION_POINTS_REPAID_ON_TIME_ORIGINAL
  | PaymentOutcomeType.LateGraceOriginal => REPUTATION_POINTS_REPAID_LATE_GRACE
  | PaymentOutcomeType.OnTimeExtended => REPUTATION_POINTS_REPAID_ON_TIME_AFTER_EXTENSION
  | PaymentOutcomeType.LateExtended => REPUTATION_POINTS_REPAID_LATE_AFTER_EXTENSION
  | PaymentOutcomeType.PartialAgreementMetAndRepaid =>
      REPUTATION_POINTS_REPAID_WITH_PARTIAL_AGREEMENT_MET
  | _ => 0
  end.

Definition lenderPoints (outcome : PaymentOutcomeType.t)
    (modificationTypeUsed : PaymentModificationType.t) (lenderApprovedRequest : bool) : Z :=
  (match outcome with
   | PaymentOutcomeType.OnTimeOriginal => REPUTATION_POINTS_LENT_SUCCESSFULLY_ON_TIME_ORIGINAL
   | PaymentOutcomeType.LateGraceOriginal | PaymentOutcomeType.OnTimeExtended
   | PaymentOutcomeType.LateExtended | PaymentOutcomeType.PartialAgreementMetAndRepaid =>
       REPUTATION_POINTS_LENT_SUCCESSFULLY_AFTER_MODIFICATION
   | _ => 0
   end)
  + (if lenderApprovedRequest then
       match modificationTypeUsed with
       | PaymentModificationType.DueDateExtension => REPUTATION_POINTS_LENDER_APPROVED_EXTENSION
       | PaymentModificationType.PartialPaymentAgreement =>
           REPUTATION_POINTS_LENDER_APPROVED_PARTIAL_AGREEMENT
       | PaymentModificationType.None => 0
       end
     else 0).

(** What an outcome adds to [loansRepaidOnTime] and to [loansRepaidLateGrace]. *)
Definition countsOnTime (outcome : PaymentOutcomeType.t) : Z :=
  match outcome with
  | PaymentOutcomeType.OnTimeOriginal | PaymentOutcomeType.OnTimeExtended
  | PaymentOutcomeType.PartialAgreementMetAndRepaid => 1
  | _ => 0
  end.

Definition countsLate (outcome : PaymentOutcomeType.t) : Z :=
  match outcome with
  | PaymentOutcomeType.LateGraceOriginal | PaymentOutcomeType.LateExtended => 1
  | _ => 0
  end.

(** [w'] has the vouches, the configuration and the token ledger of [w]. *)
Definition keeps_vouches (w w' : World) : Prop :=
  Reputation.activeVouches (reputation w') = Reputation.activeVouches (reputation w)
  ∧ Reputation.userVouchesGiven (reputation w') = Reputation.userVouchesGiven (reputation w)
  ∧ Reputation.userVouchesReceived (reputation w') = Reputation.userVouchesReceived (reputation w)
  ∧ Reputation.owner (reputation w') = Reputation.owner (reputation w)
  ∧ Reputation.p2pLendingContractAddress (reputation w')
    = Reputation.p2pLendingContractAddress (reputation w)
  ∧ tokens w' = tokens w.

(** The profiles of [b] and [l] in [w'] are [pb] and [pl], and [w'] differs
    from [w] in no other profile, vouch, configuration or balance. *)
Definition profiles_at (w : World) (b l : address) (w' : World)
    (pb pl : ReputationProfile.t) : Prop :=
  getReputationProfile b w' = pb ∧ getReputationProfile l w' = pl
  ∧ (∀ u, u ≠ b → u ≠ l → getReputationProfile u w' = getReputationProfile u w)
  ∧ keeps_vouches w w'.

(** The view functions of [P2PLending.sol]. *)
Definition getLoanOfferDetails (offerId : bytes32) (w : World) : result LoanOffer.t :=
  require (bool_decide (LoanOffer.lender (getOffer offerId w) ≠ 0)) "P2PL: Offer does not exist";;
  Ok (getOffer offerId w).

Definition getLoanRequestDetails (requestId : bytes32) (w : World) : result LoanRequest.t :=
  require (bool_decide (LoanRequest.borrower (getRequest requestId w) ≠ 0))
    "P2PL: Request does not exist";;
  Ok (getRequest requestId w).

Definition getLoanAgreementDetails (agreementId : bytes32) (w : World)
  : result LoanAgreement.t :=
  require (bool_decide (LoanAgreement.borrower (getAgreement agreementId w) ≠ 0))
    "P2PL: Agreement does not exist";;
  Ok (getAgreement agreementId w).

Definition getUserLoanOfferIds (user : address) (w : World) : list bytes32 :=
  P2PLending.userLoanOfferIds (lending w) !!! user.

Definition getUserLoanRequestIds (user : address) (w : World) : list bytes32 :=
  P2PLending.userLoanRequestIds (lending w) !!! user.

Definition getUserLoanAgreementIdsAsLender (user : address) (w : World) : list bytes32 :=
  P2PLending.userLoanAgreementIdsAsLender (lending w) !!! user.

Definition getUserLoanAgreementIdsAsBorrower (user : address) (w : World) : list bytes32 :=
  P2PLending.userLoanAgreementIdsAsBorrower (lending w) !!! user.

(** The configuration of the Lending contract. *)
Definition lendingConfig (l : P2PLending.t) : address * address * address * address :=
  (P2PLending.owner l, P2PLending.reputationContract l, P2PLending.reputationOApp l,
   P2PLending.platformWallet l).

(** What holds of a stored offer: it is stored under its own identifier, was
    made by a registered lender, and is either open or consumed. *)
Definition offer_ok (reg : address → Prop) (l : P2PLending.t) (i : bytes32) (o : LoanOffer.t)
  : Prop :=
  LoanOffer.id o = i ∧ LoanOffer.lender o ≠ 0 ∧ reg (LoanOffer.lender o)
  ∧ 0 < LoanOffer.amount o ∧ LoanOffer.token o ≠ 0 ∧ 0 < LoanOffer.durationSeconds o
  ∧ LoanOffer.isFulfilled o = negb (LoanOffer.isActive o)
  ∧ ∃ k, (P2PLending.userLoanOfferIds l !!! LoanOffer.lender o) !! k = Some i.

(** The same of a stored request; its borrower may be any registered caller. *)
Definition request_ok (reg : address → Prop) (l : P2PLending.t) (i : bytes32)
    (r : LoanRequest.t) : Prop :=
  LoanRequest.id r = i ∧ reg (LoanRequest.borrower r)
  ∧ 0 < LoanRequest.amount r ∧ LoanRequest.token r ≠ 0
  ∧ 0 < LoanRequest.proposedDurationSeconds r
  ∧ LoanRequest.isFulfilled r = negb (LoanRequest.isActive r)
  ∧ ∃ k, (P2PLending.userLoanRequestIds l !!! LoanRequest.borrower r) !! k = Some i.

(** What holds of an existing agreement: two distinct registered parties, a
    positive principal, a due date no earlier than the agreed term, and a
    status that agrees with the amount paid. *)
Definition parties_ok (reg : address → Prop) (i : bytes32) (a : LoanAgreement.t) : Prop :=
  LoanAgreement.id a = i
  ∧ LoanAgreement.lender a ≠ 0 ∧ LoanAgreement.borrower a ≠ 0
  ∧ LoanAgreement.lender a ≠ LoanAgreement.borrower a
  ∧ reg (LoanAgreement.lender a) ∧ reg (LoanAgreement.borrower a)
  ∧ 0 < LoanAgreement.principalAmount a ∧ LoanAgreement.loanToken a ≠ 0
  ∧ 0 < LoanAgreement.durationSeconds a
  ∧ LoanAgreement.startTime a + LoanAgreement.durationSeconds a ≤ LoanAgreement.dueDate a
  ∧ LoanAgreement.status a ≠ LoanStatus.Cancelled
  ∧ (LoanAgreement.status a = LoanStatus.Repaid → LoanAgreement.amountPaid a = totalDueOf a)
  ∧ (LoanAgreement.status a = LoanStatus.Defaulted → LoanAgreement.amountPaid a < totalDueOf a).

(** What holds of the Lending storage, given the set [reg] of registered
    addresses: the [k]-th identifier in a user's list is a hash over that user
    and [k] and names an offer (a request) of that user, every stored offer
    and request is well formed and listed, and every agreement with a
    borrower is well formed. *)
Definition book_ok (reg : address → Prop) (l : P2PLending.t) : Prop :=
  (∀ u k i, (P2PLending.userLoanOfferIds l !!! u) !! k = Some i →
     (∃ a t r d now, i = keccak7 u a t r d now (Z.of_nat k))
     ∧ ∃ o, P2PLending.loanOffers l !! i = Some o ∧ LoanOffer.lender o = u)
  ∧ (∀ i o, P2PLending.loanOffers l !! i = Some o → offer_ok reg l i o)
  ∧ (∀ u k i, (P2PLending.userLoanRequestIds l !!! u) !! k = Some i →
       (∃ a t r d now, i = keccak7 u a t r d now (Z.of_nat k))
       ∧ ∃ r, P2PLending.loanRequests l !! i = Some r ∧ LoanRequest.borrower r = u)
  ∧ (∀ i r, P2PLending.loanRequests l !! i = Some r → request_ok reg l i r)
  ∧ (∀ i, LoanAgreement.borrower (P2PLending.loanAgreements l !!! i) ≠ 0 →
          parties_ok reg i (P2PLending.loanAgreements l !!! i)).

(** [l'] holds the offers, requests, agreements and identifier lists of [l]. *)
Definition same_book (l l' : P2PLending.t) : Prop :=
  P2PLending.loanOffers l' = P2PLending.loanOffers l
  ∧ P2PLending.userLoanOfferIds l' = P2PLending.userLoanOfferIds l
  ∧ P2PLending.loanRequests l' = P2PLending.loanRequests l
  ∧ P2PLending.userLoanRequestIds l' = P2PLending.userLoanRequestIds l
  ∧ P2PLending.loanAgreements l' = P2PLending.loanAgreements l
  ∧ P2PLending.userLoanAgreementIdsAsLender l' = P2PLending.userLoanAgreementIdsAsLender l
  ∧ P2PLending.userLoanAgreementIdsAsBorrower l' = P2PLending.userLoanAgreementIdsAsBorrower l.

(** The parties and the terms of an agreement: everything but the due date,
    the amount paid, the status and the modification request. *)
Definition termsOf (a : LoanAgreement.t)
  : bytes32 * bytes32 * bytes32 * address * address * Z * address * Z * Z * Z * address * Z :=
  (LoanAgreement.id a, LoanAgreement.originalOfferId a, LoanAgreement.originalRequestId a,
   LoanAgreement.lender a, LoanAgreement.borrower a, LoanAgreement.principalAmount a,
   LoanAgreement.loanToken a, LoanAgreement.interestRateBPS a, LoanAgreement.durationSeconds a,
   LoanAgreement.collateralAmount a, LoanAgreement.collateralToken a,
   LoanAgreement.startTime a).

(** What [DeployFlow.run] leaves on the chain: the three constructors, with
    the deployer as platform wallet and no cross-chain application, and then
    the deployer's call that tells Reputation which contract is the Lending
    authority. *)
Definition DeployFlow_run (deployer reputationAddress_ lendingAddress_ : address)
    (tokens_ : ERC20.t) : result World :=
  w ← deploy deployer reputationAddress_ lendingAddress_ deployer 0 tokens_;
  setP2PLendingContractAddress deployer lendingAddress_ w.

(** * Properties *)

(** ** Reasoning about calls that returned *)

Lemma bind_Ok {A B} (m : result A) (f : A → result B) (b : B) :
  m ≫= f = Ok b → ∃ a, m = Ok a ∧ f a = Ok b.
Proof. destruct m as [a|r]; simpl; [eauto | discriminate]. Qed.

Lemma require_Ok (c : bool) (msg : string) (u : unit) : require c msg = Ok u → c = true.
Proof. destruct c; [reflexivity | discriminate]. Qed.

Lemma require_true (c : bool) (msg : string) : c = true → require c msg = Ok ().
Proof. by intros ->. Qed.

Lemma require_false (c : bool) (msg : string) : c = false → require c msg = Revert msg.
Proof. by intros ->. Qed.

Lemma checked_add_Ok a b c : checked_add a b = Ok c → c = a + b ∧ a + b ≤ MAX_UINT256.
Proof. unfold checked_add. case_bool_decide; [|discriminate]. by intros [= <-]. Qed.

Lemma checked_sub_Ok a b c : checked_sub a b = Ok c → c = a - b ∧ b ≤ a.
Proof. unfold checked_sub. case_bool_decide; [|discriminate]. by intros [= <-]. Qed.

Lemma checked_mul_Ok a b c : checked_mul a b = Ok c → c = a * b ∧ a * b ≤ MAX_UINT256.
Proof. unfold checked_mul. case_bool_decide; [|discriminate]. by intros [= <-]. Qed.

Lemma checked_add_int_Ok a b c :
  checked_add_int a b = Ok c → c = a + b ∧ MIN_INT256 ≤ a + b ≤ MAX_INT256.
Proof. unfold checked_add_int. case_bool_decide; [|discriminate]. by intros [= <-]. Qed.

(** One step through a hypothesis [H : body = Ok _]. *)
Ltac ok_step H :=
  lazymatch type of H with
  | _ ≫= _ = Ok _ =>
      let a := fresh "x" in let E := fresh "E" in
      apply bind_Ok in H as (a & E & H)
  | Ok _ = Ok _ => injection H as H; try subst
  | Revert _ = Ok _ => discriminate H
  end.

Tactic Notation "ok_bind" hyp(H) "as" ident(x) ident(E) :=
  apply bind_Ok in H as (x & E & H).

Tactic Notation "ok_require" hyp(H) "as" ident(E) :=
  let u := fresh "u" in
  apply bind_Ok in H as (u & E & H); apply require_Ok in E; clear u.

(** ** What a call leaves alone *)

Lemma frame_refl w : frame w w.
Proof. by repeat split. Qed.

Lemma frame_trans w1 w2 w3 : frame w1 w2 → frame w2 w3 → frame w1 w3.
Proof. unfold frame. intuition congruence. Qed.

Lemma writeProfile_frame u p w : frame w (writeProfile u p w).
Proof. by repeat split. Qed.

Lemma writeVouch_frame a b v w : frame w (writeVouch a b v w).
Proof. by repeat split. Qed.

Lemma emit_frame e w : frame w (emit e w).
Proof. by repeat split. Qed.

Lemma initialize_frame u w : frame w (_initializeReputationProfileIfNotExists u w).
Proof. unfold _initializeReputationProfileIfNotExists. case_match; by repeat split. Qed.

Lemma increase_frame g s u v w w' : increase g s u v w = Ok w' → frame w w'.
Proof. unfold increase. intros H. ok_step H. ok_step H. by repeat split. Qed.

Lemma decrease_frame g s u v w w' : decrease g s u v w = Ok w' → frame w w'.
Proof. unfold decrease. intros H. ok_step H. ok_step H. by repeat split. Qed.

Lemma addScore_frame u d w w' : addScore u d w = Ok w' → frame w w'.
Proof. unfold addScore. intros H. ok_step H. ok_step H. by repeat split. Qed.

Lemma token_transfer_frame t a b v w w' : token_transfer t a b v w = Ok w' → frame w w'.
Proof. unfold token_transfer. intros H. ok_step H. ok_step H. by repeat split. Qed.

Lemma token_transferFrom_frame t s a b v w w' :
  token_transferFrom t s a b v w = Ok w' → frame w w'.
Proof. unfold token_transferFrom. intros H. ok_step H. ok_step H. by repeat split. Qed.

Create HintDb frames.
#[export] Hint Resolve frame_refl writeProfile_frame writeVouch_frame emit_frame
  initialize_frame increase_frame decrease_frame addScore_frame token_transfer_frame
  token_transferFrom_frame : frames.
#[export] Hint Extern 5 (frame _ _) => eapply frame_trans; [eassumption |] : frames.
#[export] Hint Extern 6 (frame _ _) => eapply frame_trans; [| eassumption] : frames.

(** Every primitive call among the hypotheses is replaced by its frame. *)
Ltac to_frames :=
  repeat match goal with
  | H : increase _ _ _ _ _ = Ok _ |- _ => apply increase_frame in H
  | H : decrease _ _ _ _ _ = Ok _ |- _ => apply decrease_frame in H
  | H : addScore _ _ _ = Ok _ |- _ => apply addScore_frame in H
  | H : token_transfer _ _ _ _ _ = Ok _ |- _ => apply token_transfer_frame in H
  | H : token_transferFrom _ _ _ _ _ _ = Ok _ |- _ => apply token_transferFrom_frame in H
  end.

Lemma set_reputation_frame r w : frame w (set_reputation r w).
Proof. by repeat split. Qed.

Lemma set_tokens_frame l w : frame w (set_tokens l w).
Proof. by repeat split. Qed.

(** A frame goal is closed by composing the frames among the hypotheses with
    those of the writes and emissions that wrap the worlds they mention. *)
Ltac frame_norm :=
  repeat match goal with
  | H : frame (_initializeReputationProfileIfNotExists ?u ?w) _ |- _ =>
      apply (frame_trans _ _ _ (initialize_frame u w)) in H
  | H : frame (emit ?e ?w) _ |- _ => apply (frame_trans _ _ _ (emit_frame e w)) in H
  | H : frame (writeProfile ?u ?p ?w) _ |- _ =>
      apply (frame_trans _ _ _ (writeProfile_frame u p w)) in H
  | H : frame (writeVouch ?a ?b ?v ?w) _ |- _ =>
      apply (frame_trans _ _ _ (writeVouch_frame a b v w)) in H
  | H : frame (set_reputation ?r ?w) _ |- _ =>
      apply (frame_trans _ _ _ (set_reputation_frame r w)) in H
  | H : frame (set_tokens ?l ?w) _ |- _ =>
      apply (frame_trans _ _ _ (set_tokens_frame l w)) in H
  | |- frame _ (_initializeReputationProfileIfNotExists _ _) =>
      eapply frame_trans; [|apply initialize_frame]
  | |- frame _ (emit _ _) => eapply frame_trans; [|apply emit_frame]
  | |- frame _ (writeProfile _ _ _) => eapply frame_trans; [|apply writeProfile_frame]
  | |- frame _ (writeVouch _ _ _ _) => eapply frame_trans; [|apply writeVouch_frame]
  | |- frame _ (set_reputation _ _) => eapply frame_trans; [|apply set_reputation_frame]
  | |- frame _ (set_tokens _ _) => eapply frame_trans; [|apply set_tokens_frame]
  end.

Ltac frame_solve :=
  to_frames; frame_norm;
  repeat match goal with
  | H : frame _ _ |- _ => destruct H as (? & ? & ? & ?)
  end;
  repeat match goal with
  | H : _ = Ok _ |- _ => clear H
  end;
  unfold frame; split; [congruence|]; split; [congruence|]; split; congruence.

Lemma outcomeBranch_frame o b w r : outcomeBranch o b w = Ok r → frame w r.2.
Proof.
  unfold outcomeBranch. intros H.
  destruct o; repeat ok_step H; simpl; frame_solve.
Qed.

Lemma lenderModificationBranch_frame l m a c w r :
  lenderModificationBranch l m a c w = Ok r → frame w r.2.
Proof.
  unfold lenderModificationBranch. intros H.
  repeat case_match; repeat ok_step H; simpl; frame_solve.
Qed.

Lemma recordLoanPaymentOutcome_frame s i b l p o m a w w' :
  recordLoanPaymentOutcome s i b l p o m a w = Ok w' → frame w w'.
Proof.
  unfold recordLoanPaymentOutcome. intros H.
  ok_step H. ok_step H. ok_step H. ok_step H.
  destruct x2 as [[[[bc br] lc] lr] w2]. apply outcomeBranch_frame in E2. simpl in E2.
  ok_step H. ok_step H. destruct x3 as [lc' w4].
  apply lenderModificationBranch_frame in E4. simpl in E4.
  ok_step H. ok_step H.
  assert (frame w2 x2) by (destruct (bool_decide (bc ≠ 0)); repeat ok_step E3; frame_solve).
  case_match; repeat ok_step H; frame_solve.
Qed.

Lemma updateReputationOnLoanDefault_frame s b l p v w w' :
  updateReputationOnLoanDefault s b l p v w = Ok w' → frame w w'.
Proof.
  unfold updateReputationOnLoanDefault. intros H. repeat ok_step H. frame_solve.
Qed.

Lemma slashVouchAndReputation_frame s v b a l w w' :
  slashVouchAndReputation s v b a l w = Ok w' → frame w w'.
Proof.
  unfold slashVouchAndReputation. intros H. repeat ok_step H.
  case_match; ok_step H; frame_solve.
Qed.

Lemma slashVouches_frame vs b l w w' : slashVouches vs b l w = Ok w' → frame w w'.
Proof.
  revert w. induction vs as [|v vs IH]; simpl; intros w H.
  - ok_step H. apply frame_refl.
  - ok_step H. apply IH in H. eapply frame_trans; [|exact H].
    destruct (_ && _); [|ok_step E; apply frame_refl].
    ok_step E. case_match; [|ok_step E; apply frame_refl].
    by apply slashVouchAndReputation_frame in E.
Qed.

Lemma addVouch_frame s b a t w w' : addVouch s b a t w = Ok w' → frame w w'.
Proof. unfold addVouch. intros H. repeat ok_step H. frame_solve. Qed.

Lemma removeVouch_frame s b w w' : removeVouch s b w = Ok w' → frame w w'.
Proof. unfold removeVouch. intros H. repeat ok_step H. frame_solve. Qed.

Lemma setP2PLendingContractAddress_frame s a w w' :
  setP2PLendingContractAddress s a w = Ok w' → frame w w'.
Proof. unfold setP2PLendingContractAddress. intros H. repeat ok_step H. frame_solve. Qed.

Lemma transferOwnership_Reputation_frame s a w w' :
  transferOwnership_Reputation s a w = Ok w' → frame w w'.
Proof. unfold transferOwnership_Reputation. intros H. repeat ok_step H. frame_solve. Qed.

Lemma renounceOwnership_Reputation_frame s w w' :
  renounceOwnership_Reputation s w = Ok w' → frame w w'.
Proof. unfold renounceOwnership_Reputation. intros H. repeat ok_step H. frame_solve. Qed.

(** ** UserRegistry *)

Lemma registerUser_lending s now n w w' :
  registerUser s now n w = Ok w' → lending w' = lending w.
Proof. unfold registerUser. intros H. repeat ok_step H. reflexivity. Qed.

Lemma updateProfile_lending s n w w' : updateProfile s n w = Ok w' → lending w' = lending w.
Proof. unfold updateProfile. intros H. repeat ok_step H. reflexivity. Qed.

Lemma registerUser_keeps_registered s now n u w w' :
  registerUser s now n w = Ok w' → isUserRegistered u w = true → isUserRegistered u w' = true.
Proof.
  unfold registerUser. intros H Hu. repeat ok_step H.
  unfold isUserRegistered in *. simpl.
  destruct (decide (s = u)) as [->|Hne].
  - by rewrite lookup_total_insert_eq.
  - by rewrite lookup_total_insert_ne.
Qed.

Lemma updateProfile_keeps_registered s n u w w' :
  updateProfile s n w = Ok w' → isUserRegistered u w = true → isUserRegistered u w' = true.
Proof.
  unfold updateProfile. intros H Hu. repeat ok_step H.
  unfold isUserRegistered in *. simpl.
  destruct (decide (s = u)) as [->|Hne].
  - by rewrite lookup_total_insert_eq.
  - by rewrite lookup_total_insert_ne.
Qed.

(** ** P2PLending: the effect of each function on the stored agreements *)

Lemma calculateTotalDue_spec a td : _calculateTotalDue a = Ok td → td = totalDueOf a.
Proof.
  unfold _calculateTotalDue, _calculateInterest, totalDueOf, BASIS_POINTS.
  intros H. ok_step H. apply checked_add_Ok in H as [-> _].
  destruct (bool_decide (LoanAgreement.principalAmount a = 0)) eqn:Hp; simpl in E.
  { apply bool_decide_eq_true in Hp. ok_step E. by rewrite Hp. }
  destruct (bool_decide (LoanAgreement.interestRateBPS a = 0)) eqn:Hr; simpl in E.
  { apply bool_decide_eq_true in Hr. ok_step E. by rewrite Hr, Z.mul_0_r. }
  ok_step E. apply checked_mul_Ok in E0 as [-> _]. by ok_step E.
Qed.

Lemma agreement_written_intro i a w w1 w' :
  frame (writeAgreement i a w) w' → w1 = w → agreement_written i a w1 w'.
Proof. intros (? & ? & ? & ?) ->. unfold agreement_written. simpl in *. by repeat split. Qed.

Lemma insert_agreement_twice i a b (l : P2PLending.t) :
  P2PLending.set_loanAgreements
    (<[i := b]> (P2PLending.loanAgreements
                   (P2PLending.set_loanAgreements (<[i := a]> (P2PLending.loanAgreements l)) l)))
    (P2PLending.set_loanAgreements (<[i := a]> (P2PLending.loanAgreements l)) l)
  = P2PLending.set_loanAgreements (<[i := b]> (P2PLending.loanAgreements l)) l.
Proof. destruct l. unfold P2PLending.set_loanAgreements. simpl. by rewrite insert_insert_eq. Qed.

Lemma repayLoan_effect s now i p w w' :
  repayLoan s now i p w = Ok w' →
  let a := getAgreement i w in
  LoanAgreement.borrower a = s
  ∧ isRepayable (LoanAgreement.status a) = true
  ∧ 0 < p ∧ LoanAgreement.amountPaid a + p ≤ totalDueOf a
  ∧ _calculateTotalDue a = Ok (totalDueOf a)
  ∧ agreement_written i (agreementAfterRepay now p (totalDueOf a) a) w w'.
Proof.
  unfold repayLoan. intros H. cbv zeta in H |- *.
  set (a := getAgreement i w) in *.
  ok_require H as Hb. apply bool_decide_eq_true in Hb.
  ok_require H as Hs.
  ok_require H as Hp. apply bool_decide_eq_true in Hp.
  ok_bind H as td Htd. pose proof (calculateTotalDue_spec _ _ Htd) as ->.
  ok_bind H as rem Hrem. apply checked_sub_Ok in Hrem as [-> ?].
  ok_require H as Hle. apply bool_decide_eq_true in Hle.
  ok_bind H as w1 Hw1. apply token_transferFrom_frame in Hw1 as (? & Hl1 & ? & ?).
  ok_bind H as paid Hpaid. apply checked_add_Ok in Hpaid as [-> ?].
  split; [done|]. split; [done|]. split; [lia|]. split; [lia|]. split; [done|].
  match type of H with
  | (let '(_, _) := ?c in _) = _ => destruct c as [ag ns] eqn:Hpair
  end.
  assert (LoanAgreement.set_status ns ag = agreementAfterRepay now p (totalDueOf a) a) as Hag.
  { unfold agreementAfterRepay. simpl in Hpair.
    repeat case_bool_decide; by injection Hpair as <- <-. }
  ok_bind H as w2 Hw2.
  assert (frame (writeAgreement i ag w1) w2) as (? & Hl2 & ? & ?).
  { destruct (bool_decide (ns = LoanStatus.Repaid)); [|ok_step Hw2; frame_solve].
    ok_bind Hw2 as w3 Hw3.
    assert (frame (writeAgreement i ag w1) w3).
    { destruct (_ && _); [|ok_step Hw3]; frame_solve. }
    destruct (bool_decide (P2PLending.reputationContract _ ≠ 0)); [|ok_step Hw2; done].
    apply recordLoanPaymentOutcome_frame in Hw2. by eapply frame_trans. }
  ok_step H.
  unfold agreement_written, getAgreement. simpl in *.
  rewrite Hl2, Hl1. simpl. rewrite lookup_total_insert_eq, Hag.
  repeat split; try congruence. apply insert_agreement_twice.
Qed.

Lemma handleP2PDefault_effect s now i w w' :
  handleP2PDefault s now i w = Ok w' →
  let a := getAgreement i w in
  LoanAgreement.status a = LoanStatus.Active
  ∧ LoanAgreement.dueDate a < now
  ∧ LoanAgreement.amountPaid a < totalDueOf a
  ∧ agreement_written i (LoanAgreement.set_status LoanStatus.Defaulted a) w w'.
Proof.
  unfold handleP2PDefault. intros H. cbv zeta in H |- *.
  set (a := getAgreement i w) in *.
  ok_require H as Hl. ok_require H as Hs. apply bool_decide_eq_true in Hs.
  ok_require H as Hn. apply bool_decide_eq_true in Hn.
  ok_bind H as td Htd. pose proof (calculateTotalDue_spec _ _ Htd) as ->.
  ok_require H as Hlt. apply bool_decide_eq_true in Hlt.
  split; [done|]. split; [lia|]. split; [done|].
  ok_bind H as w1 Hw1.
  assert (frame (writeAgreement i (LoanAgreement.set_status LoanStatus.Defaulted a) w) w1).
  { destruct (_ && _); [|ok_step Hw1]; frame_solve. }
  apply agreement_written_intro with (w := w); [|done].
  eapply frame_trans; [eassumption|].
  destruct (bool_decide (P2PLending.reputationContract _ ≠ 0)); [|ok_step H; apply frame_refl].
  ok_bind H as w2 Hw2. apply updateReputationOnLoanDefault_frame in Hw2.
  apply slashVouches_frame in H. by eapply frame_trans.
Qed.

Lemma requestPaymentModification_effect s i m v w w' :
  requestPaymentModification s i m v w = Ok w' →
  let a := getAgreement i w in
  LoanAgreement.borrower a = s
  ∧ (LoanAgreement.status a = LoanStatus.Active ∨ LoanAgreement.status a = LoanStatus.Overdue)
  ∧ 0 < v
  ∧ (m = PaymentModificationType.DueDateExtension → LoanAgreement.dueDate a < v)
  ∧ agreement_written i (agreementAfterRequest m v a) w w'.
Proof.
  unfold requestPaymentModification. intros H. cbv zeta in H |- *.
  set (a := getAgreement i w) in *.
  ok_require H as Hb. apply bool_decide_eq_true in Hb.
  ok_require H as Hs. ok_require H as Hv. apply bool_decide_eq_true in Hv.
  ok_bind H as u Hd. ok_step H.
  split; [done|]. split.
  { apply orb_true_iff in Hs as [Hs|Hs]; apply bool_decide_eq_true in Hs; auto. }
  split; [lia|]. split.
  { intros ->. rewrite bool_decide_eq_true_2 in Hd by done.
    apply require_Ok, bool_decide_eq_true in Hd. lia. }
  apply agreement_written_intro with (w := w); [|done]. apply emit_frame.
Qed.

Lemma respondToPaymentModification_effect s now i approved w w' :
  respondToPaymentModification s now i approved w = Ok w' →
  let a := getAgreement i w in
  LoanAgreement.lender a = s
  ∧ LoanAgreement.status a = LoanStatus.PendingModificationApproval
  ∧ agreement_written i (agreementAfterResponse now approved a) w w'.
Proof.
  unfold respondToPaymentModification. intros H. cbv zeta in H |- *.
  set (a := getAgreement i w) in *.
  ok_require H as Hl. apply bool_decide_eq_true in Hl.
  ok_require H as Hs. apply bool_decide_eq_true in Hs.
  ok_step H. split; [done|]. split; [done|].
  apply agreement_written_intro with (w := w); [|done].
  replace (agreementAfterResponse now approved a) with
    (if approved
     then if bool_decide (LoanAgreement.requestedModificationType a
                          = PaymentModificationType.DueDateExtension)
          then LoanAgreement.set_status
                 (statusByDueDate now
                    (LoanAgreement.dueDate
                       (LoanAgreement.set_dueDate (LoanAgreement.requestedModificationValue a)
                          (LoanAgreement.set_modificationApprovedByLender true a))))
                 (LoanAgreement.set_dueDate (LoanAgreement.requestedModificationValue a)
                    (LoanAgreement.set_modificationApprovedByLender true a))
          else if bool_decide (LoanAgreement.requestedModificationType a
                               = PaymentModificationType.PartialPaymentAgreement)
               then LoanAgreement.set_status LoanStatus.Active_PartialPaymentAgreed
                      (LoanAgreement.set_modificationApprovedByLender true a)
               else LoanAgreement.set_modificationApprovedByLender true a
     else LoanAgreement.set_status
            (statusByDueDate now
               (LoanAgreement.dueDate (LoanAgreement.set_modificationApprovedByLender false a)))
            (LoanAgreement.set_modificationApprovedByLender false a)).
  { apply emit_frame. }
  unfold agreementAfterResponse. destruct approved; [|done].
  destruct (LoanAgreement.requestedModificationType a); done.
Qed.

Lemma createLoanOffer_effect s now a t r d ca ct w i w' :
  createLoanOffer s now a t r d ca ct w = Ok (i, w') →
  0 < a
  ∧ userRegistry w' = userRegistry w
  ∧ P2PLending.reputationContract (lending w') = P2PLending.reputationContract (lending w)
  ∧ P2PLending.loanRequests (lending w') = P2PLending.loanRequests (lending w)
  ∧ P2PLending.loanAgreements (lending w') = P2PLending.loanAgreements (lending w)
  ∧ P2PLending.loanOffers (lending w')
    = <[i := LoanOffer.mk i s a t r d ca ct true false]> (P2PLending.loanOffers (lending w)).
Proof.
  unfold createLoanOffer. intros H. cbv zeta in H.
  ok_require H as Hv. ok_require H as Ha. apply bool_decide_eq_true in Ha.
  ok_require H as Ht. ok_require H as Hd. ok_bind H as u Hc. ok_require H as Hbal.
  ok_bind H as w1 Hw1. apply token_transferFrom_frame in Hw1 as (? & Hl & ? & ?).
  injection H as <- <-. simpl in *. rewrite ?Hl. simpl.
  split; [lia|]. by repeat split.
Qed.

Lemma createLoanRequest_effect s now a t r d ca ct w i w' :
  createLoanRequest s now a t r d ca ct w = Ok (i, w') →
  0 < a
  ∧ userRegistry w' = userRegistry w
  ∧ P2PLending.reputationContract (lending w') = P2PLending.reputationContract (lending w)
  ∧ P2PLending.loanOffers (lending w') = P2PLending.loanOffers (lending w)
  ∧ P2PLending.loanAgreements (lending w') = P2PLending.loanAgreements (lending w)
  ∧ P2PLending.loanRequests (lending w')
    = <[i := LoanRequest.mk i s a t r d ca ct true false]> (P2PLending.loanRequests (lending w)).
Proof.
  unfold createLoanRequest. intros H. cbv zeta in H.
  ok_require H as Hv. ok_require H as Ha. apply bool_decide_eq_true in Ha.
  ok_require H as Ht. ok_require H as Hd. ok_bind H as u Hc.
  injection H as <- <-. simpl in *.
  split; [lia|]. by repeat split.
Qed.

Lemma acceptLoanOffer_effect s now oid ca ct w i w' :
  acceptLoanOffer s now oid ca ct w = Ok (i, w') →
  let o := getOffer oid w in
  ∃ due,
    userRegistry w' = userRegistry w
    ∧ P2PLending.reputationContract (lending w') = P2PLending.reputationContract (lending w)
    ∧ P2PLending.loanRequests (lending w') = P2PLending.loanRequests (lending w)
    ∧ P2PLending.loanOffers (lending w')
      = <[oid := LoanOffer.set_isActive false (LoanOffer.set_isFulfilled true o)]>
          (P2PLending.loanOffers (lending w))
    ∧ P2PLending.loanAgreements (lending w')
      = <[i := LoanAgreement.mk i oid zero32 (LoanOffer.lender o) s (LoanOffer.amount o)
                 (LoanOffer.token o) (LoanOffer.interestRateBPS o) (LoanOffer.durationSeconds o)
                 ca ct now due 0 LoanStatus.Active PaymentModificationType.DueDateExtension
                 0 false]> (P2PLending.loanAgreements (lending w)).
Proof.
  unfold acceptLoanOffer. intros H. cbv zeta in H |- *.
  set (o := getOffer oid w) in *.
  ok_require H as Hv. ok_require H as He. ok_require H as Hact. ok_require H as Hful.
  ok_require H as Hown.
  ok_bind H as w1 Hw1.
  assert (frame w w1) as (? & Hl1 & ? & ?).
  { destruct (bool_decide (LoanOffer.requiredCollateralAmount o > 0)).
    - ok_require Hw1 as H1. ok_require Hw1 as H2. ok_require Hw1 as H3. frame_solve.
    - ok_require Hw1 as H1. ok_require Hw1 as H2. ok_step Hw1. apply frame_refl. }
  ok_bind H as w2 Hw2. apply token_transfer_frame in Hw2 as (? & Hl2 & ? & ?).
  ok_bind H as due Hdue. injection H as <- <-.
  exists due. unfold pushAgreementIds. simpl in *. rewrite ?Hl2, ?Hl1. simpl.
  repeat split; congruence.
Qed.

Lemma fundLoanRequest_effect s now rid w i w' :
  fundLoanRequest s now rid w = Ok (i, w') →
  let r := getRequest rid w in
  ∃ due,
    userRegistry w' = userRegistry w
    ∧ P2PLending.reputationContract (lending w') = P2PLending.reputationContract (lending w)
    ∧ P2PLending.loanOffers (lending w') = P2PLending.loanOffers (lending w)
    ∧ P2PLending.loanRequests (lending w')
      = <[rid := LoanRequest.set_isFulfilled true (LoanRequest.set_isActive false r)]>
          (P2PLending.loanRequests (lending w))
    ∧ P2PLending.loanAgreements (lending w')
      = <[i := LoanAgreement.mk i zero32 rid s (LoanRequest.borrower r) (LoanRequest.amount r)
                 (LoanRequest.token r) (LoanRequest.proposedInterestRateBPS r)
                 (LoanRequest.proposedDurationSeconds r) (LoanRequest.offeredCollateralAmount r)
                 (LoanRequest.collateralToken r) now due 0 LoanStatus.Active
                 PaymentModificationType.DueDateExtension 0 false]>
          (P2PLending.loanAgreements (lending w)).
Proof.
  unfold fundLoanRequest. intros H. cbv zeta in H |- *.
  set (r := getRequest rid w) in *.
  ok_require H as Hv. ok_require H as He. ok_require H as Hact. ok_require H as Hful.
  ok_require H as Hown. ok_require H as Hbal.
  ok_bind H as w1 Hw1. apply token_transferFrom_frame in Hw1 as (? & Hl1 & ? & ?).
  ok_bind H as w2 Hw2.
  assert (frame w1 w2) as (? & Hl2 & ? & ?).
  { destruct (bool_decide (LoanRequest.offeredCollateralAmount r > 0)); [|ok_step Hw2];
      frame_solve. }
  ok_bind H as due Hdue. injection H as <- <-.
  exists due. unfold pushAgreementIds. simpl in *. rewrite ?Hl2, ?Hl1. simpl.
  repeat split; congruence.
Qed.

(** ** The agreement invariant *)

Lemma totalDueOf_nonneg a :
  0 ≤ LoanAgreement.principalAmount a → 0 ≤ LoanAgreement.interestRateBPS a → 0 ≤ totalDueOf a.
Proof.
  intros Hp Hr. unfold totalDueOf.
  assert (0 ≤ LoanAgreement.principalAmount a * LoanAgreement.interestRateBPS a ÷ 10000).
  { apply Z.quot_pos; lia. }
  lia.
Qed.

Lemma isRepayable_not_pending st :
  isRepayable st = true → st ≠ LoanStatus.PendingModificationApproval.
Proof. by destruct st. Qed.

Lemma statusAfterPayment_not_pending paid td now due :
  statusAfterPayment paid td now due ≠ LoanStatus.PendingModificationApproval.
Proof. unfold statusAfterPayment. by repeat case_bool_decide. Qed.

Lemma statusByDueDate_not_pending now due :
  statusByDueDate now due ≠ LoanStatus.PendingModificationApproval.
Proof. unfold statusByDueDate. by case_bool_decide. Qed.

Lemma agreement_ok_zero : agreement_ok LoanAgreement.zero.
Proof. unfold agreement_ok, totalDueOf. simpl. repeat split; (done || lia). Qed.

Lemma agreement_ok_fresh i o r l b p t rate d ca ct now due :
  0 ≤ p → 0 ≤ rate →
  agreement_ok (LoanAgreement.mk i o r l b p t rate d ca ct now due 0 LoanStatus.Active
                  PaymentModificationType.DueDateExtension 0 false).
Proof.
  intros Hp Hr. unfold agreement_ok. simpl.
  split; [done|]. split; [done|]. split; [|done].
  split; [done|]. by apply (totalDueOf_nonneg (LoanAgreement.mk i o r l b p t rate d ca ct now
    due 0 LoanStatus.Active PaymentModificationType.DueDateExtension 0 false)).
Qed.

Lemma agreement_ok_repay now p a :
  agreement_ok a → isRepayable (LoanAgreement.status a) = true →
  0 < p → LoanAgreement.amountPaid a + p ≤ totalDueOf a →
  agreement_ok (agreementAfterRepay now p (totalDueOf a) a).
Proof.
  intros (Hp & Hr & Hpaid & Hpend & Happ) Hs Hpos Hle.
  pose proof (isRepayable_not_pending _ Hs) as Hnp.
  assert (LoanAgreement.modificationApprovedByLender a = true →
          LoanAgreement.requestedModificationType a ≠ PaymentModificationType.None) as Hty.
  { intros H1 H2. by apply Hnp, Happ. }
  unfold agreementAfterRepay.
  repeat case_bool_decide; unfold agreement_ok, totalDueOf in *; simpl;
    (split; [done|]); (split; [done|]); (split; [lia|]); split; intros H1 H2; try done;
    first [by apply statusAfterPayment_not_pending in H1 | by apply Hty in H1].
Qed.

Lemma agreement_ok_default a :
  agreement_ok a → LoanAgreement.status a = LoanStatus.Active →
  agreement_ok (LoanAgreement.set_status LoanStatus.Defaulted a).
Proof.
  intros (Hp & Hr & Hpaid & Hpend & Happ) Hs.
  unfold agreement_ok, totalDueOf in *. simpl.
  split; [done|]. split; [done|]. split; [lia|]. split; [done|].
  intros H1 H2. specialize (Happ H1 H2). congruence.
Qed.

Lemma agreement_ok_request m v a :
  agreement_ok a → (m = PaymentModificationType.DueDateExtension → LoanAgreement.dueDate a < v) →
  agreement_ok (agreementAfterRequest m v a).
Proof.
  intros (Hp & Hr & Hpaid & Hpend & Happ) Hv.
  unfold agreement_ok, agreementAfterRequest, totalDueOf in *. simpl.
  split; [done|]. split; [done|]. split; [lia|]. split; [auto|done].
Qed.

Lemma agreement_ok_respond now approved a :
  agreement_ok a → LoanAgreement.status a = LoanStatus.PendingModificationApproval →
  agreement_ok (agreementAfterResponse now approved a).
Proof.
  intros (Hp & Hr & Hpaid & Hpend & Happ) Hs.
  unfold agreementAfterResponse.
  destruct approved; [destruct (LoanAgreement.requestedModificationType a) eqn:Hty|];
    unfold agreement_ok, totalDueOf in *; simpl;
    (split; [done|]); (split; [done|]); (split; [lia|]); split; intros H1 H2; try done;
    first [congruence | by apply statusByDueDate_not_pending in H1].
Qed.

Lemma lending_ok_written i a w w' :
  agreement_written i a w w' → lending_ok (lending w) → agreement_ok a →
  lending_ok (lending w').
Proof.
  intros (_ & _ & _ & ->) (Hrep & Hoff & Hreq & Hag) Ha.
  unfold lending_ok. simpl. split; [done|]. split; [done|]. split; [done|].
  intros j. destruct (decide (i = j)) as [->|Hne].
  - by rewrite lookup_total_insert_eq.
  - rewrite lookup_total_insert_ne by done. apply Hag.
Qed.

Lemma lending_ok_deploy d ra la pw oapp tk w :
  deploy d ra la pw oapp tk = Ok w → lending_ok (lending w).
Proof.
  unfold deploy. intros H. ok_require H as Hd. ok_require H as Hra. ok_require H as Hpw.
  ok_step H. apply bool_decide_eq_true in Hra.
  unfold lending_ok. simpl. split; [done|].
  split; [intros i; by rewrite lookup_total_empty|].
  split; [intros i; by rewrite lookup_total_empty|].
  intros i. rewrite lookup_total_empty. apply agreement_ok_zero.
Qed.

Lemma worldOf_Ok r w' : worldOf r = Ok w' → ∃ i, r = Ok (i, w').
Proof. destruct r as [[i w]|]; simpl; [|discriminate]. intros [= <-]. by exists i. Qed.

Lemma execute_lending_ok s now tx w w' :
  well_typed tx → lending_ok (lending w) → execute s now tx w = Ok w' →
  lending_ok (lending w').
Proof.
  intros Hty Hok H. pose proof Hok as (Hrep & Hoff & Hreq & Hag).
  destruct tx; simpl in H, Hty.
  - by rewrite (registerUser_lending _ _ _ _ _ H).
  - by rewrite (updateProfile_lending _ _ _ _ H).
  - apply setP2PLendingContractAddress_frame in H as (_ & -> & _). done.
  - apply transferOwnership_Reputation_frame in H as (_ & -> & _). done.
  - apply renounceOwnership_Reputation_frame in H as (_ & -> & _). done.
  - apply recordLoanPaymentOutcome_frame in H as (_ & -> & _). done.
  - apply updateReputationOnLoanDefault_frame in H as (_ & -> & _). done.
  - apply addVouch_frame in H as (_ & -> & _). done.
  - apply removeVouch_frame in H as (_ & -> & _). done.
  - apply slashVouchAndReputation_frame in H as (_ & -> & _). done.
  - unfold setReputationContractAddress in H. ok_require H as Ho. ok_require H as Hn.
    ok_step H. apply bool_decide_eq_true in Hn. by split.
  - unfold setReputationOAppAddress in H. ok_require H as Ho.
    case_bool_decide; ok_step H; done.
  - unfold setPythAddress in H. ok_require H as Ho. discriminate.
  - unfold transferOwnership_P2PL in H. ok_require H as Ho. ok_require H as Hn.
    ok_step H. done.
  - unfold renounceOwnership_P2PL in H. ok_require H as Ho. ok_step H. done.
  - apply worldOf_Ok in H as [i H].
    apply createLoanOffer_effect in H as (Ha & _ & Hr & Hq & Hg & Ho).
    unfold lending_ok. rewrite Hr, Hq, Hg, Ho. split; [done|]. split; [|by split].
    intros j. destruct (decide (i = j)) as [->|Hne];
      rewrite ?lookup_total_insert_eq, ?lookup_total_insert_ne by done; [|apply Hoff].
    simpl. unfold uint16 in *. lia.
  - apply worldOf_Ok in H as [i H].
    apply createLoanRequest_effect in H as (Ha & _ & Hr & Ho & Hg & Hq).
    unfold lending_ok. rewrite Hr, Hq, Hg, Ho. split; [done|]. split; [done|]. split; [|done].
    intros j. destruct (decide (i = j)) as [->|Hne];
      rewrite ?lookup_total_insert_eq, ?lookup_total_insert_ne by done; [|apply Hreq].
    simpl. unfold uint16 in *. lia.
  - apply worldOf_Ok in H as [i H].
    apply acceptLoanOffer_effect in H as (due & _ & Hr & Hq & Ho & Hg).
    unfold lending_ok. rewrite Hr, Hq, Hg, Ho. split; [done|]. split; [|split; [done|]].
    + intros j. destruct (decide (offerId_ = j)) as [->|Hne];
        rewrite ?lookup_total_insert_eq, ?lookup_total_insert_ne by done; [|apply Hoff].
      simpl. apply Hoff.
    + intros j. destruct (decide (i = j)) as [->|Hne];
        rewrite ?lookup_total_insert_eq, ?lookup_total_insert_ne by done; [|apply Hag].
      apply agreement_ok_fresh; apply Hoff.
  - apply worldOf_Ok in H as [i H].
    apply fundLoanRequest_effect in H as (due & _ & Hr & Ho & Hq & Hg).
    unfold lending_ok. rewrite Hr, Hq, Hg, Ho. split; [done|]. split; [done|]. split.
    + intros j. destruct (decide (requestId_ = j)) as [->|Hne];
        rewrite ?lookup_total_insert_eq, ?lookup_total_insert_ne by done; [|apply Hreq].
      simpl. apply Hreq.
    + intros j. destruct (decide (i = j)) as [->|Hne];
        rewrite ?lookup_total_insert_eq, ?lookup_total_insert_ne by done; [|apply Hag].
      apply agreement_ok_fresh; apply Hreq.
  - apply repayLoan_effect in H as (_ & Hs & Hp & Hle & _ & Hw).
    eapply lending_ok_written; [exact Hw | done |].
    apply agreement_ok_repay; [apply Hag | done..].
  - apply handleP2PDefault_effect in H as (Hs & _ & _ & Hw).
    eapply lending_ok_written; [exact Hw | done |].
    apply agreement_ok_default; [apply Hag | done].
  - apply requestPaymentModification_effect in H as (_ & _ & _ & Hv & Hw).
    eapply lending_ok_written; [exact Hw | done |].
    apply agreement_ok_request; [apply Hag | done].
  - apply respondToPaymentModification_effect in H as (_ & Hs & Hw).
    eapply lending_ok_written; [exact Hw | done |].
    apply agreement_ok_respond; [apply Hag | done].
  - ok_bind H as l Hl. by ok_step H.
  - apply token_transfer_frame in H as (_ & -> & _). done.
  - apply token_transferFrom_frame in H as (_ & -> & _). done.
Qed.

Lemma reachable_lending_ok w : reachable w → lending_ok (lending w).
Proof.
  induction 1 as [d ra la pw oapp tk w Hd | w s now tx Hr IH Hnow Hty | w tk Hr IH].
  - by eapply lending_ok_deploy.
  - destruct (execute s now tx w) as [w'|] eqn:He; simpl; [|done].
    by eapply execute_lending_ok.
  - exact IH.
Qed.

Lemma agreement_written_lookup i a w w' j :
  agreement_written i a w w' →
  getAgreement j w' = if decide (i = j) then a else getAgreement j w.
Proof.
  intros (_ & _ & _ & Hl). unfold getAgreement. rewrite Hl. simpl.
  destruct (decide (i = j)) as [->|Hne].
  - by rewrite lookup_total_insert_eq.
  - by rewrite lookup_total_insert_ne.
Qed.

Lemma lookup_step (i j : bytes32) (m : gmap bytes32 LoanAgreement.t) a (P : LoanAgreement.t → Prop) :
  P a → (<[i := a]> m !!! j = m !!! j) ∨ P (<[i := a]> m !!! j).
Proof.
  intros Hp. destruct (decide (i = j)) as [->|Hne].
  - right. by rewrite lookup_total_insert_eq.
  - left. by rewrite lookup_total_insert_ne.
Qed.

Lemma execute_agreement_step s now tx w w' j :
  lending_ok (lending w) → execute s now tx w = Ok w' →
  getAgreement j w' = getAgreement j w
  ∨ agreement_step now (getAgreement j w) tx (getAgreement j w').
Proof.
  intros (Hrep & Hoff & Hreq & Hag) H.
  assert (∀ i a, agreement_written i a w w' →
                 agreement_step now (getAgreement i w) tx a →
                 getAgreement j w' = getAgreement j w
                 ∨ agreement_step now (getAgreement j w) tx (getAgreement j w')) as Hwr.
  { intros i a Hw Hst. rewrite (agreement_written_lookup _ _ _ _ j Hw).
    destruct (decide (i = j)) as [->|]; auto. }
  destruct tx; simpl in H; unfold getAgreement.
  - left. by rewrite (registerUser_lending _ _ _ _ _ H).
  - left. by rewrite (updateProfile_lending _ _ _ _ H).
  - apply setP2PLendingContractAddress_frame in H as (_ & -> & _). by left.
  - apply transferOwnership_Reputation_frame in H as (_ & -> & _). by left.
  - apply renounceOwnership_Reputation_frame in H as (_ & -> & _). by left.
  - apply recordLoanPaymentOutcome_frame in H as (_ & -> & _). by left.
  - apply updateReputationOnLoanDefault_frame in H as (_ & -> & _). by left.
  - apply addVouch_frame in H as (_ & -> & _). by left.
  - apply removeVouch_frame in H as (_ & -> & _). by left.
  - apply slashVouchAndReputation_frame in H as (_ & -> & _). by left.
  - unfold setReputationContractAddress in H. ok_require H as Ho. ok_require H as Hn.
    ok_step H. by left.
  - unfold setReputationOAppAddress in H. ok_require H as Ho.
    case_bool_decide; ok_step H; by left.
  - unfold setPythAddress in H. ok_require H as Ho. discriminate.
  - unfold transferOwnership_P2PL in H. ok_require H as Ho. ok_require H as Hn.
    ok_step H. by left.
  - unfold renounceOwnership_P2PL in H. ok_require H as Ho. ok_step H. by left.
  - apply worldOf_Ok in H as [i H].
    apply createLoanOffer_effect in H as (_ & _ & _ & _ & -> & _). by left.
  - apply worldOf_Ok in H as [i H].
    apply createLoanRequest_effect in H as (_ & _ & _ & _ & -> & _). by left.
  - apply worldOf_Ok in H as [i H].
    apply acceptLoanOffer_effect in H as (due & _ & _ & _ & _ & ->).
    apply lookup_step. apply step_accept; apply Hoff.
  - apply worldOf_Ok in H as [i H].
    apply fundLoanRequest_effect in H as (due & _ & _ & _ & _ & ->).
    apply lookup_step. apply step_fund; apply Hreq.
  - apply repayLoan_effect in H as (_ & Hs & Hp & Hle & _ & Hw).
    eapply Hwr; [exact Hw|]. by apply step_repay.
  - apply handleP2PDefault_effect in H as (Hs & Hd & Hlt & Hw).
    eapply Hwr; [exact Hw|]. by apply step_default.
  - apply requestPaymentModification_effect in H as (_ & Hs & Hv & Hd & Hw).
    eapply Hwr; [exact Hw|]. by apply step_request.
  - apply respondToPaymentModification_effect in H as (_ & Hs & Hw).
    eapply Hwr; [exact Hw|]. by apply step_respond.
  - ok_bind H as l Hl. ok_step H. by left.
  - apply token_transfer_frame in H as (_ & -> & _). by left.
  - apply token_transferFrom_frame in H as (_ & -> & _). by left.
Qed.

(** Only [repayLoan] raises the amount paid. *)
Lemma agreement_step_amountPaid now a tx a' :
  agreement_ok a → agreement_step now a tx a' →
  (∀ i p, tx ≠ RepayLoan i p) →
  LoanAgreement.amountPaid a' ≤ LoanAgreement.amountPaid a.
Proof.
  intros (_ & _ & Hpaid & _) Hst Hne.
  destruct Hst; simpl; try lia.
  - by destruct (Hne i p).
  - unfold agreementAfterResponse.
    destruct approved; [destruct (LoanAgreement.requestedModificationType a)|]; simpl; lia.
Qed.

(** While a request stays pending, nothing moves the due date or the request. *)
Lemma agreement_step_pending now a tx a' :
  agreement_step now a tx a' →
  LoanAgreement.status a = LoanStatus.PendingModificationApproval →
  LoanAgreement.status a' = LoanStatus.PendingModificationApproval →
  LoanAgreement.dueDate a' = LoanAgreement.dueDate a
  ∧ LoanAgreement.requestedModificationType a' = LoanAgreement.requestedModificationType a
  ∧ LoanAgreement.requestedModificationValue a' = LoanAgreement.requestedModificationValue a.
Proof.
  intros Hst Hs Hs'. destruct Hst; simpl in *; try congruence.
  - rewrite Hs in *. done.
  - destruct H; congruence.
  - unfold agreementAfterResponse in *.
    destruct approved; [destruct (LoanAgreement.requestedModificationType a) eqn:Hty|];
      simpl in *; try done; by apply statusByDueDate_not_pending in Hs'.
Qed.

(** ** The settling repayment *)

Lemma repayLoan_settles s now i p w w' :
  repayLoan s now i p w = Ok w' →
  LoanAgreement.status (getAgreement i w') = LoanStatus.Repaid →
  P2PLending.reputationContract (lending w) ≠ 0 →
  let a := getAgreement i w in
  ∃ w1 w2,
    recordLoanPaymentOutcome (lendingAddress w) i (LoanAgreement.borrower a)
      (LoanAgreement.lender a) (LoanAgreement.principalAmount a)
      (settlementOutcome now (LoanAgreement.dueDate a)
         (LoanAgreement.requestedModificationType a)
         (LoanAgreement.modificationApprovedByLender a))
      (LoanAgreement.requestedModificationType a)
      (LoanAgreement.modificationApprovedByLender a) w1 = Ok w2
    ∧ w' = writeAgreement i (LoanAgreement.set_status LoanStatus.Repaid (getAgreement i w2)) w2.
Proof.
  unfold repayLoan. intros H Hst Hrep. cbv zeta in H |- *.
  set (a := getAgreement i w) in *.
  ok_require H as Hb. ok_require H as Hs. ok_require H as Hp.
  ok_bind H as td Htd. ok_bind H as rem Hrem. ok_require H as Hle.
  ok_bind H as w1 Hw1. apply token_transferFrom_frame in Hw1 as (? & Hl1 & ? & Hla1).
  ok_bind H as paid Hpaid.
  match type of H with
  | (let '(_, _) := ?c in _) = _ => destruct c as [ag ns] eqn:Hpair
  end.
  assert (LoanAgreement.borrower ag = LoanAgreement.borrower a
          ∧ LoanAgreement.lender ag = LoanAgreement.lender a
          ∧ LoanAgreement.principalAmount ag = LoanAgreement.principalAmount a
          ∧ LoanAgreement.dueDate ag = LoanAgreement.dueDate a) as (Eb & El & Ep & Ed).
  { simpl in Hpair. repeat case_bool_decide; by injection Hpair as <- <-. }
  ok_bind H as w2 Hw2. ok_step H.
  unfold getAgreement in Hst. simpl in Hst. rewrite lookup_total_insert_eq in Hst.
  simpl in Hst. subst ns. rewrite bool_decide_eq_true_2 in Hw2 by done.
  ok_bind Hw2 as w3 Hw3.
  assert (frame (writeAgreement i ag w1) w3) as (? & Hl3 & ? & Hla3).
  { destruct (_ && _); [|ok_step Hw3]; frame_solve. }
  assert (P2PLending.reputationContract (lending w3) ≠ 0) as Hrep3.
  { rewrite Hl3. simpl. by rewrite Hl1. }
  rewrite bool_decide_eq_true_2 in Hw2 by done.
  exists w3, w2. split; [|done].
  rewrite <- Hw2. rewrite Hla3. simpl. rewrite Hla1, Eb, El, Ep, Ed. reflexivity.
Qed.

Lemma settlementOutcome_firstMatch now due ty approved :
  (approved = true → ty ≠ PaymentModificationType.None) →
  settlementOutcome now due ty approved = firstMatchOutcome now due ty approved.
Proof.
  intros Hty. unfold settlementOutcome, firstMatchOutcome.
  destruct approved, ty; repeat case_bool_decide; simpl; try done; try lia.
  by destruct Hty.
Qed.

(** ** Registration *)

Lemma execute_keeps_registered s now tx u w w' :
  execute s now tx w = Ok w' → isUserRegistered u w = true → isUserRegistered u w' = true.
Proof.
  intros H Hu.
  assert (userRegistry w' = userRegistry w → isUserRegistered u w' = true) as Hsame.
  { intros Heq. unfold isUserRegistered in *. by rewrite Heq. }
  destruct tx; simpl in H.
  - by eapply registerUser_keeps_registered.
  - by eapply updateProfile_keeps_registered.
  - apply Hsame. by apply setP2PLendingContractAddress_frame in H as (? & _).
  - apply Hsame. by apply transferOwnership_Reputation_frame in H as (? & _).
  - apply Hsame. by apply renounceOwnership_Reputation_frame in H as (? & _).
  - apply Hsame. by apply recordLoanPaymentOutcome_frame in H as (? & _).
  - apply Hsame. by apply updateReputationOnLoanDefault_frame in H as (? & _).
  - apply Hsame. by apply addVouch_frame in H as (? & _).
  - apply Hsame. by apply removeVouch_frame in H as (? & _).
  - apply Hsame. by apply slashVouchAndReputation_frame in H as (? & _).
  - apply Hsame. unfold setReputationContractAddress in H.
    ok_require H as Ho. ok_require H as Hn. by ok_step H.
  - apply Hsame. unfold setReputationOAppAddress in H. ok_require H as Ho.
    by case_bool_decide; ok_step H.
  - unfold setPythAddress in H. ok_require H as Ho. discriminate.
  - apply Hsame. unfold transferOwnership_P2PL in H.
    ok_require H as Ho. ok_require H as Hn. by ok_step H.
  - apply Hsame. unfold renounceOwnership_P2PL in H. ok_require H as Ho. by ok_step H.
  - apply Hsame. apply worldOf_Ok in H as [i H].
    by apply createLoanOffer_effect in H as (_ & ? & _).
  - apply Hsame. apply worldOf_Ok in H as [i H].
    by apply createLoanRequest_effect in H as (_ & ? & _).
  - apply Hsame. apply worldOf_Ok in H as [i H].
    by apply acceptLoanOffer_effect in H as (due & ? & _).
  - apply Hsame. apply worldOf_Ok in H as [i H].
    by apply fundLoanRequest_effect in H as (due & ? & _).
  - apply Hsame. by apply repayLoan_effect in H as (_ & _ & _ & _ & _ & ? & _).
  - apply Hsame. by apply handleP2PDefault_effect in H as (_ & _ & _ & ? & _).
  - apply Hsame. by apply requestPaymentModification_effect in H as (_ & _ & _ & _ & ? & _).
  - apply Hsame. by apply respondToPaymentModification_effect in H as (_ & _ & ? & _).
  - apply Hsame. ok_bind H as l Hl. by ok_step H.
  - apply Hsame. by apply token_transfer_frame in H as (? & _).
  - apply Hsame. by apply token_transferFrom_frame in H as (? & _).
Qed.

(** C10. [registerUser] (the [register] of the specification) fails with
    AlreadyRegistered whenever the caller is registered; it fails whenever
    the name is empty or longer than 50 bytes, with NameInvalid when the
    caller is not yet registered; otherwise it succeeds (the counter cannot
    overflow below 2^256 - 1 users), records the name with the block
    timestamp, appends the caller to the ordered list of registered users and
    adds one to the total. Registration is one-shot and permanent: no
    transaction of the system turns a registered flag back to false. *)
Theorem registerUser_one_shot (sender : address) (now : Z) (_name : string) (w : World) :
  (isUserRegistered sender w = true →
   failsWith (registerUser sender now _name w) AlreadyRegistered)
  ∧ (nameLength _name = 0 ∨ 50 < nameLength _name →
     is_ok (registerUser sender now _name w) = false
     ∧ (isUserRegistered sender w = false →
        failsWith (registerUser sender now _name w) NameInvalid))
  ∧ (isUserRegistered sender w = false → 0 < nameLength _name ≤ 50 →
     UserRegistry.totalUsers (userRegistry w) < MAX_UINT256 →
     ∃ w', registerUser sender now _name w = Ok w'
           ∧ getUserProfile sender w' = (true, _name, now)
           ∧ UserRegistry.registeredUsers (userRegistry w')
             = UserRegistry.registeredUsers (userRegistry w) ++ [sender]
           ∧ getTotalUsers w' = getTotalUsers w + 1)
  ∧ (∀ caller time tx user,
       isUserRegistered user w = true →
       isUserRegistered user (commit w (execute caller time tx w)) = true).
Proof.
  split; [|split; [|split]].
  - intros Hr. unfold registerUser. rewrite Hr. simpl.
    by exists "UserRegistry: Address already registered".
  - intros Hn. unfold registerUser, nameLength in *.
    destruct (isUserRegistered sender w) eqn:Hr; simpl; [done|].
    destruct Hn as [Hn|Hn].
    + rewrite (bool_decide_eq_false_2 (_ > 0)) by lia. simpl. split; [done|].
      intros _. by exists "UserRegistry: Name cannot be empty".
    + rewrite (bool_decide_eq_true_2 (_ > 0)) by lia. simpl.
      rewrite (bool_decide_eq_false_2 (_ ≤ 50)) by lia. simpl. split; [done|].
      intros _. by exists "UserRegistry: Name too long".
  - intros Hr Hn Ht. unfold registerUser, checked_add, nameLength in *. rewrite Hr. simpl.
    rewrite (bool_decide_eq_true_2 (_ > 0)), (bool_decide_eq_true_2 (_ ≤ 50)) by lia. simpl.
    rewrite (bool_decide_eq_true_2 (_ ≤ MAX_UINT256)) by lia. simpl.
    eexists. split; [reflexivity|].
    unfold getUserProfile, getTotalUsers. simpl. by rewrite lookup_total_insert_eq.
  - intros caller time tx user Hu.
    destruct (execute caller time tx w) as [w'|] eqn:He; simpl; [|done].
    by eapply execute_keeps_registered.
Qed.

(** ** Authority *)

(** C8. [recordLoanPaymentOutcome], [updateReputationOnLoanDefault] (the
    [record_loan_default] of the specification) and [slashVouchAndReputation],
    called by any address other than the configured [p2pLendingContractAddress],
    revert with the authorization error, whatever their arguments, and the
    world (scores, counters, vouches, escrowed tokens, event log) is left as
    it was. *)
Theorem only_lending_authority_mutates_reputation (sender : address) (w : World) :
  sender ≠ Reputation.p2pLendingContractAddress (reputation w) →
  (∀ i b l p o m a,
     recordLoanPaymentOutcome sender i b l p o m a w = Revert NOT_P2P_LENDING
     ∧ ∀ now, commit w (execute sender now (RecordLoanPaymentOutcome i b l p o m a) w) = w)
  ∧ (∀ b l p v,
       updateReputationOnLoanDefault sender b l p v w = Revert NOT_P2P_LENDING
       ∧ ∀ now, commit w (execute sender now (UpdateReputationOnLoanDefault b l p v) w) = w)
  ∧ (∀ v b a l,
       slashVouchAndReputation sender v b a l w = Revert NOT_P2P_LENDING
       ∧ ∀ now, commit w (execute sender now (SlashVouchAndReputation v b a l) w) = w).
Proof.
  intros Hne.
  assert (onlyP2PLendingContract sender w = Revert NOT_P2P_LENDING) as Hgate.
  { unfold onlyP2PLendingContract. by rewrite bool_decide_eq_false_2. }
  split; [|split]; intros; simpl.
  - unfold recordLoanPaymentOutcome. by rewrite Hgate.
  - unfold updateReputationOnLoanDefault. by rewrite Hgate.
  - unfold slashVouchAndReputation. by rewrite Hgate.
Qed.

(** ** Properties of the reachable worlds *)

Lemma agreementAfterRepay_amountPaid now p td a :
  LoanAgreement.amountPaid (agreementAfterRepay now p td a) = LoanAgreement.amountPaid a + p.
Proof. unfold agreementAfterRepay. by repeat case_bool_decide. Qed.

Lemma agreementAfterRepay_status now p td a :
  LoanAgreement.status (agreementAfterRepay now p td a) = LoanStatus.Repaid →
  isRepayable (LoanAgreement.status a) = true →
  LoanAgreement.status a ≠ LoanStatus.PendingModificationApproval.
Proof. intros _. apply isRepayable_not_pending. Qed.

(** C7. In every reachable world and for every stored agreement,
    [0 ≤ amountPaid ≤ totalDueOf], where [totalDueOf] is
    [principal + principal * rate_bps / 10_000] with truncating division (the
    value [_calculateTotalDue] returns whenever [repayLoan] gets past it).
    [repayLoan] reverts on a payment that is zero or larger than
    [totalDueOf - amountPaid]; when it succeeds it adds exactly the payment;
    and no other transaction increases the amount paid of any agreement. *)
Theorem amount_paid_within_total_due (w : World) :
  reachable w →
  (∀ i, 0 ≤ LoanAgreement.amountPaid (getAgreement i w) ≤ totalDueOf (getAgreement i w))
  ∧ (∀ sender now i p,
       p = 0 ∨ totalDueOf (getAgreement i w) - LoanAgreement.amountPaid (getAgreement i w) < p →
       is_ok (repayLoan sender now i p w) = false)
  ∧ (∀ sender now i p w',
       repayLoan sender now i p w = Ok w' →
       _calculateTotalDue (getAgreement i w) = Ok (totalDueOf (getAgreement i w))
       ∧ LoanAgreement.amountPaid (getAgreement i w')
         = LoanAgreement.amountPaid (getAgreement i w) + p)
  ∧ (∀ sender now tx w',
       (∀ i p, tx ≠ RepayLoan i p) → execute sender now tx w = Ok w' →
       ∀ i, LoanAgreement.amountPaid (getAgreement i w')
            ≤ LoanAgreement.amountPaid (getAgreement i w)).
Proof.
  intros Hr. pose proof (reachable_lending_ok w Hr) as Hok.
  pose proof Hok as (_ & _ & _ & Hag).
  split; [|split; [|split]].
  - intros i. apply (Hag i).
  - intros s now i p Hp.
    destruct (repayLoan s now i p w) as [w'|] eqn:He; [|done].
    apply repayLoan_effect in He as (_ & _ & Hpos & Hle & _). lia.
  - intros s now i p w' He.
    apply repayLoan_effect in He as (_ & _ & _ & _ & Htd & Hw). split; [done|].
    rewrite (agreement_written_lookup _ _ _ _ i Hw). rewrite decide_True by done.
    apply agreementAfterRepay_amountPaid.
  - intros s now tx w' Hne He i.
    destruct (execute_agreement_step s now tx w w' i Hok He) as [->|Hst]; [done|].
    eapply agreement_step_amountPaid; [apply Hag | exact Hst | exact Hne].
Qed.

(** C9. In every reachable world: [requestPaymentModification] accepts a
    [DueDateExtension] only with a value strictly greater than the current due
    date, and stores that value in a pending request without touching the due
    date; while the agreement stays pending no transaction changes its due date
    or the stored request; and an approving [respondToPaymentModification] sets
    the due date to exactly the stored value, which is strictly greater than
    the due date it replaces. *)
Theorem approved_extension_increases_due_date (w : World) :
  reachable w →
  (∀ sender i v w',
     requestPaymentModification sender i PaymentModificationType.DueDateExtension v w = Ok w' →
     LoanAgreement.dueDate (getAgreement i w) < v
     ∧ LoanAgreement.status (getAgreement i w') = LoanStatus.PendingModificationApproval
     ∧ LoanAgreement.requestedModificationValue (getAgreement i w') = v
     ∧ LoanAgreement.dueDate (getAgreement i w') = LoanAgreement.dueDate (getAgreement i w))
  ∧ (∀ sender now tx w' i,
       execute sender now tx w = Ok w' →
       LoanAgreement.status (getAgreement i w) = LoanStatus.PendingModificationApproval →
       LoanAgreement.status (getAgreement i w') = LoanStatus.PendingModificationApproval →
       LoanAgreement.dueDate (getAgreement i w') = LoanAgreement.dueDate (getAgreement i w)
       ∧ LoanAgreement.requestedModificationType (getAgreement i w')
         = LoanAgreement.requestedModificationType (getAgreement i w)
       ∧ LoanAgreement.requestedModificationValue (getAgreement i w')
         = LoanAgreement.requestedModificationValue (getAgreement i w))
  ∧ (∀ sender now i w',
       respondToPaymentModification sender now i true w = Ok w' →
       LoanAgreement.requestedModificationType (getAgreement i w)
       = PaymentModificationType.DueDateExtension →
       LoanAgreement.dueDate (getAgreement i w')
       = LoanAgreement.requestedModificationValue (getAgreement i w)
       ∧ LoanAgreement.dueDate (getAgreement i w) < LoanAgreement.dueDate (getAgreement i w')).
Proof.
  intros Hr. pose proof (reachable_lending_ok w Hr) as Hok.
  pose proof Hok as (_ & _ & _ & Hag).
  split; [|split].
  - intros s i v w' He.
    apply requestPaymentModification_effect in He as (_ & _ & _ & Hv & Hw).
    rewrite (agreement_written_lookup _ _ _ _ i Hw). rewrite decide_True by done.
    split; [by apply Hv|]. done.
  - intros s now tx w' i He Hs Hs'.
    destruct (execute_agreement_step s now tx w w' i Hok He) as [->|Hst]; [done|].
    by eapply agreement_step_pending.
  - intros s now i w' He Hty.
    apply respondToPaymentModification_effect in He as (_ & Hs & Hw).
    rewrite (agreement_written_lookup _ _ _ _ i Hw). rewrite decide_True by done.
    destruct (Hag i) as (_ & _ & _ & Hpend & _).
    unfold agreementAfterResponse. fold (getAgreement i w) in Hpend. rewrite Hty. simpl.
    split; [done|]. by apply Hpend.
Qed.

(** C5. In every reachable world, a repayment that settles the agreement
    (the stored status becomes [Repaid]) classifies the payment by the
    first matching rule of the specification, applied to the block timestamp,
    the due date at that moment and the modification type and approval flag
    read before the payment: the outcome computed by the code equals
    [firstMatchOutcome], and the final world is the one Reputation returns when
    [recordLoanPaymentOutcome] is called by the Lending contract with that
    outcome. *)
Theorem settling_repayment_outcome_is_first_match (w : World) :
  reachable w →
  ∀ sender now i p w',
    repayLoan sender now i p w = Ok w' →
    LoanAgreement.status (getAgreement i w') = LoanStatus.Repaid →
    let a := getAgreement i w in
    let outcome :=
      firstMatchOutcome now (LoanAgreement.dueDate a)
        (LoanAgreement.requestedModificationType a)
        (LoanAgreement.modificationApprovedByLender a) in
    settlementOutcome now (LoanAgreement.dueDate a)
      (LoanAgreement.requestedModificationType a)
      (LoanAgreement.modificationApprovedByLender a) = outcome
    ∧ outcome ≠ PaymentOutcomeType.None ∧ outcome ≠ PaymentOutcomeType.Defaulted
    ∧ ∃ w1 w2,
        recordLoanPaymentOutcome (lendingAddress w) i (LoanAgreement.borrower a)
          (LoanAgreement.lender a) (LoanAgreement.principalAmount a) outcome
          (LoanAgreement.requestedModificationType a)
          (LoanAgreement.modificationApprovedByLender a) w1 = Ok w2
        ∧ w' = writeAgreement i
                 (LoanAgreement.set_status LoanStatus.Repaid (getAgreement i w2)) w2.
Proof.
  intros Hr sender now i p w' He Hst a outcome.
  pose proof (reachable_lending_ok w Hr) as (Hrep & _ & _ & Hag).
  pose proof (repayLoan_effect _ _ _ _ _ _ He) as (_ & Hs & _).
  destruct (Hag i) as (_ & _ & _ & _ & Happ). fold (getAgreement i w) in Happ. fold a in Happ, Hs.
  assert (settlementOutcome now (LoanAgreement.dueDate a)
            (LoanAgreement.requestedModificationType a)
            (LoanAgreement.modificationApprovedByLender a) = outcome) as Hout.
  { apply settlementOutcome_firstMatch. intros H1 H2.
    by apply (isRepayable_not_pending _ Hs), Happ. }
  split; [done|]. split; [|split].
  - unfold outcome, firstMatchOutcome. by repeat case_match.
  - unfold outcome, firstMatchOutcome. by repeat case_match.
  - rewrite <- Hout. by apply (repayLoan_settles sender now i p).
Qed.

(** ** Scenarios are reachable *)

Lemma reachable_play txs w :
  reachable w → Forall (λ '(_, now, tx), uint256 now ∧ well_typed tx) txs →
  reachable (play txs w).
Proof.
  intros Hr Hty. revert w Hr. induction Hty as [|[[s now] tx] txs [Hn Ht] _ IH]; intros w Hr.
  - done.
  - simpl. apply IH. by apply reachable_step.
Qed.

Lemma reachable_genesis : reachable Scenario.genesis.
Proof.
  apply (reachable_deploy Scenario.deployer Scenario.REP Scenario.P2PL Scenario.platform 0
           Scenario.funded).
  reflexivity.
Qed.

(** Closes a goal [uint256 _ ∧ well_typed _] on concrete values. *)
Ltac typed := vm_compute; intuition discriminate.

Lemma amount_paid_within_total_due_witness :
  let w := Scenario.world Scenario.S1_prefix in
  let i := Scenario.agreementId (100 * Scenario.e18) 7 in
  reachable w
  ∧ 0 ≤ LoanAgreement.amountPaid (getAgreement i w) ≤ totalDueOf (getAgreement i w)
  ∧ is_ok (repayLoan Scenario.B Scenario.t0 i (111 * Scenario.e18) w) = false.
Proof.
  intros w i.
  assert (reachable w) as Hr.
  { apply reachable_play; [apply reachable_genesis|]. repeat constructor; typed. }
  split; [exact Hr|].
  destruct (amount_paid_within_total_due w Hr) as (Hinv & Hrej & _).
  split; [apply Hinv|]. apply Hrej. right. vm_compute. reflexivity.
Defined.

Lemma approved_extension_increases_due_date_witness :
  let w := Scenario.world Scenario.S3_prefix in
  let i := Scenario.agreementId (70 * Scenario.e18) 7 in
  let now := Scenario.t0 + 6 * Scenario.day in
  let w' := commit w (respondToPaymentModification Scenario.L now i true w) in
  reachable w
  ∧ LoanAgreement.dueDate (getAgreement i w) = Scenario.t0 + 7 * Scenario.day
  ∧ LoanAgreement.dueDate (getAgreement i w') = Scenario.t0 + 14 * Scenario.day
  ∧ LoanAgreement.dueDate (getAgreement i w) < LoanAgreement.dueDate (getAgreement i w').
Proof.
  intros w i now w'.
  assert (reachable w) as Hr.
  { apply reachable_play; [apply reachable_genesis|]. repeat constructor; typed. }
  split; [exact Hr|]. split; [by vm_compute|].
  destruct (approved_extension_increases_due_date w Hr) as (_ & _ & Hresp).
  destruct (Hresp Scenario.L now i w') as [Heq Hlt].
  - vm_compute. reflexivity.
  - vm_compute. reflexivity.
  - split; [|exact Hlt]. rewrite Heq. vm_compute. reflexivity.
Defined.

Lemma settling_repayment_outcome_is_first_match_witness :
  let w := Scenario.world Scenario.S1_prefix in
  let i := Scenario.agreementId (100 * Scenario.e18) 7 in
  let now := Scenario.t0 + 6 * Scenario.day in
  let a := getAgreement i w in
  reachable w
  ∧ settlementOutcome now (LoanAgreement.dueDate a) (LoanAgreement.requestedModificationType a)
      (LoanAgreement.modificationApprovedByLender a)
    = firstMatchOutcome now (LoanAgreement.dueDate a) (LoanAgreement.requestedModificationType a)
        (LoanAgreement.modificationApprovedByLender a).
Proof.
  intros w i now a.
  assert (reachable w) as Hr.
  { apply reachable_play; [apply reachable_genesis|]. repeat constructor; typed. }
  split; [exact Hr|].
  refine (proj1 (settling_repayment_outcome_is_first_match w Hr Scenario.B now i
                   (110 * Scenario.e18)
                   (commit w (repayLoan Scenario.B now i (110 * Scenario.e18) w)) _ _)).
  - vm_compute. reflexivity.
  - vm_compute. reflexivity.
Defined.

Lemma only_lending_authority_mutates_reputation_witness :
  let w := Scenario.world [] in
  Scenario.V ≠ Reputation.p2pLendingContractAddress (reputation w)
  ∧ slashVouchAndReputation Scenario.V Scenario.L Scenario.B 1 Scenario.V w
    = Revert NOT_P2P_LENDING.
Proof.
  intros w.
  assert (Scenario.V ≠ Reputation.p2pLendingContractAddress (reputation w)) as Hne.
  { vm_compute. discriminate. }
  split; [exact Hne|].
  apply (only_lending_authority_mutates_reputation Scenario.V w Hne).
Defined.

Lemma registerUser_one_shot_witness :
  let w := Scenario.world [] in
  failsWith (registerUser Scenario.L Scenario.t0 "again" w) AlreadyRegistered
  ∧ is_ok (registerUser 400 Scenario.t0 "" w) = false
  ∧ ∃ w', registerUser 400 Scenario.t0 "newcomer" w = Ok w'
          ∧ getUserProfile 400 w' = (true, "newcomer", Scenario.t0)
          ∧ UserRegistry.registeredUsers (userRegistry w') = [Scenario.L; Scenario.B; Scenario.V; 400]
          ∧ getTotalUsers w' = 4.
Proof.
  intros w.
  destruct (registerUser_one_shot Scenario.L Scenario.t0 "again" w) as (Hreg & _).
  destruct (registerUser_one_shot 400 Scenario.t0 "" w) as (_ & Hname & _).
  destruct (registerUser_one_shot 400 Scenario.t0 "newcomer" w) as (_ & _ & Hok & _).
  split; [apply Hreg; by vm_compute|].
  split; [apply Hname; left; by vm_compute|].
  destruct Hok as (w' & He & Hp & Hl & Ht); [by vm_compute | by vm_compute | by vm_compute |].
  exists w'. split; [exact He|]. split; [exact Hp|]. split.
  - rewrite Hl. by vm_compute.
  - rewrite Ht. by vm_compute.
Defined.

(** ** One slash *)

(** The amount [handleP2PDefault] computes for a snapshot entry of stake [s]
    is the one of the specification, provided [s * 1000] fits in 256 bits. *)
Lemma slashAmountFor_spec s :
  0 < s → s * 1000 ≤ MAX_UINT256 →
  slashAmountFor s = Ok (s `min` (1 `max` (s * 1000 ÷ 10000))).
Proof.
  intros Hs Hfit. unfold slashAmountFor, checked_mul, tenPercentSlashBasis, BASIS_POINTS.
  rewrite (bool_decide_eq_true_2 (_ ≤ MAX_UINT256)) by done. simpl.
  rewrite Z.quot_div_nonneg by lia.
  assert (0 ≤ (s * 1000) `div` 10000) by (apply Z.div_pos; lia).
  f_equal. repeat (case_bool_decide; simpl in *); lia.
Qed.

Lemma getReputationProfile_writeProfile u p w :
  getReputationProfile u (writeProfile u p w) = p.
Proof. unfold getReputationProfile, writeProfile. simpl. apply lookup_total_insert_eq. Qed.

Lemma addScore_effect u d w w' :
  addScore u d w = Ok w' →
  let p := getReputationProfile u w in
  w' = writeProfile u
         (ReputationProfile.set_currentReputationScore
            (ReputationProfile.currentReputationScore p + d) p) w.
Proof.
  unfold addScore. intros H. ok_bind H as n Hn.
  apply checked_add_int_Ok in Hn as [-> _]. by ok_step H.
Qed.

Lemma increase_effect g s u v w w' :
  increase g s u v w = Ok w' →
  let p := getReputationProfile u w in w' = writeProfile u (s (g p + v) p) w.
Proof.
  unfold increase. intros H. ok_bind H as n Hn.
  apply checked_add_Ok in Hn as [-> _]. by ok_step H.
Qed.

Lemma decrease_effect g s u v w w' :
  decrease g s u v w = Ok w' →
  let p := getReputationProfile u w in w' = writeProfile u (s (g p - v) p) w.
Proof.
  unfold decrease. intros H. ok_bind H as n Hn.
  apply checked_sub_Ok in Hn as [-> _]. by ok_step H.
Qed.

Lemma token_transfer_effect t a b v w w' :
  token_transfer t a b v w = Ok w' →
  ∃ l, ERC20.transfer t a b v (tokens w) = Ok l ∧ w' = set_tokens l w.
Proof. unfold token_transfer. intros H. ok_bind H as l Hl. ok_step H. by exists l. Qed.

Lemma set_isActive_id (v : Vouch.t) :
  Vouch.isActive v = true → Vouch.set_isActive true v = v.
Proof. destruct v. simpl. by intros ->. Qed.

Lemma initialize_keeps u w :
  tokens (_initializeReputationProfileIfNotExists u w) = tokens w
  ∧ Reputation.activeVouches (reputation (_initializeReputationProfileIfNotExists u w))
    = Reputation.activeVouches (reputation w).
Proof. unfold _initializeReputationProfileIfNotExists. case_match; by split. Qed.

(** What one successful [slashVouchAndReputation] does: the amount leaves the
    stake of the vouch and the voucher's [vouchingStakeAmount] and is
    transferred from Reputation to the payee, the voucher's score drops by 20,
    [timesDefaultedAsVoucher] rises by one, and the vouch stays active exactly
    when some stake is left. *)
Lemma slashVouchAndReputation_effect sender voucher borrower amount payee w w' :
  slashVouchAndReputation sender voucher borrower amount payee w = Ok w' →
  let vouch := getVouchDetails voucher borrower w in
  let p := getReputationProfile voucher (_initializeReputationProfileIfNotExists voucher w) in
  let p' := getReputationProfile voucher w' in
  sender = Reputation.p2pLendingContractAddress (reputation w)
  ∧ Vouch.isActive vouch = true ∧ 0 < amount ≤ Vouch.stakedAmount vouch
  ∧ getVouchDetails voucher borrower w'
    = Vouch.set_isActive (negb (bool_decide (Vouch.stakedAmount vouch - amount = 0)))
        (Vouch.set_stakedAmount (Vouch.stakedAmount vouch - amount) vouch)
  ∧ ReputationProfile.currentReputationScore p'
    = ReputationProfile.currentReputationScore p - 20
  ∧ ReputationProfile.vouchingStakeAmount p' = ReputationProfile.vouchingStakeAmount p - amount
  ∧ ReputationProfile.timesDefaultedAsVoucher p'
    = ReputationProfile.timesDefaultedAsVoucher p + 1
  ∧ ERC20.transfer (Vouch.tokenAddress vouch) (reputationAddress w) payee amount (tokens w)
    = Ok (tokens w').
Proof.
  unfold slashVouchAndReputation. intros H. cbv zeta in H |- *.
  set (vouch := getVouchDetails voucher borrower w) in *.
  destruct (initialize_keeps voucher w) as [Htk0 Hav0].
  pose proof (initialize_frame voucher w) as (_ & _ & Hra0 & _).
  set (w0 := _initializeReputationProfileIfNotExists voucher w) in *.
  ok_require H as Hauth. apply bool_decide_eq_true in Hauth.
  ok_require H as Hact.
  ok_require H as Hle. apply bool_decide_eq_true in Hle.
  ok_require H as Hpos. apply bool_decide_eq_true in Hpos.
  ok_bind H as staked Hst. apply checked_sub_Ok in Hst as [-> _].
  set (vouch1 := Vouch.set_stakedAmount (Vouch.stakedAmount vouch - amount) vouch) in *.
  ok_bind H as w1 Hw1. apply addScore_effect in Hw1. cbv zeta in Hw1.
  assert (getReputationProfile voucher (writeVouch voucher borrower vouch1 w0)
          = getReputationProfile voucher w0) as Hp by done.
  rewrite Hp in Hw1. clear Hp.
  ok_bind H as w2 Hw2. apply decrease_effect in Hw2. cbv zeta in Hw2.
  ok_bind H as w3 Hw3. apply increase_effect in Hw3. cbv zeta in Hw3.
  ok_bind H as w4 Hw4. apply token_transfer_effect in Hw4 as (l & Hl & Hw4).
  subst w1. rewrite getReputationProfile_writeProfile in Hw2. subst w2.
  rewrite getReputationProfile_writeProfile in Hw3. subst w3. subst w4.
  simpl in Hl. rewrite Htk0, Hra0 in Hl.
  split; [done|]. split; [done|]. split; [lia|].
  replace (Vouch.stakedAmount vouch1) with (Vouch.stakedAmount vouch - amount) in H by done.
  destruct (bool_decide (Vouch.stakedAmount vouch - amount = 0)) eqn:Hz; ok_step H;
    unfold getVouchDetails, getReputationProfile; simpl;
    rewrite ?lookup_total_insert_eq; simpl.
  - done.
  - split; [|done]. symmetry. by apply set_isActive_id.
Qed.

(** ** The classifier on combinations no stored agreement exhibits *)

(** The code and the first-match rule differ on one combination of inputs:
    on time, approved, and no modification type. *)
Lemma settlementOutcome_without_type now due :
  now ≤ due →
  settlementOutcome now due PaymentModificationType.None true = PaymentOutcomeType.None
  ∧ firstMatchOutcome now due PaymentModificationType.None true
    = PaymentOutcomeType.OnTimeOriginal.
Proof.
  intros Hle. unfold settlementOutcome, firstMatchOutcome.
  by rewrite !(bool_decide_eq_true_2 (now ≤ due)) by done.
Qed.

(** ** Where the code departs from the specification *)

(** Evaluates a closed goal. *)
Ltac evaluate := vm_compute; first [reflexivity | done].

Lemma handleP2PDefault_requires_Active sender now i w :
  LoanAgreement.lender (getAgreement i w) ≠ 0 →
  LoanAgreement.status (getAgreement i w) ≠ LoanStatus.Active →
  handleP2PDefault sender now i w = Revert "P2PL: Loan not active for default".
Proof.
  intros Hl Hs. unfold handleP2PDefault.
  rewrite (bool_decide_eq_true_2 (LoanAgreement.lender _ ≠ 0)) by done. simpl.
  by rewrite (bool_decide_eq_false_2 (_ = LoanStatus.Active)).
Qed.

(** C1 (violated by the code). A loan of 100 DAI for 7 days receives a
    first repayment of 10 DAI on day 8 and becomes Overdue. On day 9 it is
    past its due date and less than the 110 DAI due has been paid, yet
    [handleP2PDefault] reverts for every caller, because it accepts the status
    Active only: an Overdue agreement can never be declared in default. *)
Theorem handleP2PDefault_rejects_overdue_loan :
  let w := Scenario.world Scenario.overdueLoan in
  let i := Scenario.agreementId (100 * Scenario.e18) 7 in
  let now := Scenario.t0 + 9 * Scenario.day in
  let a := getAgreement i w in
  Scenario.start Scenario.overdueLoan = Ok w
  ∧ LoanAgreement.status a = LoanStatus.Overdue
  ∧ LoanAgreement.dueDate a < now
  ∧ LoanAgreement.amountPaid a < totalDueOf a
  ∧ ∀ caller, handleP2PDefault caller now i w = Revert "P2PL: Loan not active for default".
Proof.
  intros w i now a. split; [vm_compute; reflexivity|].
  split; [by vm_compute|]. split; [by vm_compute|]. split; [by vm_compute|].
  intros caller. apply handleP2PDefault_requires_Active; by vm_compute.
Qed.

(** C2 (violated by the code). In scenario S5 the partial-payment agreement
    is approved and the agreed 30 DAI are paid, which clears the approval flag
    but leaves the modification type in place. The settling repayment of the
    remaining 69 DAI on day 5 therefore sees an unapproved request: it is
    classified [OnTimeOriginal], the borrower's score rises by 10 and the
    lender's by 5 (the specification says [PartialAgreementMetAndRepaid], 8
    and 4), and the lender is counted one rejected modification. *)
Theorem S5_settles_as_on_time_original :
  let w0 := Scenario.world Scenario.S5_prefix in
  let i := Scenario.agreementId (90 * Scenario.e18) 10 in
  let now := Scenario.t0 + 5 * Scenario.day in
  let a0 := getAgreement i w0 in
  let w := commit w0 (repayLoan Scenario.B now i (69 * Scenario.e18) w0) in
      Scenario.start Scenario.S5_prefix = Ok w0
      ∧ repayLoan Scenario.B now i (69 * Scenario.e18) w0 = Ok w
      ∧ LoanAgreement.status a0 = LoanStatus.Active
      ∧ LoanAgreement.amountPaid a0 = 30 * Scenario.e18
      ∧ LoanAgreement.modificationApprovedByLender a0 = false
      ∧ LoanAgreement.requestedModificationValue a0 = 0
      ∧ LoanAgreement.requestedModificationType a0
        = PaymentModificationType.PartialPaymentAgreement
      ∧ now ≤ LoanAgreement.dueDate a0
      ∧ LoanAgreement.status (getAgreement i w) = LoanStatus.Repaid
      ∧ log w = log w0 ++
          [ LoanRepayment i Scenario.B (69 * Scenario.e18) (99 * Scenario.e18) 0 LoanStatus.Repaid;
            LoanAgreementRepaid i;
            ReputationUpdated Scenario.B 10 "Loan repaid on time (original terms)";
            LoanTermOutcomeRecorded i Scenario.B 10 "Loan repaid on time (original terms)"
              PaymentOutcomeType.OnTimeOriginal;
            ReputationUpdated Scenario.L 5 "Loan lent and repaid on time (original terms)";
            LoanTermOutcomeRecorded i Scenario.L 5
              "Loan lent and repaid on time (original terms)"
              PaymentOutcomeType.OnTimeOriginal ]
      ∧ scoreOf Scenario.B w = scoreOf Scenario.B w0 + 10
      ∧ scoreOf Scenario.L w = scoreOf Scenario.L w0 + 5
      ∧ ReputationProfile.modificationsRejectedByLender (getReputationProfile Scenario.L w) = 1
      ∧ ReputationProfile.modificationsApprovedByLender (getReputationProfile Scenario.L w) = 0.
Proof.
  intros w0 i now a0 w. split; [vm_compute; reflexivity|].
  split; [vm_compute; reflexivity|].
  repeat (split; [evaluate|]). evaluate.
Qed.

(** C3 (violated by the code). In scenario S1 the borrower never requests a
    modification and repays in full on day 6. [acceptLoanOffer] stored the
    type [DueDateExtension], not [None], with the approval flag false, so
    [recordLoanPaymentOutcome] takes the branch of a rejected modification and
    the lender's [modificationsRejectedByLender] goes from 0 to 1. *)
Theorem unmodified_loan_counts_a_rejected_modification :
  let w0 := Scenario.world Scenario.S1_prefix in
  let i := Scenario.agreementId (100 * Scenario.e18) 7 in
  let now := Scenario.t0 + 6 * Scenario.day in
  let w := commit w0 (repayLoan Scenario.B now i (110 * Scenario.e18) w0) in
      Scenario.start Scenario.S1_prefix = Ok w0
      ∧ repayLoan Scenario.B now i (110 * Scenario.e18) w0 = Ok w
      ∧ (∀ b m v, PaymentModificationRequested i b m v ∉ log w0)
      ∧ LoanAgreement.requestedModificationType (getAgreement i w0)
        = PaymentModificationType.DueDateExtension
      ∧ LoanAgreement.modificationApprovedByLender (getAgreement i w0) = false
      ∧ LoanAgreement.status (getAgreement i w) = LoanStatus.Repaid
      ∧ ReputationProfile.modificationsRejectedByLender (getReputationProfile Scenario.L w0) = 0
      ∧ ReputationProfile.modificationsRejectedByLender (getReputationProfile Scenario.L w) = 1
      ∧ ReputationProfile.modificationsApprovedByLender (getReputationProfile Scenario.L w)
        = ReputationProfile.modificationsApprovedByLender (getReputationProfile Scenario.L w0).
Proof.
  intros w0 i now w. split; [vm_compute; reflexivity|].
  split; [vm_compute; reflexivity|]. split.
  { intros b m v Hin. vm_compute in Hin.
    repeat (apply elem_of_cons in Hin as [Hin|Hin]; [discriminate Hin|]).
    by apply elem_of_nil in Hin. }
  repeat (split; [evaluate|]). evaluate.
Qed.

(** C4 (violated by the code). The voucher stakes 100 DAI for the borrower,
    withdraws the vouch and stakes 100 DAI again. The borrower's received
    history then holds two entries for the pair, both of which
    [getActiveVouchesForBorrower] resolves to the one active record: the
    snapshot lists the pair twice, and a single [handleP2PDefault] slashes the
    voucher's vouch twice. *)
Theorem snapshot_lists_revouched_pair_twice :
  let w := Scenario.world (Scenario.revouchedLoan (100 * Scenario.e18)) in
  let i := Scenario.agreementId (100 * Scenario.e18) 7 in
  let v := Vouch.mk Scenario.V Scenario.B Scenario.DAI (100 * Scenario.e18) true in
  let w' := commit w (handleP2PDefault Scenario.L (Scenario.t0 + 8 * Scenario.day) i w) in
      Scenario.start (Scenario.revouchedLoan (100 * Scenario.e18)) = Ok w
      ∧ getVouchDetails Scenario.V Scenario.B w = v
      ∧ getActiveVouchesForBorrower Scenario.B w = [v; v]
      ∧ ¬ NoDup (pairOf <$> getActiveVouchesForBorrower Scenario.B w)
      ∧ handleP2PDefault Scenario.L (Scenario.t0 + 8 * Scenario.day) i w = Ok w'
      ∧ log w' = log w ++
          [ LoanAgreementDefaulted i;
            ReputationUpdated Scenario.B (-50) "Loan defaulted";
            VouchSlashed Scenario.V Scenario.B (10 * Scenario.e18) Scenario.L;
            ReputationUpdated Scenario.V (-20) "Vouched loan defaulted, stake slashed";
            VouchSlashed Scenario.V Scenario.B (10 * Scenario.e18) Scenario.L;
            ReputationUpdated Scenario.V (-40) "Vouched loan defaulted, stake slashed" ].
Proof.
  intros w i v w'. split; [vm_compute; reflexivity|].
  split; [vm_compute; reflexivity|]. split; [vm_compute; reflexivity|]. split.
  { intros Hnd. vm_compute in Hnd. apply NoDup_cons in Hnd as [Hnin _].
    apply Hnin. apply list_elem_of_here. }
  split; vm_compute; reflexivity.
Qed.

(** C6 (violated by the code). With a stake [s] of 50 DAI placed, withdrawn
    and placed again, the borrower has one active vouch with stake [s], for which
    [min(s, max(1, s * 1000 / 10_000))] is 5 DAI. One [handleP2PDefault] takes
    that amount twice: the stake and the voucher's [vouchingStakeAmount] drop by
    10 DAI, the lender receives 10 DAI, the voucher's score drops by 40 and
    [timesDefaultedAsVoucher] rises by 2. *)
Theorem revouched_stake_is_slashed_twice :
  let s := 50 * Scenario.e18 in
  let w := Scenario.world (Scenario.revouchedLoan s) in
  let i := Scenario.agreementId (100 * Scenario.e18) 7 in
  let w' := commit w (handleP2PDefault Scenario.L (Scenario.t0 + 8 * Scenario.day) i w) in
  let slash := s `min` (1 `max` (s * 1000 ÷ 10000)) in
  let before := getReputationProfile Scenario.V w in
  let after := getReputationProfile Scenario.V w' in
      Scenario.start (Scenario.revouchedLoan s) = Ok w
      ∧ handleP2PDefault Scenario.L (Scenario.t0 + 8 * Scenario.day) i w = Ok w'
      ∧ getVouchDetails Scenario.V Scenario.B w
        = Vouch.mk Scenario.V Scenario.B Scenario.DAI s true
      ∧ slashAmountFor s = Ok slash
      ∧ slash = 5 * Scenario.e18
      ∧ getVouchDetails Scenario.V Scenario.B w'
        = Vouch.mk Scenario.V Scenario.B Scenario.DAI (s - 2 * slash) true
      ∧ ReputationProfile.vouchingStakeAmount after
        = ReputationProfile.vouchingStakeAmount before - 2 * slash
      ∧ ERC20.balanceOf Scenario.DAI Scenario.L (tokens w')
        = ERC20.balanceOf Scenario.DAI Scenario.L (tokens w) + 2 * slash
      ∧ ERC20.balanceOf Scenario.DAI Scenario.REP (tokens w')
        = ERC20.balanceOf Scenario.DAI Scenario.REP (tokens w) - 2 * slash
      ∧ ReputationProfile.currentReputationScore after
        = ReputationProfile.currentReputationScore before - 40
      ∧ ReputationProfile.timesDefaultedAsVoucher after
        = ReputationProfile.timesDefaultedAsVoucher before + 2.
Proof.
  intros s w i w' slash before after. split; [vm_compute; reflexivity|].
  split; [vm_compute; reflexivity|].
  repeat (split; [evaluate|]). evaluate.
Qed.

(** * Further properties *)

(** ** The user registry *)

Lemma execute_userRegistry s now tx w w' :
  execute s now tx w = Ok w' →
  match tx with
  | RegisterUser n => registerUser s now n w = Ok w'
  | UpdateProfile n => updateProfile s n w = Ok w'
  | _ => userRegistry w' = userRegistry w
  end.
Proof.
  intros H. destruct tx; simpl in H; try exact H.
  - by apply setP2PLendingContractAddress_frame in H as (? & _).
  - by apply transferOwnership_Reputation_frame in H as (? & _).
  - by apply renounceOwnership_Reputation_frame in H as (? & _).
  - by apply recordLoanPaymentOutcome_frame in H as (? & _).
  - by apply updateReputationOnLoanDefault_frame in H as (? & _).
  - by apply addVouch_frame in H as (? & _).
  - by apply removeVouch_frame in H as (? & _).
  - by apply slashVouchAndReputation_frame in H as (? & _).
  - unfold setReputationContractAddress in H.
    ok_require H as Ho. ok_require H as Hn. by ok_step H.
  - unfold setReputationOAppAddress in H. ok_require H as Ho.
    by case_bool_decide; ok_step H.
  - unfold setPythAddress in H. ok_require H as Ho. discriminate.
  - unfold transferOwnership_P2PL in H.
    ok_require H as Ho. ok_require H as Hn. by ok_step H.
  - unfold renounceOwnership_P2PL in H. ok_require H as Ho. by ok_step H.
  - apply worldOf_Ok in H as [i H].
    by apply createLoanOffer_effect in H as (_ & ? & _).
  - apply worldOf_Ok in H as [i H].
    by apply createLoanRequest_effect in H as (_ & ? & _).
  - apply worldOf_Ok in H as [i H].
    by apply acceptLoanOffer_effect in H as (due & ? & _).
  - apply worldOf_Ok in H as [i H].
    by apply fundLoanRequest_effect in H as (due & ? & _).
  - by apply repayLoan_effect in H as (_ & _ & _ & _ & _ & ? & _).
  - by apply handleP2PDefault_effect in H as (_ & _ & _ & ? & _).
  - by apply requestPaymentModification_effect in H as (_ & _ & _ & _ & ? & _).
  - by apply respondToPaymentModification_effect in H as (_ & _ & ? & _).
  - ok_bind H as l Hl. by ok_step H.
  - by apply token_transfer_frame in H as (? & _).
  - by apply token_transferFrom_frame in H as (? & _).
Qed.

Lemma registerUser_effect s now n w w' :
  registerUser s now n w = Ok w' →
  isUserRegistered s w = false ∧ 0 < nameLength n ≤ 50
  ∧ w' = emit (UserRegistered s n now)
           (set_userRegistry
              (UserRegistry.mk
                 (<[s := UserProfile.mk true n now]> (UserRegistry.userProfiles (userRegistry w)))
                 (UserRegistry.registeredUsers (userRegistry w) ++ [s])
                 (UserRegistry.totalUsers (userRegistry w) + 1)) w).
Proof.
  unfold registerUser. intros H.
  ok_require H as Hr. apply negb_true_iff in Hr.
  ok_require H as H1. apply bool_decide_eq_true in H1.
  ok_require H as H2. apply bool_decide_eq_true in H2.
  ok_bind H as t Ht. apply checked_add_Ok in Ht as [-> _]. ok_step H.
  split; [done|]. split; [lia|done].
Qed.

Lemma updateProfile_effect s n w w' :
  updateProfile s n w = Ok w' →
  isUserRegistered s w = true ∧ 0 < nameLength n ≤ 50
  ∧ w' = emit (UserProfileUpdated s n)
           (set_userRegistry
              (UserRegistry.mk
                 (<[s := UserProfile.set_name n (UserRegistry.userProfiles (userRegistry w) !!! s)]>
                    (UserRegistry.userProfiles (userRegistry w)))
                 (UserRegistry.registeredUsers (userRegistry w))
                 (UserRegistry.totalUsers (userRegistry w))) w).
Proof.
  unfold updateProfile. intros H.
  ok_require H as Hr.
  ok_require H as H1. apply bool_decide_eq_true in H1.
  ok_require H as H2. apply bool_decide_eq_true in H2.
  ok_step H. split; [done|]. split; [lia|done].
Qed.

Lemma registry_ok_register s now n w w' :
  registerUser s now n w = Ok w' → registry_ok (userRegistry w) → registry_ok (userRegistry w').
Proof.
  intros H (Ht & Hnd & Hin). apply registerUser_effect in H as (Hr & _ & ->).
  unfold isUserRegistered in Hr. unfold registry_ok. simpl.
  split; [|split].
  - rewrite length_app. simpl. lia.
  - apply NoDup_app. split; [done|]. split; [|apply NoDup_singleton].
    intros u Hu ->%list_elem_of_singleton. apply Hin in Hu. congruence.
  - intros u. rewrite elem_of_app, list_elem_of_singleton.
    destruct (decide (s = u)) as [->|Hne].
    + rewrite lookup_total_insert_eq. simpl. split; [done | by right].
    + rewrite lookup_total_insert_ne by done. rewrite Hin.
      split; [by intros [?|?] | by left].
Qed.

Lemma registry_ok_update s n w w' :
  updateProfile s n w = Ok w' → registry_ok (userRegistry w) → registry_ok (userRegistry w').
Proof.
  intros H (Ht & Hnd & Hin). apply updateProfile_effect in H as (Hr & _ & ->).
  unfold isUserRegistered in Hr. unfold registry_ok. simpl.
  split; [done|]. split; [done|].
  intros u. destruct (decide (s = u)) as [->|Hne].
  - rewrite lookup_total_insert_eq. simpl. rewrite Hin. by rewrite Hr.
  - rewrite lookup_total_insert_ne by done. apply Hin.
Qed.

Lemma reachable_registry_ok w : reachable w → registry_ok (userRegistry w).
Proof.
  induction 1 as [d ra la pw oapp tk w Hd | w s now tx Hr IH Hnow Hty | w tk Hr IH].
  - unfold deploy in Hd. repeat ok_step Hd. unfold registry_ok. simpl.
    split; [done|]. split; [apply NoDup_nil_2|].
    intros u. rewrite lookup_total_empty. simpl. split; [by intros ?%elem_of_nil|done].
  - destruct (execute s now tx w) as [w'|] eqn:He; simpl; [|done].
    apply execute_userRegistry in He. destruct tx; try (by rewrite He).
    + by eapply registry_ok_register.
    + by eapply registry_ok_update.
  - exact IH.
Qed.

(** X1. In every reachable world [totalUsers] is the length of
    [registeredUsers], the list holds no address twice, and an address is in
    the list exactly when [isUserRegistered] answers true for it. *)
Theorem registry_lists_each_registered_user_once (w : World) :
  reachable w →
  getTotalUsers w = Z.of_nat (length (UserRegistry.registeredUsers (userRegistry w)))
  ∧ NoDup (UserRegistry.registeredUsers (userRegistry w))
  ∧ ∀ u, u ∈ UserRegistry.registeredUsers (userRegistry w) ↔ isUserRegistered u w = true.
Proof. intros Hr. apply (reachable_registry_ok w Hr). Qed.

(** X2. In every reachable world [getRegisteredUser] returns a registered
    address for every index below [getTotalUsers], reverts with the
    out-of-bounds reason for every index from [getTotalUsers] on, and returns
    different addresses for different indices. *)
Theorem getRegisteredUser_within_bounds (w : World) :
  reachable w →
  (∀ i, 0 ≤ i < getTotalUsers w →
        ∃ a, getRegisteredUser i w = Ok a ∧ isUserRegistered a w = true)
  ∧ (∀ i, getTotalUsers w ≤ i →
          getRegisteredUser i w = Revert "UserRegistry: Index out of bounds")
  ∧ (∀ i j a, 0 ≤ i → 0 ≤ j →
              getRegisteredUser i w = Ok a → getRegisteredUser j w = Ok a → i = j).
Proof.
  intros Hr. destruct (reachable_registry_ok w Hr) as (Ht & Hnd & Hin).
  unfold getTotalUsers, getRegisteredUser, isUserRegistered.
  split; [|split].
  - intros i [H0 Hlt]. rewrite bool_decide_eq_true_2 by done. simpl.
    destruct (lookup_lt_is_Some_2 (UserRegistry.registeredUsers (userRegistry w)) (Z.to_nat i))
      as [a Ha]; [lia|].
    rewrite Ha. exists a. split; [done|]. apply Hin. by eapply list_elem_of_lookup_2.
  - intros i Hle. by rewrite bool_decide_eq_false_2 by lia.
  - intros i j a Hi Hj Ei Ej.
    ok_require Ei as Bi. ok_require Ej as Bj.
    destruct (UserRegistry.registeredUsers (userRegistry w) !! Z.to_nat i) as [x|] eqn:Li;
      [|discriminate].
    destruct (UserRegistry.registeredUsers (userRegistry w) !! Z.to_nat j) as [y|] eqn:Lj;
      [|discriminate].
    injection Ei as ->. injection Ej as ->.
    pose proof (NoDup_lookup _ _ _ _ Hnd Li Lj). lia.
Qed.

(** X3. [updateProfile] reverts for an unregistered caller, then for an
    empty name, then for a name of more than 50 bytes, with the reasons of the
    source. Otherwise it succeeds: the caller's name is replaced and the
    registration time kept, no other profile changes, nor the list or the
    count of users, nor anything in Reputation, in Lending or in the token
    ledger, and one [UserProfileUpdated] is logged. *)
Theorem updateProfile_renames_only_the_caller (sender : address) (_newName : string) (w : World) :
  (isUserRegistered sender w = false →
   updateProfile sender _newName w = Revert "UserRegistry: User not registered")
  ∧ (isUserRegistered sender w = true → nameLength _newName = 0 →
     updateProfile sender _newName w = Revert "UserRegistry: Name cannot be empty")
  ∧ (isUserRegistered sender w = true → 50 < nameLength _newName →
     updateProfile sender _newName w = Revert "UserRegistry: Name too long")
  ∧ (isUserRegistered sender w = true → 0 < nameLength _newName ≤ 50 →
     ∃ w', updateProfile sender _newName w = Ok w'
           ∧ getUserProfile sender w'
             = (true, _newName,
                UserProfile.registrationTime
                  (UserRegistry.userProfiles (userRegistry w) !!! sender))
           ∧ (∀ u, u ≠ sender → getUserProfile u w' = getUserProfile u w)
           ∧ UserRegistry.registeredUsers (userRegistry w')
             = UserRegistry.registeredUsers (userRegistry w)
           ∧ getTotalUsers w' = getTotalUsers w
           ∧ reputation w' = reputation w ∧ lending w' = lending w ∧ tokens w' = tokens w
           ∧ log w' = log w ++ [UserProfileUpdated sender _newName]).
Proof.
  unfold updateProfile, nameLength.
  split; [|split; [|split]].
  - by intros ->.
  - intros -> Hn. simpl. by rewrite (bool_decide_eq_false_2 (_ > 0)) by lia.
  - intros -> Hn. simpl. rewrite (bool_decide_eq_true_2 (_ > 0)) by lia. simpl.
    by rewrite (bool_decide_eq_false_2 (_ ≤ 50)) by lia.
  - intros Hr Hn. rewrite Hr. simpl.
    rewrite (bool_decide_eq_true_2 (_ > 0)), (bool_decide_eq_true_2 (_ ≤ 50)) by lia. simpl.
    eexists. split; [reflexivity|].
    unfold getUserProfile, getTotalUsers, isUserRegistered in *. simpl.
    rewrite lookup_total_insert_eq. simpl. rewrite Hr.
    split; [done|]. split; [|done].
    intros u Hne. by rewrite lookup_total_insert_ne.
Qed.

Lemma updateProfile_renames_only_the_caller_witness :
  let w := Scenario.world [] in
  updateProfile 400 "nobody" w = Revert "UserRegistry: User not registered"
  ∧ updateProfile Scenario.L EmptyString w = Revert "UserRegistry: Name cannot be empty"
  ∧ ∃ w', updateProfile Scenario.L "uncle" w = Ok w'
          ∧ getUserProfile Scenario.L w' = (true, "uncle", Scenario.t0)
          ∧ getUserProfile Scenario.B w' = (true, "borrower", Scenario.t0).
Proof.
  intros w.
  destruct (updateProfile_renames_only_the_caller 400 "nobody" w) as (Hnot & _).
  destruct (updateProfile_renames_only_the_caller Scenario.L EmptyString w) as (_ & Hempty & _).
  destruct (updateProfile_renames_only_the_caller Scenario.L "uncle" w) as (_ & _ & _ & Hok).
  split; [apply Hnot; by vm_compute|].
  split; [apply Hempty; by vm_compute|].
  destruct Hok as (w' & He & Hp & Hother & _); [by vm_compute | by vm_compute |].
  exists w'. split; [exact He|]. split.
  - rewrite Hp. by vm_compute.
  - rewrite Hother by (by vm_compute). by vm_compute.
Defined.

(** X4. Whatever transaction anyone sends, committed or reverted, the
    profile of a registered user stays as it is unless the user sends
    [updateProfile], and then only the name changes: a registration is never
    undone and its time never moves. *)
Theorem profile_changes_only_by_its_owner (u sender : address) (now : Z) (tx : Tx) (w : World) :
  isUserRegistered u w = true →
  let w' := commit w (execute sender now tx w) in
  getUserProfile u w' = getUserProfile u w
  ∨ (sender = u ∧ ∃ n, tx = UpdateProfile n
                       ∧ getUserProfile u w'
                         = (true, n, UserProfile.registrationTime
                                       (UserRegistry.userProfiles (userRegistry w) !!! u))).
Proof.
  intros Hu w'. subst w'.
  destruct (execute sender now tx w) as [w'|] eqn:He; simpl; [|by left].
  apply execute_userRegistry in He. unfold getUserProfile.
  destruct tx; try (left; by rewrite He).
  - left. apply registerUser_effect in He as (Hr & _ & ->). simpl.
    rewrite lookup_total_insert_ne; [done|]. intros ->. congruence.
  - apply updateProfile_effect in He as (Hr & _ & ->). simpl.
    destruct (decide (sender = u)) as [->|Hne].
    + right. split; [done|]. exists _newName. split; [done|].
      rewrite lookup_total_insert_eq. simpl. unfold isUserRegistered in Hu. by rewrite Hu.
    + left. by rewrite lookup_total_insert_ne.
Qed.

Lemma profile_changes_only_by_its_owner_witness :
  let w := Scenario.world [] in
  let w' := commit w (execute Scenario.B Scenario.t0 (UpdateProfile "intruder") w) in
  getUserProfile Scenario.L w' = (true, "lender", Scenario.t0).
Proof.
  intros w w'.
  destruct (profile_changes_only_by_its_owner Scenario.L Scenario.B Scenario.t0
              (UpdateProfile "intruder") w) as [Heq|[Hs _]].
  - by vm_compute.
  - subst w'. rewrite Heq. by vm_compute.
  - exfalso. vm_compute in Hs. discriminate Hs.
Defined.

Lemma registry_lists_each_registered_user_once_witness :
  let w := Scenario.world [] in
  reachable w ∧ getTotalUsers w = 3
  ∧ (400 ∈ UserRegistry.registeredUsers (userRegistry w) ↔ isUserRegistered 400 w = true).
Proof.
  intros w.
  assert (reachable w) as Hr.
  { apply reachable_play; [apply reachable_genesis|]. repeat constructor; typed. }
  split; [exact Hr|].
  destruct (registry_lists_each_registered_user_once w Hr) as (Ht & _ & Hin).
  split; [rewrite Ht; by vm_compute | apply Hin].
Defined.

Lemma getRegisteredUser_within_bounds_witness :
  let w := Scenario.world [] in
  reachable w
  ∧ (∃ a, getRegisteredUser 2 w = Ok a ∧ isUserRegistered a w = true)
  ∧ getRegisteredUser 3 w = Revert "UserRegistry: Index out of bounds".
Proof.
  intros w.
  assert (reachable w) as Hr.
  { apply reachable_play; [apply reachable_genesis|]. repeat constructor; typed. }
  split; [exact Hr|].
  destruct (getRegisteredUser_within_bounds w Hr) as (Hin & Hout & _).
  split; [apply Hin; by vm_compute | apply Hout; by vm_compute].
Defined.

(** ** The calls of the agreement lifecycle *)

Lemma set_status_twice s s' a :
  LoanAgreement.set_status s (LoanAgreement.set_status s' a) = LoanAgreement.set_status s a.
Proof. by destruct a. Qed.

Lemma writeAgreement_twice i a b w :
  writeAgreement i b (writeAgreement i a w) = writeAgreement i b w.
Proof.
  destruct w as [ra la ur rp l tk lg]. destruct l.
  unfold writeAgreement, set_lending, P2PLending.set_loanAgreements. simpl.
  by rewrite insert_insert_eq.
Qed.

(** The calls a successful [repayLoan] makes, in order. *)
Lemma repayLoan_inv s now i p w w' :
  repayLoan s now i p w = Ok w' →
  let a := getAgreement i w in
  let a' := agreementAfterRepay now p (totalDueOf a) a in
  let paid := LoanAgreement.amountPaid a + p in
  ∃ w1,
    token_transferFrom (LoanAgreement.loanToken a) (lendingAddress w) s
      (LoanAgreement.lender a) p w = Ok w1
    ∧ let w2 := emit (LoanRepayment i s p paid
                        (if bool_decide (totalDueOf a ≤ paid) then 0 else totalDueOf a - paid)
                        (LoanAgreement.status a'))
                  (writeAgreement i (LoanAgreement.set_status (LoanAgreement.status a) a') w1) in
      if bool_decide (LoanAgreement.status a' = LoanStatus.Repaid) then
        ∃ w3 w4,
          (if bool_decide (LoanAgreement.collateralAmount a > 0)
              && bool_decide (LoanAgreement.collateralToken a ≠ 0)
           then token_transfer (LoanAgreement.collateralToken a) (lendingAddress w)
                  (LoanAgreement.borrower a) (LoanAgreement.collateralAmount a)
                  (emit (LoanAgreementRepaid i) w2)
           else Ok (emit (LoanAgreementRepaid i) w2)) = Ok w3
          ∧ (if bool_decide (P2PLending.reputationContract (lending w) ≠ 0)
             then recordLoanPaymentOutcome (lendingAddress w) i (LoanAgreement.borrower a)
                    (LoanAgreement.lender a) (LoanAgreement.principalAmount a)
                    (settlementOutcome now (LoanAgreement.dueDate a)
                       (LoanAgreement.requestedModificationType a)
                       (LoanAgreement.modificationApprovedByLender a))
                    (LoanAgreement.requestedModificationType a)
                    (LoanAgreement.modificationApprovedByLender a) w3
             else Ok w3) = Ok w4
          ∧ w' = writeAgreement i a' w4
      else w' = writeAgreement i a' w2.
Proof.
  unfold repayLoan. intros H. cbv zeta in H |- *.
  set (a := getAgreement i w) in *.
  ok_require H as Hb. apply bool_decide_eq_true in Hb.
  ok_require H as Hs.
  ok_require H as Hp. apply bool_decide_eq_true in Hp.
  ok_bind H as td Htd. pose proof (calculateTotalDue_spec _ _ Htd) as ->.
  ok_bind H as rem Hrem. apply checked_sub_Ok in Hrem as [-> ?].
  ok_require H as Hle. apply bool_decide_eq_true in Hle.
  ok_bind H as w1 Hw1. exists w1. split; [done|].
  pose proof (token_transferFrom_frame _ _ _ _ _ _ _ Hw1) as (? & Hl1 & ? & Hla1).
  ok_bind H as paid Hpaid. apply checked_add_Ok in Hpaid as [-> ?].
  match type of H with
  | (let '(_, _) := ?c in _) = _ => destruct c as [ag ns] eqn:Hpair
  end.
  assert (LoanAgreement.set_status ns ag = agreementAfterRepay now p (totalDueOf a) a
          ∧ LoanAgreement.set_status (LoanAgreement.status a) ag = ag
          ∧ LoanAgreement.borrower ag = LoanAgreement.borrower a
          ∧ LoanAgreement.lender ag = LoanAgreement.lender a
          ∧ LoanAgreement.principalAmount ag = LoanAgreement.principalAmount a
          ∧ LoanAgreement.dueDate ag = LoanAgreement.dueDate a
          ∧ LoanAgreement.collateralAmount ag = LoanAgreement.collateralAmount a
          ∧ LoanAgreement.collateralToken ag = LoanAgreement.collateralToken a)
    as (Hag & Hold & Eb & El & Ep & Ed & Eca & Ect).
  { unfold agreementAfterRepay. simpl in Hpair. destruct a.
    repeat case_bool_decide; by injection Hpair as <- <-. }
  assert (LoanAgreement.status (agreementAfterRepay now p (totalDueOf a) a) = ns) as Hns.
  { rewrite <- Hag. by destruct ag. }
  assert (LoanAgreement.set_status (LoanAgreement.status a)
            (agreementAfterRepay now p (totalDueOf a) a) = ag) as Hag'.
  { rewrite <- Hag, set_status_twice. exact Hold. }
  rewrite Hns, Hag'.
  ok_bind H as w2 Hw2. injection H as <-.
  destruct (bool_decide (ns = LoanStatus.Repaid)) eqn:Hrep.
  - ok_bind Hw2 as w3 Hw3.
    assert (frame (writeAgreement i ag w1) w3) as (? & Hl3 & ? & Hla3).
    { destruct (_ && _); [|ok_step Hw3]; frame_solve. }
    exists w3, w2. rewrite Eb, El, Ep, Ed, Eca, Ect in *. simpl in Hw3. rewrite Hla1 in Hw3.
    split; [exact Hw3|].
    assert (P2PLending.reputationContract (lending w3)
            = P2PLending.reputationContract (lending w)) as Hrc.
    { rewrite Hl3. simpl. by rewrite Hl1. }
    rewrite Hrc, Hla3 in Hw2. simpl in Hw2. rewrite Hla1 in Hw2.
    split; [exact Hw2|].
    assert (getAgreement i w2 = ag) as ->.
    { assert (lending w2 = lending w3) as Hl23.
      { destruct (bool_decide (P2PLending.reputationContract (lending w) ≠ 0));
          [by apply recordLoanPaymentOutcome_frame in Hw2 as (_ & ? & _) | by ok_step Hw2]. }
      unfold getAgreement. rewrite Hl23, Hl3. simpl. by rewrite lookup_total_insert_eq. }
    by rewrite Hag.
  - injection Hw2 as <-.
    replace (getAgreement i _) with ag
      by (unfold getAgreement; simpl; by rewrite lookup_total_insert_eq).
    rewrite Hag. destruct w1 as [ra la ur rp l tk lg]. destruct l.
    unfold emit, writeAgreement, set_lending, P2PLending.set_loanAgreements. simpl.
    by rewrite insert_insert_eq.
Qed.


(** X5. For a non-negative principal [p] and rate [r]: when [p * r] and
    the sum fit in 256 bits, [_calculateInterest] returns [p * r / 10000]
    rounded down, which loses less than one unit of interest, and
    [_calculateTotalDue] returns the principal plus that interest, never less
    than the principal; when one of them does not fit, [_calculateTotalDue]
    reverts with the arithmetic panic. *)
Theorem calculateTotalDue_rounds_interest_down (a : LoanAgreement.t) :
  let p := LoanAgreement.principalAmount a in
  let r := LoanAgreement.interestRateBPS a in
  0 ≤ p → 0 ≤ r →
  (p * r ≤ MAX_UINT256 → p + (p * r) `div` 10000 ≤ MAX_UINT256 →
   _calculateInterest p r = Ok ((p * r) `div` 10000)
   ∧ _calculateTotalDue a = Ok (p + (p * r) `div` 10000)
   ∧ p ≤ p + (p * r) `div` 10000
   ∧ 10000 * ((p * r) `div` 10000) ≤ p * r < 10000 * ((p * r) `div` 10000 + 1))
  ∧ (MAX_UINT256 < p * r ∨ MAX_UINT256 < p + (p * r) `div` 10000 →
     _calculateTotalDue a = Revert PANIC_ARITHMETIC).
Proof.
  intros p r Hp Hr.
  assert (0 ≤ p * r) as Hpr by lia.
  assert (0 ≤ (p * r) `div` 10000) as Hi by (apply Z.div_pos; lia).
  assert (_calculateInterest p r
          = if bool_decide (p * r ≤ MAX_UINT256) then Ok ((p * r) `div` 10000)
            else Revert PANIC_ARITHMETIC) as Hint.
  { unfold _calculateInterest, checked_mul, BASIS_POINTS.
    destruct (bool_decide (p = 0)) eqn:E1; simpl.
    { apply bool_decide_eq_true in E1. replace (p * r) with 0 by (rewrite E1; lia).
      by rewrite bool_decide_eq_true_2 by (unfold MAX_UINT256; lia). }
    destruct (bool_decide (r = 0)) eqn:E2; simpl.
    { apply bool_decide_eq_true in E2. replace (p * r) with 0 by (rewrite E2; lia).
      by rewrite bool_decide_eq_true_2 by (unfold MAX_UINT256; lia). }
    destruct (bool_decide (p * r ≤ MAX_UINT256)); simpl; [|done].
    by rewrite Z.quot_div_nonneg by lia. }
  unfold _calculateTotalDue. fold p r. rewrite Hint. unfold checked_add.
  split.
  - intros H1 H2. rewrite (bool_decide_eq_true_2 (p * r ≤ MAX_UINT256)) by done. simpl.
    rewrite bool_decide_eq_true_2 by done.
    split; [done|]. split; [done|]. split; [lia|].
    pose proof (Z.mul_div_le (p * r) 10000 ltac:(lia)).
    pose proof (Z.mul_succ_div_gt (p * r) 10000 ltac:(lia)). lia.
  - intros [H1|H2].
    + by rewrite (bool_decide_eq_false_2 (p * r ≤ MAX_UINT256)) by lia.
    + case_bool_decide; simpl; [|done]. by rewrite bool_decide_eq_false_2 by lia.
Qed.

Lemma calculateTotalDue_rounds_interest_down_witness :
  let a := getAgreement (Scenario.agreementId (100 * Scenario.e18) 7)
             (Scenario.world Scenario.S1_prefix) in
  _calculateTotalDue a = Ok (110 * Scenario.e18).
Proof.
  intros a.
  destruct (calculateTotalDue_rounds_interest_down a) as [Hok _]; [by vm_compute..|].
  destruct Hok as (_ & Htd & _); [by vm_compute..|].
  rewrite Htd. by vm_compute.
Defined.

(** X6. Once an agreement is Repaid or Defaulted, none of [repayLoan],
    [handleP2PDefault], [requestPaymentModification] and
    [respondToPaymentModification] succeeds on it again, whoever calls and
    whatever the arguments. *)
Theorem settled_agreement_accepts_no_call (i : bytes32) (w : World) :
  LoanAgreement.status (getAgreement i w) = LoanStatus.Repaid
  ∨ LoanAgreement.status (getAgreement i w) = LoanStatus.Defaulted →
  ∀ sender now p m v approved,
    is_ok (repayLoan sender now i p w) = false
    ∧ is_ok (handleP2PDefault sender now i w) = false
    ∧ is_ok (requestPaymentModification sender i m v w) = false
    ∧ is_ok (respondToPaymentModification sender now i approved w) = false.
Proof.
  intros Hst sender now p m v approved. split; [|split; [|split]].
  - destruct (repayLoan sender now i p w) as [w'|] eqn:He; [|done].
    apply repayLoan_effect in He as (_ & Hs & _). by destruct Hst as [Hst|Hst]; rewrite Hst in Hs.
  - destruct (handleP2PDefault sender now i w) as [w'|] eqn:He; [|done].
    apply handleP2PDefault_effect in He as (Hs & _). destruct Hst; congruence.
  - destruct (requestPaymentModification sender i m v w) as [w'|] eqn:He; [|done].
    apply requestPaymentModification_effect in He as (_ & Hs & _).
    destruct Hst, Hs; congruence.
  - destruct (respondToPaymentModification sender now i approved w) as [w'|] eqn:He; [|done].
    apply respondToPaymentModification_effect in He as (_ & Hs & _). destruct Hst; congruence.
Qed.

Lemma settled_agreement_accepts_no_call_witness :
  let i := Scenario.agreementId (100 * Scenario.e18) 7 in
  let w := Scenario.world (Scenario.S1_prefix
             ++ [(Scenario.B, Scenario.t0 + 6 * Scenario.day, RepayLoan i (110 * Scenario.e18))]) in
  LoanAgreement.status (getAgreement i w) = LoanStatus.Repaid
  ∧ is_ok (repayLoan Scenario.B (Scenario.t0 + 6 * Scenario.day) i 1 w) = false
  ∧ is_ok (handleP2PDefault Scenario.L (Scenario.t0 + 8 * Scenario.day) i w) = false.
Proof.
  intros i w.
  assert (LoanAgreement.status (getAgreement i w) = LoanStatus.Repaid) as Hst
    by (vm_compute; reflexivity).
  split; [exact Hst|].
  destruct (settled_agreement_accepts_no_call i w (or_introl Hst) Scenario.B
              (Scenario.t0 + 6 * Scenario.day) 1
              PaymentModificationType.DueDateExtension 0 true) as (Hr & _).
  split; [exact Hr|].
  by destruct (settled_agreement_accepts_no_call i w (or_introl Hst) Scenario.L
                 (Scenario.t0 + 8 * Scenario.day) 1
                 PaymentModificationType.DueDateExtension 0 true) as (_ & Hd & _).
Defined.

(** X7. After a successful [requestPaymentModification] the agreement is
    in PendingModificationApproval, and as long as it is: the borrower's
    [repayLoan] reverts as not repayable at any time and for any amount,
    [handleP2PDefault] fails for every caller, and a second request fails. *)
Theorem pending_request_blocks_repayment_and_default
    (sender : address) (i : bytes32) (m : PaymentModificationType.t) (v : Z) (w w' : World) :
  requestPaymentModification sender i m v w = Ok w' →
  LoanAgreement.status (getAgreement i w') = LoanStatus.PendingModificationApproval
  ∧ (∀ now p, repayLoan sender now i p w' = Revert "P2PL: Loan not in repayable state")
  ∧ (∀ caller now, is_ok (handleP2PDefault caller now i w') = false)
  ∧ (∀ m' v', is_ok (requestPaymentModification sender i m' v' w') = false).
Proof.
  intros He. apply requestPaymentModification_effect in He as (Hb & _ & _ & _ & Hw).
  pose proof (agreement_written_lookup _ _ _ _ i Hw) as Ha. rewrite decide_True in Ha by done.
  split; [by rewrite Ha|]. split; [|split].
  - intros now p. unfold repayLoan. rewrite Ha. simpl.
    by rewrite bool_decide_eq_true_2 by done.
  - intros caller now.
    destruct (handleP2PDefault caller now i w') as [w2|] eqn:He; [|done].
    apply handleP2PDefault_effect in He as (Hs & _). by rewrite Ha in Hs.
  - intros m' v'.
    destruct (requestPaymentModification sender i m' v' w') as [w2|] eqn:He; [|done].
    apply requestPaymentModification_effect in He as (_ & Hs & _). rewrite Ha in Hs.
    by destruct Hs.
Qed.

Lemma pending_request_blocks_repayment_and_default_witness :
  let i := Scenario.agreementId (70 * Scenario.e18) 7 in
  let w := Scenario.world (Scenario.openLoan (70 * Scenario.e18) 7) in
  let w' := Scenario.world Scenario.S3_prefix in
  requestPaymentModification Scenario.B i PaymentModificationType.DueDateExtension
    (Scenario.t0 + 14 * Scenario.day) w = Ok w'
  ∧ repayLoan Scenario.B (Scenario.t0 + 6 * Scenario.day) i (77 * Scenario.e18) w'
    = Revert "P2PL: Loan not in repayable state"
  ∧ is_ok (handleP2PDefault Scenario.L (Scenario.t0 + 8 * Scenario.day) i w') = false.
Proof.
  intros i w w'.
  assert (requestPaymentModification Scenario.B i PaymentModificationType.DueDateExtension
            (Scenario.t0 + 14 * Scenario.day) w = Ok w') as He by (vm_compute; reflexivity).
  split; [exact He|].
  destruct (pending_request_blocks_repayment_and_default Scenario.B i
              PaymentModificationType.DueDateExtension (Scenario.t0 + 14 * Scenario.day) w w' He)
    as (_ & Hr & Hd & _).
  split; [apply Hr | apply Hd].
Defined.




Lemma token_transferFrom_effect t s a b v w w' :
  token_transferFrom t s a b v w = Ok w' →
  ∃ l, ERC20.transferFrom t s a b v (tokens w) = Ok l ∧ w' = set_tokens l w.
Proof. unfold token_transferFrom. intros H. ok_bind H as l Hl. ok_step H. by exists l. Qed.




Lemma requestPaymentModification_exact s i m v w w' :
  requestPaymentModification s i m v w = Ok w' →
  w' = emit (PaymentModificationRequested i s m v)
         (writeAgreement i (agreementAfterRequest m v (getAgreement i w)) w).
Proof.
  unfold requestPaymentModification. intros H. cbv zeta in H.
  ok_require H as Hb. ok_require H as Hs. ok_require H as Hv. ok_bind H as u Hd.
  by injection H as <-.
Qed.

Lemma respondToPaymentModification_exact s now i approved w w' :
  respondToPaymentModification s now i approved w = Ok w' →
  let a := getAgreement i w in
  w' = emit (PaymentModificationResponded i s approved
               (LoanAgreement.requestedModificationType a)
               (LoanAgreement.requestedModificationValue a))
         (writeAgreement i (agreementAfterResponse now approved a) w).
Proof.
  unfold respondToPaymentModification. intros H. cbv zeta in H |- *.
  set (a := getAgreement i w) in *.
  ok_require H as Hl. ok_require H as Hs. injection H as <-. f_equal. f_equal.
  unfold agreementAfterResponse. destruct approved; [|done].
  destruct (LoanAgreement.requestedModificationType a); done.
Qed.

(** X10. A request that the lender rejects changes nothing of the
    agreement but the recorded request (type and value as asked, approval
    flag false) and the status, which is computed from the due date at the
    time of the answer: Active strictly before the due date, Overdue from the
    due date on. No other agreement, no balance, nothing in Reputation or in
    the registry changes, and exactly the two events are logged. *)
Theorem rejected_request_leaves_terms_untouched
    (borrower lender : address) (i : bytes32) (m : PaymentModificationType.t) (v now : Z)
    (w w1 w2 : World) :
  requestPaymentModification borrower i m v w = Ok w1 →
  respondToPaymentModification lender now i false w1 = Ok w2 →
  let a := getAgreement i w in
  getAgreement i w2
  = LoanAgreement.set_status (statusByDueDate now (LoanAgreement.dueDate a))
      (LoanAgreement.set_modificationApprovedByLender false
         (LoanAgreement.set_requestedModificationValue v
            (LoanAgreement.set_requestedModificationType m a)))
  ∧ (LoanAgreement.status (getAgreement i w2)
     = if bool_decide (now < LoanAgreement.dueDate a) then LoanStatus.Active
       else LoanStatus.Overdue)
  ∧ (∀ j, j ≠ i → getAgreement j w2 = getAgreement j w)
  ∧ tokens w2 = tokens w ∧ reputation w2 = reputation w ∧ userRegistry w2 = userRegistry w
  ∧ log w2 = log w ++ [PaymentModificationRequested i borrower m v;
                       PaymentModificationResponded i lender false m v].
Proof.
  intros H1 H2 a.
  apply requestPaymentModification_exact in H1. fold a in H1.
  apply respondToPaymentModification_exact in H2. cbv zeta in H2.
  assert (getAgreement i w1 = agreementAfterRequest m v a) as Ha1.
  { rewrite H1. unfold getAgreement. simpl. by rewrite lookup_total_insert_eq. }
  rewrite Ha1 in H2. subst w2 w1.
  unfold getAgreement in *. simpl. rewrite lookup_total_insert_eq.
  split; [by destruct a|]. split; [by destruct a|]. split.
  { intros j Hj. by rewrite !lookup_total_insert_ne by done. }
  split; [done|]. split; [done|]. split; [done|].
  by rewrite <- app_assoc.
Qed.

Lemma rejected_request_leaves_terms_untouched_witness :
  let w := Scenario.world (Scenario.openLoan (70 * Scenario.e18) 7) in
  let i := Scenario.agreementId (70 * Scenario.e18) 7 in
  let due := Scenario.t0 + 7 * Scenario.day in
  let w1 := commit w (requestPaymentModification Scenario.B i
                        PaymentModificationType.DueDateExtension (due + Scenario.day) w) in
  let w2 := commit w1 (respondToPaymentModification Scenario.L due i false w1) in
  LoanAgreement.dueDate (getAgreement i w2) = due
  ∧ LoanAgreement.status (getAgreement i w2) = LoanStatus.Overdue.
Proof.
  intros w i due w1 w2.
  destruct (rejected_request_leaves_terms_untouched Scenario.B Scenario.L i
              PaymentModificationType.DueDateExtension (due + Scenario.day) due w w1 w2)
    as (Ha & Hs & _); [vm_compute; reflexivity | vm_compute; reflexivity |].
  split; [rewrite Ha; by vm_compute | rewrite Hs; by vm_compute].
Defined.

(** ** Token movements and vouches *)

Lemma transfer_balances t from to v l l' :
  ERC20.transfer t from to v l = Ok l' →
  from ≠ 0 ∧ to ≠ 0 ∧ v ≤ ERC20.balanceOf t from l
  ∧ ERC20.allowances l' = ERC20.allowances l
  ∧ ∀ t' h, ERC20.balanceOf t' h l' = ERC20.balanceOf t' h l + moved t from to v t' h.
Proof.
  unfold ERC20.transfer. intros H.
  ok_require H as Hf. apply bool_decide_eq_true in Hf.
  ok_require H as Ht. apply bool_decide_eq_true in Ht.
  ok_require H as Hb. apply bool_decide_eq_true in Hb.
  injection H as <-. split; [done|]. split; [done|]. split; [done|]. split; [done|].
  intros t' h. unfold ERC20.balanceOf, moved. simpl.
  destruct (decide ((t', h) = (t, to))) as [E1|N1];
    destruct (decide ((t', h) = (t, from))) as [E2|N2].
  - rewrite E1 in *. rewrite <- E2. rewrite !bool_decide_eq_true_2 by done.
    rewrite !lookup_total_insert_eq. injection E2 as ->. lia.
  - rewrite E1. rewrite bool_decide_eq_true_2 by done.
    rewrite bool_decide_eq_false_2 by congruence.
    rewrite lookup_total_insert_eq. rewrite lookup_total_insert_ne by congruence. lia.
  - rewrite E2. rewrite (bool_decide_eq_false_2 (_ = (t, to))) by congruence.
    rewrite bool_decide_eq_true_2 by done.
    rewrite lookup_total_insert_ne by congruence. rewrite lookup_total_insert_eq. lia.
  - rewrite !bool_decide_eq_false_2 by done.
    rewrite !lookup_total_insert_ne by congruence. lia.
Qed.

Lemma transferFrom_balances t spender from to v l l' :
  ERC20.transferFrom t spender from to v l = Ok l' →
  from ≠ 0 ∧ to ≠ 0 ∧ v ≤ ERC20.balanceOf t from l
  ∧ (ERC20.allowance t from spender l < MAX_UINT256 → v ≤ ERC20.allowance t from spender l)
  ∧ ∀ t' h, ERC20.balanceOf t' h l' = ERC20.balanceOf t' h l + moved t from to v t' h.
Proof.
  unfold ERC20.transferFrom. intros H. ok_bind H as l1 Hl1.
  apply transfer_balances in H as (Hf & Ht & Hb & _ & Hbal).
  assert (ERC20.balances l1 = ERC20.balances l
          ∧ (ERC20.allowance t from spender l < MAX_UINT256
             → v ≤ ERC20.allowance t from spender l)) as [Hsame Hall].
  { destruct (bool_decide (ERC20.allowance t from spender l < MAX_UINT256)) eqn:Hc.
    - ok_require Hl1 as Hv. apply bool_decide_eq_true in Hv.
      unfold ERC20.approve in Hl1. ok_require Hl1 as H1. ok_require Hl1 as H2.
      injection Hl1 as <-. done.
    - injection Hl1 as <-. apply bool_decide_eq_false in Hc. split; [done|]. intros; lia. }
  unfold ERC20.balanceOf in *. rewrite Hsame in *. done.
Qed.

(** [_initializeReputationProfileIfNotExists] writes at most the profile of
    its argument. *)
Lemma initialize_shape u w :
  ∃ m, _initializeReputationProfileIfNotExists u w
       = set_reputation (Reputation.set_userReputations m (reputation w)) w
       ∧ (∀ u', u' ≠ u → m !!! u' = getReputationProfile u' w)
       ∧ m !!! u = if bool_decide (ReputationProfile.userAddress (getReputationProfile u w) = 0)
                      && isUserRegistered u w
                   then ReputationProfile.mk u 0 0 0 0 0 0 0 0 0 0 0 0 0
                   else getReputationProfile u w.
Proof.
  unfold _initializeReputationProfileIfNotExists.
  destruct (_ && _).
  - eexists. split; [reflexivity|]. unfold getReputationProfile. split.
    + intros u' Hne. by rewrite lookup_total_insert_ne.
    + by rewrite lookup_total_insert_eq.
  - exists (Reputation.userReputations (reputation w)). split; [|done].
    destruct w as [ra la ur rp l tk lg]. by destruct rp.
Qed.

Lemma getReputationProfile_writeProfile_ne u u' p w :
  u ≠ u' → getReputationProfile u' (writeProfile u p w) = getReputationProfile u' w.
Proof.
  intros Hne. unfold getReputationProfile, writeProfile. simpl.
  by rewrite lookup_total_insert_ne.
Qed.

(** What a successful [addVouch] does. *)
Lemma addVouch_effect s b amt t w w' :
  addVouch s b amt t w = Ok w' →
  let v := Vouch.mk s b t amt true in
  let p := getReputationProfile s (_initializeReputationProfileIfNotExists s w) in
  isUserRegistered s w = true ∧ isUserRegistered b w = true ∧ b ≠ s ∧ 0 < amt ∧ t ≠ 0
  ∧ Vouch.isActive (getVouchDetails s b w) = false
  ∧ ERC20.transferFrom t (reputationAddress w) s (reputationAddress w) amt (tokens w)
    = Ok (tokens w')
  ∧ Reputation.activeVouches (reputation w')
    = <[(s, b) := v]> (Reputation.activeVouches (reputation w))
  ∧ Reputation.userVouchesGiven (reputation w')
    = <[s := getUserVouchesGiven s w ++ [v]]> (Reputation.userVouchesGiven (reputation w))
  ∧ Reputation.userVouchesReceived (reputation w')
    = <[b := getUserVouchesReceived b w ++ [v]]> (Reputation.userVouchesReceived (reputation w))
  ∧ getReputationProfile s w'
    = ReputationProfile.set_timesVouchedForOthers (ReputationProfile.timesVouchedForOthers p + 1)
        (ReputationProfile.set_vouchingStakeAmount (ReputationProfile.vouchingStakeAmount p + amt) p)
  ∧ getReputationProfile b w'
    = getReputationProfile b (_initializeReputationProfileIfNotExists b w)
  ∧ (∀ u, u ≠ s → u ≠ b → getReputationProfile u w' = getReputationProfile u w)
  ∧ Reputation.owner (reputation w') = Reputation.owner (reputation w)
  ∧ Reputation.p2pLendingContractAddress (reputation w')
    = Reputation.p2pLendingContractAddress (reputation w)
  ∧ log w' = log w ++ [VouchAdded s b t amt].
Proof.
  unfold addVouch, onlyVerifiedUser_Reputation. intros H. cbv zeta in H |- *.
  ok_require H as Hs. ok_require H as Hne. apply bool_decide_eq_true in Hne.
  ok_require H as Hb. ok_require H as Hamt. apply bool_decide_eq_true in Hamt.
  ok_require H as Ht. apply bool_decide_eq_true in Ht.
  ok_require H as Hact. apply negb_true_iff in Hact.
  destruct (initialize_shape s w) as (m1 & E1 & Ho1 & Hs1).
  assert (getReputationProfile s (_initializeReputationProfileIfNotExists s w) = m1 !!! s)
    as Hp1 by (by rewrite E1).
  rewrite Hp1. rewrite E1 in H. clear Hp1.
  set (w1 := set_reputation (Reputation.set_userReputations m1 (reputation w)) w) in *.
  assert (isUserRegistered b w1 = isUserRegistered b w) as Hbr by done.
  assert (getReputationProfile b w1 = getReputationProfile b w) as Hbp.
  { unfold getReputationProfile, w1. simpl. by apply Ho1. }
  assert (getReputationProfile b (_initializeReputationProfileIfNotExists b w)
          = getReputationProfile b (_initializeReputationProfileIfNotExists b w1)) as ->.
  { unfold _initializeReputationProfileIfNotExists. rewrite Hbp, Hbr.
    destruct (bool_decide (ReputationProfile.userAddress (getReputationProfile b w) = 0)
              && isUserRegistered b w);
      [by rewrite !getReputationProfile_writeProfile | done]. }
  destruct (initialize_shape b w1) as (m2 & E2 & Ho2 & Hs2).
  rewrite E2 in H |- *. clear E2.
  ok_bind H as w3 Hw3. apply token_transferFrom_effect in Hw3 as (l & Hl & ->).
  ok_bind H as w4 Hw4. apply increase_effect in Hw4. cbv zeta in Hw4.
  ok_bind H as w5 Hw5. apply increase_effect in Hw5. cbv zeta in Hw5.
  injection H as <-. subst w5 w4.
  rewrite getReputationProfile_writeProfile.
  assert (m2 !!! s = m1 !!! s) as Hm2s.
  { rewrite Ho2 by done. unfold getReputationProfile, w1. done. }
  unfold getReputationProfile, getUserVouchesGiven, getUserVouchesReceived, w1 in *.
  simpl in *. rewrite !lookup_total_insert_eq. rewrite Hm2s.
  split; [done|]. split; [done|]. split; [done|]. split; [lia|]. split; [done|].
  split; [done|]. split; [exact Hl|]. split; [done|]. split; [done|]. split; [done|].
  split; [done|]. split.
  { by rewrite !lookup_total_insert_ne by done. }
  split; [|done].
  intros u Hus Hub. rewrite !lookup_total_insert_ne by done.
  rewrite Ho2 by done. simpl. by apply Ho1.
Qed.

Lemma transfer_succeeds t from to v l :
  from ≠ 0 → to ≠ 0 → v ≤ ERC20.balanceOf t from l → ∃ l', ERC20.transfer t from to v l = Ok l'.
Proof.
  intros Hf Ht Hv. unfold ERC20.transfer.
  rewrite !bool_decide_eq_true_2 by done. simpl. eauto.
Qed.

(** What a successful [removeVouch] does. *)
Lemma removeVouch_effect s b w w' :
  removeVouch s b w = Ok w' →
  let vouch := getVouchDetails s b w in
  let p := getReputationProfile s w in
  isUserRegistered s w = true ∧ Vouch.isActive vouch = true
  ∧ Vouch.stakedAmount vouch ≤ ReputationProfile.vouchingStakeAmount p
  ∧ ERC20.transfer (Vouch.tokenAddress vouch) (reputationAddress w) s (Vouch.stakedAmount vouch)
      (tokens w) = Ok (tokens w')
  ∧ Reputation.activeVouches (reputation w')
    = <[(s, b) := Vouch.set_isActive false vouch]> (Reputation.activeVouches (reputation w))
  ∧ Reputation.userVouchesGiven (reputation w') = Reputation.userVouchesGiven (reputation w)
  ∧ Reputation.userVouchesReceived (reputation w') = Reputation.userVouchesReceived (reputation w)
  ∧ Reputation.userReputations (reputation w')
    = <[s := ReputationProfile.set_vouchingStakeAmount
               (ReputationProfile.vouchingStakeAmount p - Vouch.stakedAmount vouch) p]>
        (Reputation.userReputations (reputation w))
  ∧ Reputation.owner (reputation w') = Reputation.owner (reputation w)
  ∧ Reputation.p2pLendingContractAddress (reputation w')
    = Reputation.p2pLendingContractAddress (reputation w)
  ∧ log w' = log w ++ [VouchRemoved s b (Vouch.stakedAmount vouch)].
Proof.
  unfold removeVouch, onlyVerifiedUser_Reputation. intros H. cbv zeta in H |- *.
  set (vouch := getVouchDetails s b w) in *.
  ok_require H as Hs. ok_require H as Hact.
  ok_bind H as w1 Hw1. unfold decrease in Hw1. ok_bind Hw1 as n Hn.
  apply checked_sub_Ok in Hn as [-> Hle]. injection Hw1 as <-.
  ok_bind H as w2 Hw2. apply token_transfer_effect in Hw2 as (l & Hl & ->).
  injection H as <-. simpl in *.
  replace (Vouch.stakedAmount (Vouch.set_isActive false vouch))
    with (Vouch.stakedAmount vouch) in * by done.
  replace (Vouch.tokenAddress (Vouch.set_isActive false vouch))
    with (Vouch.tokenAddress vouch) in * by done.
  by repeat split.
Qed.

Lemma removeVouch_succeeds s b w l :
  let vouch := getVouchDetails s b w in
  isUserRegistered s w = true → Vouch.isActive vouch = true →
  Vouch.stakedAmount vouch ≤ ReputationProfile.vouchingStakeAmount (getReputationProfile s w) →
  ERC20.transfer (Vouch.tokenAddress vouch) (reputationAddress w) s (Vouch.stakedAmount vouch)
    (tokens w) = Ok l →
  ∃ w', removeVouch s b w = Ok w'.
Proof.
  intros vouch Hs Hact Hle Hl.
  unfold removeVouch, onlyVerifiedUser_Reputation. cbv zeta. fold vouch.
  rewrite Hs, Hact. simpl. unfold decrease, checked_sub.
  replace (getReputationProfile s (writeVouch s b (Vouch.set_isActive false vouch) w))
    with (getReputationProfile s w) by done.
  rewrite bool_decide_eq_true_2 by done. simpl.
  unfold token_transfer. simpl. rewrite Hl. simpl. eauto.
Qed.

Lemma moved_back t a b v t' h : moved t a b v t' h + moved t b a v t' h = 0.
Proof. unfold moved. repeat case_bool_decide; lia. Qed.

(** X11. A vouch can be withdrawn in full. After a successful [addVouch],
    on a ledger where the balance of Reputation and the recorded stake of the
    voucher are not negative, a second [addVouch] for the same borrower fails
    and [removeVouch] succeeds and puts every token balance and the voucher's
    [vouchingStakeAmount] back to what they were before the vouch. The record
    of the pair stays behind, inactive and with its stake figure, the entry in
    the borrower's history is kept as it was written, and a second
    [removeVouch] reverts for want of an active vouch. *)
Theorem vouch_can_be_withdrawn_in_full
    (sender borrower : address) (amount : Z) (token : address) (w w1 : World) :
  addVouch sender borrower amount token w = Ok w1 →
  0 ≤ ERC20.balanceOf token (reputationAddress w) (tokens w) →
  0 ≤ ReputationProfile.vouchingStakeAmount
        (getReputationProfile sender (_initializeReputationProfileIfNotExists sender w)) →
  (∀ amount' token', is_ok (addVouch sender borrower amount' token' w1) = false)
  ∧ ∃ w2,
      removeVouch sender borrower w1 = Ok w2
      ∧ (∀ t h, ERC20.balanceOf t h (tokens w2) = ERC20.balanceOf t h (tokens w))
      ∧ ReputationProfile.vouchingStakeAmount (getReputationProfile sender w2)
        = ReputationProfile.vouchingStakeAmount
            (getReputationProfile sender (_initializeReputationProfileIfNotExists sender w))
      ∧ getVouchDetails sender borrower w2 = Vouch.mk sender borrower token amount false
      ∧ getUserVouchesReceived borrower w2
        = getUserVouchesReceived borrower w ++ [Vouch.mk sender borrower token amount true]
      ∧ removeVouch sender borrower w2 = Revert "No active vouch for this borrower".
Proof.
  intros Hadd Hbal Hstake.
  pose proof (addVouch_frame _ _ _ _ _ _ Hadd) as (Hur & _ & Hra & _).
  apply addVouch_effect in Hadd
    as (Hs & Hb & Hne & Hamt & Ht & Hina & Htok & Hav & Hgiv & Hrec & Hps & Hpb & Hpo & _ & _ & Hlog).
  cbv zeta in *.
  apply transferFrom_balances in Htok as (Hs0 & Hr0 & Hle & _ & Hbal1).
  assert (isUserRegistered sender w1 = true) as Hs1.
  { unfold isUserRegistered in *. by rewrite Hur. }
  assert (getVouchDetails sender borrower w1 = Vouch.mk sender borrower token amount true) as Hv1.
  { unfold getVouchDetails. rewrite Hav. by rewrite lookup_total_insert_eq. }
  split.
  { intros amount' token'.
    destruct (addVouch sender borrower amount' token' w1) as [w2|] eqn:E; [|done].
    apply addVouch_effect in E as (_ & _ & _ & _ & _ & Hina' & _). by rewrite Hv1 in Hina'. }
  destruct (transfer_succeeds token (reputationAddress w) sender amount (tokens w1))
    as [l Hl]; [done | done | |].
  { rewrite Hbal1. unfold moved. rewrite bool_decide_eq_true_2 by done.
    case_bool_decide as E; [injection E as E; rewrite E in *|]; lia. }
  destruct (removeVouch_succeeds sender borrower w1 l) as [w2 Hrem].
  { done. }
  { by rewrite Hv1. }
  { rewrite Hv1, Hps. simpl. lia. }
  { rewrite Hv1, Hra. exact Hl. }
  exists w2. split; [exact Hrem|].
  pose proof (removeVouch_frame _ _ _ _ Hrem) as (Hur2 & _).
  apply removeVouch_effect in Hrem
    as (_ & _ & _ & Htok2 & Hav2 & _ & Hrec2 & Hup2 & _ & _ & _). cbv zeta in *.
  rewrite Hv1, Hra in Htok2. simpl in Htok2. rewrite Hl in Htok2. injection Htok2 as Htok2.
  apply transfer_balances in Hl as (_ & _ & _ & _ & Hbal2).
  assert (getVouchDetails sender borrower w2 = Vouch.mk sender borrower token amount false)
    as Hv2.
  { unfold getVouchDetails at 1. rewrite Hav2, lookup_total_insert_eq. rewrite Hv1.
    reflexivity. }
  split; [|split; [|split; [|split]]].
  - intros t h. rewrite <- Htok2, Hbal2, Hbal1. pose proof (moved_back token sender
      (reputationAddress w) amount t h). lia.
  - unfold getReputationProfile at 1. rewrite Hup2, lookup_total_insert_eq. simpl.
    rewrite Hv1, Hps. simpl. lia.
  - exact Hv2.
  - unfold getUserVouchesReceived at 1. rewrite Hrec2, Hrec. by rewrite lookup_total_insert_eq.
  - unfold removeVouch, onlyVerifiedUser_Reputation.
    replace (isUserRegistered sender w2) with true
      by (unfold isUserRegistered in *; by rewrite Hur2).
    rewrite Hv2. reflexivity.
Qed.

Lemma vouch_can_be_withdrawn_in_full_witness :
  let w := Scenario.world [(Scenario.V, Scenario.t0,
                            TokenApprove Scenario.DAI Scenario.REP (10 * Scenario.e18))] in
  let w1 := commit w (addVouch Scenario.V Scenario.B (10 * Scenario.e18) Scenario.DAI w) in
  let w2 := commit w1 (removeVouch Scenario.V Scenario.B w1) in
  addVouch Scenario.V Scenario.B (10 * Scenario.e18) Scenario.DAI w = Ok w1
  ∧ ERC20.balanceOf Scenario.DAI Scenario.V (tokens w1) = 990 * Scenario.e18
  ∧ is_ok (addVouch Scenario.V Scenario.B Scenario.e18 Scenario.DAI w1) = false
  ∧ removeVouch Scenario.V Scenario.B w1 = Ok w2
  ∧ ERC20.balanceOf Scenario.DAI Scenario.V (tokens w2) = 1000 * Scenario.e18.
Proof.
  intros w w1 w2.
  assert (addVouch Scenario.V Scenario.B (10 * Scenario.e18) Scenario.DAI w = Ok w1) as He
    by (vm_compute; reflexivity).
  split; [exact He|]. split; [by vm_compute|].
  destruct (vouch_can_be_withdrawn_in_full Scenario.V Scenario.B (10 * Scenario.e18)
              Scenario.DAI w w1 He) as (Hno & w2' & Hrem & Hbal & _);
    [vm_compute; discriminate | vm_compute; discriminate |].
  split; [apply Hno|].
  assert (w2 = w2') as <-.
  { unfold w2. by rewrite Hrem. }
  split; [exact Hrem|].
  etransitivity; [apply Hbal|]. by vm_compute.
Defined.

(** ** The points table *)

Lemma profiles_at_write_b w b l wk pb pl p :
  b ≠ l → profiles_at w b l wk pb pl → profiles_at w b l (writeProfile b p wk) p pl.
Proof.
  intros Hne (Hb & Hl & Ho & Hk). unfold profiles_at.
  rewrite getReputationProfile_writeProfile.
  rewrite getReputationProfile_writeProfile_ne by done.
  split; [done|]. split; [done|]. split; [|done].
  intros u H1 H2. rewrite getReputationProfile_writeProfile_ne by done. by apply Ho.
Qed.

Lemma profiles_at_write_l w b l wk pb pl p :
  b ≠ l → profiles_at w b l wk pb pl → profiles_at w b l (writeProfile l p wk) pb p.
Proof.
  intros Hne (Hb & Hl & Ho & Hk). unfold profiles_at.
  rewrite getReputationProfile_writeProfile.
  rewrite getReputationProfile_writeProfile_ne by done.
  split; [done|]. split; [done|]. split; [|done].
  intros u H1 H2. rewrite getReputationProfile_writeProfile_ne by done. by apply Ho.
Qed.

Lemma profiles_at_increase_b g s w b l wk pb pl v wk' :
  b ≠ l → profiles_at w b l wk pb pl → increase g s b v wk = Ok wk' →
  profiles_at w b l wk' (s (g pb + v) pb) pl.
Proof.
  intros Hne St H. apply increase_effect in H. cbv zeta in H. subst wk'.
  pose proof St as (Hb & _). rewrite Hb. by eapply profiles_at_write_b.
Qed.

Lemma profiles_at_increase_l g s w b l wk pb pl v wk' :
  b ≠ l → profiles_at w b l wk pb pl → increase g s l v wk = Ok wk' →
  profiles_at w b l wk' pb (s (g pl + v) pl).
Proof.
  intros Hne St H. apply increase_effect in H. cbv zeta in H. subst wk'.
  pose proof St as (_ & Hl & _). rewrite Hl. by eapply profiles_at_write_l.
Qed.

Lemma profiles_at_addScore_b w b l wk pb pl d wk' :
  b ≠ l → profiles_at w b l wk pb pl → addScore b d wk = Ok wk' →
  profiles_at w b l wk'
    (ReputationProfile.set_currentReputationScore
       (ReputationProfile.currentReputationScore pb + d) pb) pl.
Proof.
  intros Hne St H. apply addScore_effect in H. cbv zeta in H. subst wk'.
  pose proof St as (Hb & _). rewrite Hb. by eapply profiles_at_write_b.
Qed.

Lemma profiles_at_addScore_l w b l wk pb pl d wk' :
  b ≠ l → profiles_at w b l wk pb pl → addScore l d wk = Ok wk' →
  profiles_at w b l wk' pb
    (ReputationProfile.set_currentReputationScore
       (ReputationProfile.currentReputationScore pl + d) pl).
Proof.
  intros Hne St H. apply addScore_effect in H. cbv zeta in H. subst wk'.
  pose proof St as (_ & Hl & _). rewrite Hl. by eapply profiles_at_write_l.
Qed.

Ltac unfold_points :=
  unfold REPUTATION_POINTS_REPAID_ON_TIME_ORIGINAL, REPUTATION_POINTS_REPAID_LATE_GRACE,
    REPUTATION_POINTS_REPAID_ON_TIME_AFTER_EXTENSION,
    REPUTATION_POINTS_REPAID_LATE_AFTER_EXTENSION,
    REPUTATION_POINTS_REPAID_WITH_PARTIAL_AGREEMENT_MET, REPUTATION_POINTS_DEFAULTED,
    REPUTATION_POINTS_LENT_SUCCESSFULLY_ON_TIME_ORIGINAL,
    REPUTATION_POINTS_LENT_SUCCESSFULLY_AFTER_MODIFICATION,
    REPUTATION_POINTS_LENDER_APPROVED_EXTENSION,
    REPUTATION_POINTS_LENDER_APPROVED_PARTIAL_AGREEMENT,
    REPUTATION_POINTS_LENDER_REJECTED_MODIFICATION,
    REPUTATION_POINTS_VOUCH_DEFAULTED_VOUCHER in *.

Ltac unfold_profile_setters :=
  unfold ReputationProfile.set_loansTaken, ReputationProfile.set_loansGiven,
    ReputationProfile.set_loansRepaidOnTime, ReputationProfile.set_loansRepaidLateGrace,
    ReputationProfile.set_loansDefaulted, ReputationProfile.set_totalValueBorrowed,
    ReputationProfile.set_totalValueLent, ReputationProfile.set_currentReputationScore,
    ReputationProfile.set_vouchingStakeAmount, ReputationProfile.set_timesVouchedForOthers,
    ReputationProfile.set_timesDefaultedAsVoucher,
    ReputationProfile.set_modificationsApprovedByLender,
    ReputationProfile.set_modificationsRejectedByLender in *; simpl in *.

(** Symbolic execution of a body made of [increase], [addScore] and [emit]
    on the profiles of two distinct users. *)
Ltac run_profiles Hne :=
  repeat first
    [ match goal with
      | H : _ ≫= _ = Ok _ |- _ =>
          let x := fresh "x" in let E := fresh "E" in apply bind_Ok in H as (x & E & H)
      | St : profiles_at ?w0 ?b ?l _ ?pb ?pl, E : increase _ _ ?b _ ?wk = Ok _ |- _ =>
          apply (profiles_at_increase_b _ _ w0 b l wk pb pl _ _ Hne St) in E; clear St
      | St : profiles_at ?w0 ?b ?l _ ?pb ?pl, E : increase _ _ ?l _ ?wk = Ok _ |- _ =>
          apply (profiles_at_increase_l _ _ w0 b l wk pb pl _ _ Hne St) in E; clear St
      | St : profiles_at ?w0 ?b ?l _ ?pb ?pl, E : addScore ?b _ ?wk = Ok _ |- _ =>
          apply (profiles_at_addScore_b w0 b l wk pb pl _ _ Hne St) in E; clear St
      | St : profiles_at ?w0 ?b ?l _ ?pb ?pl, E : addScore ?l _ ?wk = Ok _ |- _ =>
          apply (profiles_at_addScore_l w0 b l wk pb pl _ _ Hne St) in E; clear St
      | H : Ok _ = Ok _ |- _ => injection H as H; subst
      | H : (_, _) = ?x |- _ => is_var x; subst x
      | H : (let '(_, _) := ?x in _) = Ok _ |- _ => is_var x; destruct x
      | H : context [bool_decide (?x ≠ 0)] |- _ =>
          first [ rewrite (bool_decide_eq_true_2 (x ≠ 0)) in H by (by compute)
                | rewrite (bool_decide_eq_false_2 (x ≠ 0)) in H by (compute; congruence) ]
      end
    | progress simpl in * ].

Lemma recordLoanPaymentOutcome_effect sender i b l p o m a w w' :
  recordLoanPaymentOutcome sender i b l p o m a w = Ok w' → b ≠ l →
  let pb := getReputationProfile b (_initializeReputationProfileIfNotExists b w) in
  let pl := getReputationProfile l (_initializeReputationProfileIfNotExists l w) in
  sender = Reputation.p2pLendingContractAddress (reputation w)
  ∧ getReputationProfile b w'
    = ReputationProfile.mk (ReputationProfile.userAddress pb)
        (ReputationProfile.loansTaken pb + 1) (ReputationProfile.loansGiven pb)
        (ReputationProfile.loansRepaidOnTime pb + countsOnTime o)
        (ReputationProfile.loansRepaidLateGrace pb + countsLate o)
        (ReputationProfile.loansDefaulted pb)
        (ReputationProfile.totalValueBorrowed pb + p) (ReputationProfile.totalValueLent pb)
        (ReputationProfile.currentReputationScore pb + borrowerPoints o)
        (ReputationProfile.vouchingStakeAmount pb) (ReputationProfile.timesVouchedForOthers pb)
        (ReputationProfile.timesDefaultedAsVoucher pb)
        (ReputationProfile.modificationsApprovedByLender pb)
        (ReputationProfile.modificationsRejectedByLender pb)
  ∧ getReputationProfile l w'
    = ReputationProfile.mk (ReputationProfile.userAddress pl)
        (ReputationProfile.loansTaken pl) (ReputationProfile.loansGiven pl + 1)
        (ReputationProfile.loansRepaidOnTime pl) (ReputationProfile.loansRepaidLateGrace pl)
        (ReputationProfile.loansDefaulted pl)
        (ReputationProfile.totalValueBorrowed pl) (ReputationProfile.totalValueLent pl + p)
        (ReputationProfile.currentReputationScore pl + lenderPoints o m a)
        (ReputationProfile.vouchingStakeAmount pl) (ReputationProfile.timesVouchedForOthers pl)
        (ReputationProfile.timesDefaultedAsVoucher pl)
        (ReputationProfile.modificationsApprovedByLender pl + (if a then 1 else 0))
        (ReputationProfile.modificationsRejectedByLender pl
         + (if negb a && bool_decide (m ≠ PaymentModificationType.None) then 1 else 0))
  ∧ (∀ u, u ≠ b → u ≠ l → getReputationProfile u w' = getReputationProfile u w)
  ∧ Reputation.activeVouches (reputation w') = Reputation.activeVouches (reputation w)
  ∧ Reputation.userVouchesGiven (reputation w') = Reputation.userVouchesGiven (reputation w)
  ∧ Reputation.userVouchesReceived (reputation w')
    = Reputation.userVouchesReceived (reputation w)
  ∧ Reputation.owner (reputation w') = Reputation.owner (reputation w)
  ∧ Reputation.p2pLendingContractAddress (reputation w')
    = Reputation.p2pLendingContractAddress (reputation w)
  ∧ tokens w' = tokens w.
Proof.
  unfold recordLoanPaymentOutcome, onlyP2PLendingContract. intros H Hne. cbv zeta in H |- *.
  ok_require H as Hauth. apply bool_decide_eq_true in Hauth.
  destruct (initialize_shape b w) as (m1 & E1 & Ho1 & Hs1).
  assert (getReputationProfile b (_initializeReputationProfileIfNotExists b w) = m1 !!! b)
    as -> by (by rewrite E1).
  rewrite E1 in H.
  set (w1 := set_reputation (Reputation.set_userReputations m1 (reputation w)) w) in *.
  assert (getReputationProfile l (_initializeReputationProfileIfNotExists l w)
          = getReputationProfile l (_initializeReputationProfileIfNotExists l w1)) as ->.
  { unfold _initializeReputationProfileIfNotExists.
    assert (getReputationProfile l w1 = getReputationProfile l w) as Hlp
      by (unfold getReputationProfile, w1; simpl; apply Ho1; congruence).
    rewrite Hlp.
    replace (isUserRegistered l w1) with (isUserRegistered l w) by done.
    destruct (bool_decide (ReputationProfile.userAddress (getReputationProfile l w) = 0)
              && isUserRegistered l w); [|symmetry; exact Hlp].
    by rewrite !getReputationProfile_writeProfile. }
  destruct (initialize_shape l w1) as (m2 & E2 & Ho2 & Hs2).
  rewrite E2 in H |- *. clear E2 Hs1 Hs2.
  assert (m2 !!! b = m1 !!! b) as Hm2b by (rewrite Ho2 by done; done).
  assert (∀ u, u ≠ b → u ≠ l → m2 !!! u = getReputationProfile u w) as Hm2o.
  { intros u H1 H2. rewrite Ho2 by done. unfold getReputationProfile, w1. simpl. by apply Ho1. }
  clear Ho1 Ho2 E1.
  replace (getReputationProfile l
             (set_reputation (Reputation.set_userReputations m2 (reputation w1)) w1))
    with (m2 !!! l) by done.
  set (w2 := set_reputation (Reputation.set_userReputations m2 (reputation w1)) w1) in *.
  assert (profiles_at w2 b l w2 (m1 !!! b) (m2 !!! l)) as St.
  { split; [by rewrite <- Hm2b|]. by repeat split. }
  assert (∀ u, u ≠ b → u ≠ l → getReputationProfile u w2 = getReputationProfile u w) as Ho2.
  { intros u H1 H2. by apply Hm2o. }
  assert (keeps_vouches w w2) as Hk2 by (by repeat split).
  cut (profiles_at w2 b l w'
         (ReputationProfile.mk (ReputationProfile.userAddress (m1 !!! b))
            (ReputationProfile.loansTaken (m1 !!! b) + 1)
            (ReputationProfile.loansGiven (m1 !!! b))
            (ReputationProfile.loansRepaidOnTime (m1 !!! b) + countsOnTime o)
            (ReputationProfile.loansRepaidLateGrace (m1 !!! b) + countsLate o)
            (ReputationProfile.loansDefaulted (m1 !!! b))
            (ReputationProfile.totalValueBorrowed (m1 !!! b) + p)
            (ReputationProfile.totalValueLent (m1 !!! b))
            (ReputationProfile.currentReputationScore (m1 !!! b) + borrowerPoints o)
            (ReputationProfile.vouchingStakeAmount (m1 !!! b))
            (ReputationProfile.timesVouchedForOthers (m1 !!! b))
            (ReputationProfile.timesDefaultedAsVoucher (m1 !!! b))
            (ReputationProfile.modificationsApprovedByLender (m1 !!! b))
            (ReputationProfile.modificationsRejectedByLender (m1 !!! b)))
         (ReputationProfile.mk (ReputationProfile.userAddress (m2 !!! l))
            (ReputationProfile.loansTaken (m2 !!! l))
            (ReputationProfile.loansGiven (m2 !!! l) + 1)
            (ReputationProfile.loansRepaidOnTime (m2 !!! l))
            (ReputationProfile.loansRepaidLateGrace (m2 !!! l))
            (ReputationProfile.loansDefaulted (m2 !!! l))
            (ReputationProfile.totalValueBorrowed (m2 !!! l))
            (ReputationProfile.totalValueLent (m2 !!! l) + p)
            (ReputationProfile.currentReputationScore (m2 !!! l) + lenderPoints o m a)
            (ReputationProfile.vouchingStakeAmount (m2 !!! l))
            (ReputationProfile.timesVouchedForOthers (m2 !!! l))
            (ReputationProfile.timesDefaultedAsVoucher (m2 !!! l))
            (ReputationProfile.modificationsApprovedByLender (m2 !!! l) + (if a then 1 else 0))
            (ReputationProfile.modificationsRejectedByLender (m2 !!! l)
             + (if negb a && bool_decide (m ≠ PaymentModificationType.None) then 1 else 0)))).
  { intros (Hb' & Hl' & Ho' & Hk'). destruct Hk2 as (? & ? & ? & ? & ? & ?).
    destruct Hk' as (? & ? & ? & ? & ? & ?).
    split; [done|]. split; [done|]. split; [done|]. split.
    { intros u Hu1 Hu2. rewrite Ho' by done. by apply Ho2. }
    repeat split; congruence. }
  clear Ho2 Hk2 Hm2o Hm2b Hauth.
  generalize dependent (m1 !!! b). generalize dependent (m2 !!! l). intros pl pb St.
  clearbody w2. clear w1 m1 m2 w.
  destruct o, a, m; cbn [outcomeBranch lenderModificationBranch] in H; run_profiles Hne.
  all: match goal with
       | St : profiles_at _ _ _ _ ?x ?y |- profiles_at _ _ _ _ ?x' ?y' =>
           replace x' with x; [replace y' with y; [exact St|]|]
       end;
       clear; unfold lenderPoints, borrowerPoints; unfold_points; unfold_profile_setters;
       f_equal; lia.
Qed.

(** X12. A successful [recordLoanPaymentOutcome] for a borrower and a
    lender that differ adds [borrowerPoints] of the outcome to the borrower's
    score and [lenderPoints] to the lender's, counts one loan taken and one
    given, adds the principal to the value borrowed and to the value lent,
    counts the repayment as on time or late by the outcome, counts an approved
    request as approved and an unapproved one of a type other than None as
    rejected, and changes no other profile, no vouch and no balance. *)
Theorem recordLoanPaymentOutcome_awards_the_points_table
    (sender : address) (agreementId : bytes32) (borrower lender : address)
    (principalAmount : Z) (outcome : PaymentOutcomeType.t)
    (modificationTypeUsed : PaymentModificationType.t) (lenderApprovedRequest : bool)
    (w w' : World) :
  recordLoanPaymentOutcome sender agreementId borrower lender principalAmount outcome
    modificationTypeUsed lenderApprovedRequest w = Ok w' →
  borrower ≠ lender →
  let pb := getReputationProfile borrower
              (_initializeReputationProfileIfNotExists borrower w) in
  let pl := getReputationProfile lender (_initializeReputationProfileIfNotExists lender w) in
  let pb' := getReputationProfile borrower w' in
  let pl' := getReputationProfile lender w' in
  ReputationProfile.currentReputationScore pb'
  = ReputationProfile.currentReputationScore pb + borrowerPoints outcome
  ∧ ReputationProfile.currentReputationScore pl'
    = ReputationProfile.currentReputationScore pl
      + lenderPoints outcome modificationTypeUsed lenderApprovedRequest
  ∧ ReputationProfile.loansTaken pb' = ReputationProfile.loansTaken pb + 1
  ∧ ReputationProfile.totalValueBorrowed pb'
    = ReputationProfile.totalValueBorrowed pb + principalAmount
  ∧ ReputationProfile.loansRepaidOnTime pb'
    = ReputationProfile.loansRepaidOnTime pb + countsOnTime outcome
  ∧ ReputationProfile.loansRepaidLateGrace pb'
    = ReputationProfile.loansRepaidLateGrace pb + countsLate outcome
  ∧ ReputationProfile.loansDefaulted pb' = ReputationProfile.loansDefaulted pb
  ∧ ReputationProfile.loansGiven pl' = ReputationProfile.loansGiven pl + 1
  ∧ ReputationProfile.totalValueLent pl' = ReputationProfile.totalValueLent pl + principalAmount
  ∧ ReputationProfile.modificationsApprovedByLender pl'
    = ReputationProfile.modificationsApprovedByLender pl
      + (if lenderApprovedRequest then 1 else 0)
  ∧ ReputationProfile.modificationsRejectedByLender pl'
    = ReputationProfile.modificationsRejectedByLender pl
      + (if negb lenderApprovedRequest
            && bool_decide (modificationTypeUsed ≠ PaymentModificationType.None)
         then 1 else 0)
  ∧ (∀ u, u ≠ borrower → u ≠ lender → getReputationProfile u w' = getReputationProfile u w)
  ∧ (∀ v b, getVouchDetails v b w' = getVouchDetails v b w)
  ∧ tokens w' = tokens w.
Proof.
  intros H Hne pb pl pb' pl'.
  apply recordLoanPaymentOutcome_effect in H
    as (_ & Hb & Hl & Ho & Hav & _ & _ & _ & _ & Htk); [|done].
  subst pb' pl'. rewrite Hb, Hl. simpl.
  repeat (split; [done|]). split; [|done].
  intros v b. unfold getVouchDetails. by rewrite Hav.
Qed.

Lemma recordLoanPaymentOutcome_awards_the_points_table_witness :
  let w := Scenario.world Scenario.S1_prefix in
  let i := Scenario.agreementId (100 * Scenario.e18) 7 in
  let w' := commit w (recordLoanPaymentOutcome Scenario.P2PL i Scenario.B Scenario.L
                        (100 * Scenario.e18) PaymentOutcomeType.LateExtended
                        PaymentModificationType.DueDateExtension true w) in
  scoreOf Scenario.B w' = 2 ∧ scoreOf Scenario.L w' = 5.
Proof.
  intros w i w'.
  destruct (recordLoanPaymentOutcome_awards_the_points_table Scenario.P2PL i Scenario.B
              Scenario.L (100 * Scenario.e18) PaymentOutcomeType.LateExtended
              PaymentModificationType.DueDateExtension true w w') as (Hb & Hl & _).
  - vm_compute. reflexivity.
  - vm_compute. discriminate.
  - unfold scoreOf. rewrite Hb, Hl. split; by vm_compute.
Defined.

(** ** What the four creating calls store *)

Lemma createLoanOffer_components s now a t r d ca ct w i w' :
  createLoanOffer s now a t r d ca ct w = Ok (i, w') →
  let ids := getUserLoanOfferIds s w in
  isUserRegistered s w = true ∧ 0 < a ∧ t ≠ 0 ∧ 0 < d
  ∧ i = keccak7 s a t r d now (Z.of_nat (length ids))
  ∧ ERC20.transferFrom t (lendingAddress w) s (lendingAddress w) a (tokens w) = Ok (tokens w')
  ∧ P2PLending.loanOffers (lending w')
    = <[i := LoanOffer.mk i s a t r d ca ct true false]> (P2PLending.loanOffers (lending w))
  ∧ P2PLending.userLoanOfferIds (lending w')
    = <[s := ids ++ [i]]> (P2PLending.userLoanOfferIds (lending w))
  ∧ P2PLending.loanRequests (lending w') = P2PLending.loanRequests (lending w)
  ∧ P2PLending.userLoanRequestIds (lending w') = P2PLending.userLoanRequestIds (lending w)
  ∧ P2PLending.loanAgreements (lending w') = P2PLending.loanAgreements (lending w)
  ∧ P2PLending.userLoanAgreementIdsAsLender (lending w')
    = P2PLending.userLoanAgreementIdsAsLender (lending w)
  ∧ P2PLending.userLoanAgreementIdsAsBorrower (lending w')
    = P2PLending.userLoanAgreementIdsAsBorrower (lending w)
  ∧ lendingConfig (lending w') = lendingConfig (lending w)
  ∧ reputation w' = reputation w ∧ userRegistry w' = userRegistry w
  ∧ log w' = log w ++ [LoanOfferCreated i s a t r d].
Proof.
  unfold createLoanOffer, onlyVerifiedUser_P2PL. intros H. cbv zeta in H |- *.
  ok_require H as Hv. ok_require H as Ha. apply bool_decide_eq_true in Ha.
  ok_require H as Ht. apply bool_decide_eq_true in Ht.
  ok_require H as Hd. apply bool_decide_eq_true in Hd.
  ok_bind H as u Hc. ok_require H as Hbal.
  ok_bind H as w1 Hw1. apply token_transferFrom_effect in Hw1 as (l & Hl & ->).
  injection H as <- <-. simpl in *.
  split; [done|]. split; [lia|]. split; [done|]. split; [lia|]. by repeat split.
Qed.

Lemma createLoanRequest_components s now a t r d ca ct w i w' :
  createLoanRequest s now a t r d ca ct w = Ok (i, w') →
  let ids := getUserLoanRequestIds s w in
  isUserRegistered s w = true ∧ 0 < a ∧ t ≠ 0 ∧ 0 < d
  ∧ i = keccak7 s a t r d now (Z.of_nat (length ids))
  ∧ tokens w' = tokens w
  ∧ P2PLending.loanRequests (lending w')
    = <[i := LoanRequest.mk i s a t r d ca ct true false]> (P2PLending.loanRequests (lending w))
  ∧ P2PLending.userLoanRequestIds (lending w')
    = <[s := ids ++ [i]]> (P2PLending.userLoanRequestIds (lending w))
  ∧ P2PLending.loanOffers (lending w') = P2PLending.loanOffers (lending w)
  ∧ P2PLending.userLoanOfferIds (lending w') = P2PLending.userLoanOfferIds (lending w)
  ∧ P2PLending.loanAgreements (lending w') = P2PLending.loanAgreements (lending w)
  ∧ P2PLending.userLoanAgreementIdsAsLender (lending w')
    = P2PLending.userLoanAgreementIdsAsLender (lending w)
  ∧ P2PLending.userLoanAgreementIdsAsBorrower (lending w')
    = P2PLending.userLoanAgreementIdsAsBorrower (lending w)
  ∧ lendingConfig (lending w') = lendingConfig (lending w)
  ∧ reputation w' = reputation w ∧ userRegistry w' = userRegistry w
  ∧ log w' = log w ++ [LoanRequestCreated i s a t r d].
Proof.
  unfold createLoanRequest, onlyVerifiedUser_P2PL. intros H. cbv zeta in H |- *.
  ok_require H as Hv. ok_require H as Ha. apply bool_decide_eq_true in Ha.
  ok_require H as Ht. apply bool_decide_eq_true in Ht.
  ok_require H as Hd. apply bool_decide_eq_true in Hd.
  ok_bind H as u Hc.
  injection H as <- <-. simpl in *.
  split; [done|]. split; [lia|]. split; [done|]. split; [lia|]. by repeat split.
Qed.

Lemma acceptLoanOffer_components s now oid ca ct w i w' :
  acceptLoanOffer s now oid ca ct w = Ok (i, w') →
  let o := getOffer oid w in
  isUserRegistered s w = true
  ∧ LoanOffer.lender o ≠ 0 ∧ LoanOffer.isActive o = true ∧ LoanOffer.isFulfilled o = false
  ∧ LoanOffer.lender o ≠ s
  ∧ (if bool_decide (LoanOffer.requiredCollateralAmount o > 0)
     then ct = LoanOffer.collateralToken o ∧ ca = LoanOffer.requiredCollateralAmount o
     else ca = 0 ∧ ct = 0)
  ∧ i = keccak3 (LoanOffer.id o) s now
  ∧ (∃ l1,
       (if bool_decide (LoanOffer.requiredCollateralAmount o > 0)
        then ERC20.transferFrom ct (lendingAddress w) s (lendingAddress w) ca (tokens w)
        else Ok (tokens w)) = Ok l1
       ∧ ERC20.transfer (LoanOffer.token o) (lendingAddress w) s (LoanOffer.amount o) l1
         = Ok (tokens w'))
  ∧ P2PLending.loanOffers (lending w')
    = <[oid := LoanOffer.set_isActive false (LoanOffer.set_isFulfilled true o)]>
        (P2PLending.loanOffers (lending w))
  ∧ P2PLending.loanAgreements (lending w')
    = <[i := LoanAgreement.mk i oid zero32 (LoanOffer.lender o) s (LoanOffer.amount o)
               (LoanOffer.token o) (LoanOffer.interestRateBPS o) (LoanOffer.durationSeconds o)
               ca ct now (now + LoanOffer.durationSeconds o) 0 LoanStatus.Active
               PaymentModificationType.DueDateExtension 0 false]>
        (P2PLending.loanAgreements (lending w))
  ∧ P2PLending.userLoanAgreementIdsAsLender (lending w')
    = <[LoanOffer.lender o := getUserLoanAgreementIdsAsLender (LoanOffer.lender o) w ++ [i]]>
        (P2PLending.userLoanAgreementIdsAsLender (lending w))
  ∧ P2PLending.userLoanAgreementIdsAsBorrower (lending w')
    = <[s := getUserLoanAgreementIdsAsBorrower s w ++ [i]]>
        (P2PLending.userLoanAgreementIdsAsBorrower (lending w))
  ∧ P2PLending.userLoanOfferIds (lending w') = P2PLending.userLoanOfferIds (lending w)
  ∧ P2PLending.loanRequests (lending w') = P2PLending.loanRequests (lending w)
  ∧ P2PLending.userLoanRequestIds (lending w') = P2PLending.userLoanRequestIds (lending w)
  ∧ lendingConfig (lending w') = lendingConfig (lending w)
  ∧ reputation w' = reputation w ∧ userRegistry w' = userRegistry w
  ∧ log w' = log w ++ [LoanAgreementCreated i (LoanOffer.lender o) s (LoanOffer.amount o)
                         (LoanOffer.token o) (LoanOffer.interestRateBPS o)
                         (LoanOffer.durationSeconds o) now (now + LoanOffer.durationSeconds o)
                         ca ct].
Proof.
  unfold acceptLoanOffer, onlyVerifiedUser_P2PL. intros H. cbv zeta in H |- *.
  set (o := getOffer oid w) in *.
  ok_require H as Hv. ok_require H as He. apply bool_decide_eq_true in He.
  ok_require H as Hact. ok_require H as Hful. apply negb_true_iff in Hful.
  ok_require H as Hown. apply bool_decide_eq_true in Hown.
  ok_bind H as w1 Hw1.
  assert ((if bool_decide (LoanOffer.requiredCollateralAmount o > 0)
           then ct = LoanOffer.collateralToken o ∧ ca = LoanOffer.requiredCollateralAmount o
           else ca = 0 ∧ ct = 0)
          ∧ ∃ l1, (if bool_decide (LoanOffer.requiredCollateralAmount o > 0)
                   then ERC20.transferFrom ct (lendingAddress w) s (lendingAddress w) ca
                          (tokens w)
                   else Ok (tokens w)) = Ok l1
                  ∧ w1 = set_tokens l1 w) as (Hcol & l1 & Hl1 & ->).
  { destruct (bool_decide (LoanOffer.requiredCollateralAmount o > 0)).
    - ok_require Hw1 as H1. apply bool_decide_eq_true in H1.
      ok_require Hw1 as H2. apply bool_decide_eq_true in H2.
      ok_require Hw1 as H3.
      apply token_transferFrom_effect in Hw1 as (l1 & Hl1 & ->). split; [done|]. by exists l1.
    - ok_require Hw1 as H1. apply bool_decide_eq_true in H1.
      ok_require Hw1 as H2. apply bool_decide_eq_true in H2.
      injection Hw1 as <-. split; [done|]. exists (tokens w). split; [done|].
      by destruct w. }
  ok_bind H as w2 Hw2. apply token_transfer_effect in Hw2 as (l2 & Hl2 & ->).
  ok_bind H as due Hdue. apply checked_add_Ok in Hdue as [-> _].
  injection H as <- <-. simpl in *.
  split; [done|]. split; [done|]. split; [done|]. split; [done|]. split; [done|].
  split; [done|]. split; [done|]. split; [by exists l1|]. by repeat split.
Qed.

Lemma fundLoanRequest_components s now rid w i w' :
  fundLoanRequest s now rid w = Ok (i, w') →
  let r := getRequest rid w in
  isUserRegistered s w = true
  ∧ LoanRequest.borrower r ≠ 0 ∧ LoanRequest.isActive r = true
  ∧ LoanRequest.isFulfilled r = false ∧ LoanRequest.borrower r ≠ s
  ∧ i = keccak3 (LoanRequest.id r) s now
  ∧ (∃ l1,
       ERC20.transferFrom (LoanRequest.token r) (lendingAddress w) s (LoanRequest.borrower r)
         (LoanRequest.amount r) (tokens w) = Ok l1
       ∧ (if bool_decide (LoanRequest.offeredCollateralAmount r > 0)
          then ERC20.transferFrom (LoanRequest.collateralToken r) (lendingAddress w)
                 (LoanRequest.borrower r) (lendingAddress w)
                 (LoanRequest.offeredCollateralAmount r) l1
          else Ok l1) = Ok (tokens w'))
  ∧ P2PLending.loanRequests (lending w')
    = <[rid := LoanRequest.set_isFulfilled true (LoanRequest.set_isActive false r)]>
        (P2PLending.loanRequests (lending w))
  ∧ P2PLending.loanAgreements (lending w')
    = <[i := LoanAgreement.mk i zero32 rid s (LoanRequest.borrower r) (LoanRequest.amount r)
               (LoanRequest.token r) (LoanRequest.proposedInterestRateBPS r)
               (LoanRequest.proposedDurationSeconds r) (LoanRequest.offeredCollateralAmount r)
               (LoanRequest.collateralToken r) now (now + LoanRequest.proposedDurationSeconds r)
               0 LoanStatus.Active PaymentModificationType.DueDateExtension 0 false]>
        (P2PLending.loanAgreements (lending w))
  ∧ P2PLending.userLoanAgreementIdsAsLender (lending w')
    = <[s := getUserLoanAgreementIdsAsLender s w ++ [i]]>
        (P2PLending.userLoanAgreementIdsAsLender (lending w))
  ∧ P2PLending.userLoanAgreementIdsAsBorrower (lending w')
    = <[LoanRequest.borrower r
        := getUserLoanAgreementIdsAsBorrower (LoanRequest.borrower r) w ++ [i]]>
        (P2PLending.userLoanAgreementIdsAsBorrower (lending w))
  ∧ P2PLending.loanOffers (lending w') = P2PLending.loanOffers (lending w)
  ∧ P2PLending.userLoanOfferIds (lending w') = P2PLending.userLoanOfferIds (lending w)
  ∧ P2PLending.userLoanRequestIds (lending w') = P2PLending.userLoanRequestIds (lending w)
  ∧ lendingConfig (lending w') = lendingConfig (lending w)
  ∧ reputation w' = reputation w ∧ userRegistry w' = userRegistry w
  ∧ log w' = log w ++ [LoanAgreementCreated i s (LoanRequest.borrower r) (LoanRequest.amount r)
                         (LoanRequest.token r) (LoanRequest.proposedInterestRateBPS r)
                         (LoanRequest.proposedDurationSeconds r) now
                         (now + LoanRequest.proposedDurationSeconds r)
                         (LoanRequest.offeredCollateralAmount r)
                         (LoanRequest.collateralToken r)].
Proof.
  unfold fundLoanRequest, onlyVerifiedUser_P2PL. intros H. cbv zeta in H |- *.
  set (r := getRequest rid w) in *.
  ok_require H as Hv. ok_require H as He. apply bool_decide_eq_true in He.
  ok_require H as Hact. ok_require H as Hful. apply negb_true_iff in Hful.
  ok_require H as Hown. apply bool_decide_eq_true in Hown.
  ok_require H as Hbal.
  ok_bind H as w1 Hw1. apply token_transferFrom_effect in Hw1 as (l1 & Hl1 & ->).
  ok_bind H as w2 Hw2.
  assert (∃ l2, (if bool_decide (LoanRequest.offeredCollateralAmount r > 0)
                 then ERC20.transferFrom (LoanRequest.collateralToken r) (lendingAddress w)
                        (LoanRequest.borrower r) (lendingAddress w)
                        (LoanRequest.offeredCollateralAmount r) l1
                 else Ok l1) = Ok l2
                ∧ w2 = set_tokens l2 w) as (l2 & Hl2 & ->).
  { destruct (bool_decide (LoanRequest.offeredCollateralAmount r > 0)).
    - apply token_transferFrom_effect in Hw2 as (l2 & Hl2 & ->). by exists l2.
    - injection Hw2 as <-. by exists l1. }
  ok_bind H as due Hdue. apply checked_add_Ok in Hdue as [-> _].
  injection H as <- <-. simpl in *.
  split; [done|]. split; [done|]. split; [done|]. split; [done|]. split; [done|].
  split; [done|]. split; [by exists l1|]. by repeat split.
Qed.

(** ** The book of offers, requests and agreements *)

Lemma book_ok_mono (reg reg' : address → Prop) l :
  (∀ u, reg u → reg' u) → book_ok reg l → book_ok reg' l.
Proof.
  intros Hm (O1 & O2 & R1 & R2 & A). split; [done|]. split; [|split; [done|split]].
  - intros i o Ho. specialize (O2 i o Ho). unfold offer_ok in *. intuition auto.
  - intros i r Hr. specialize (R2 i r Hr). unfold request_ok in *. intuition auto.
  - intros i Hl. specialize (A i Hl). unfold parties_ok in *. intuition auto.
Qed.

Lemma lookup_total_offer (m : gmap bytes32 LoanOffer.t) i :
  LoanOffer.lender (m !!! i) ≠ 0 → m !! i = Some (m !!! i).
Proof.
  rewrite lookup_total_alt. destruct (m !! i); simpl; [done|]. by intros [].
Qed.

Lemma lookup_total_request (m : gmap bytes32 LoanRequest.t) i :
  LoanRequest.borrower (m !!! i) ≠ 0 → m !! i = Some (m !!! i).
Proof.
  rewrite lookup_total_alt. destruct (m !! i); simpl; [done|]. by intros [].
Qed.

Lemma lookup_ids_insert (m : gmap address (list bytes32)) s u k i j :
  (<[s := (m !!! s) ++ [j]]> m !!! u) !! k = Some i →
  (m !!! u) !! k = Some i ∨ (u = s ∧ k = length (m !!! s) ∧ i = j).
Proof.
  destruct (decide (s = u)) as [->|Hne].
  - rewrite lookup_total_insert_eq. intros H.
    apply lookup_app_Some in H as [H|[Hk H]]; [by left|right].
    apply list_lookup_singleton_Some in H as [Hz ->]. split; [done|]. split; [lia|done].
  - rewrite lookup_total_insert_ne by done. by left.
Qed.

Lemma lookup_ids_insert_old (m : gmap address (list bytes32)) s u k i j :
  (m !!! u) !! k = Some i → (<[s := (m !!! s) ++ [j]]> m !!! u) !! k = Some i.
Proof.
  intros H. destruct (decide (s = u)) as [->|Hne].
  - rewrite lookup_total_insert_eq. by apply lookup_app_l_Some.
  - by rewrite lookup_total_insert_ne.
Qed.

Lemma lookup_ids_insert_new (m : gmap address (list bytes32)) s j :
  (<[s := (m !!! s) ++ [j]]> m !!! s) !! length (m !!! s) = Some j.
Proof.
  rewrite lookup_total_insert_eq. rewrite lookup_app_r by lia.
  by rewrite Nat.sub_diag.
Qed.

Lemma same_book_refl l : same_book l l.
Proof. by repeat split. Qed.

Lemma book_ok_same reg l l' : same_book l l' → book_ok reg l → book_ok reg l'.
Proof.
  intros (E1 & E2 & E3 & E4 & E5 & _ & _). unfold book_ok, offer_ok, request_ok.
  by rewrite E1, E2, E3, E4, E5.
Qed.

Lemma execute_same_book s now tx w w' :
  execute s now tx w = Ok w' →
  match tx with
  | CreateLoanOffer _ _ _ _ _ _ | CreateLoanRequest _ _ _ _ _ _ | AcceptLoanOffer _ _ _
  | FundLoanRequest _ | RepayLoan _ _ | HandleP2PDefault _
  | RequestPaymentModification _ _ _ | RespondToPaymentModification _ _ => True
  | _ => same_book (lending w) (lending w')
  end.
Proof.
  intros H. destruct tx; simpl in H; try exact I.
  - rewrite (registerUser_lending _ _ _ _ _ H). apply same_book_refl.
  - rewrite (updateProfile_lending _ _ _ _ H). apply same_book_refl.
  - apply setP2PLendingContractAddress_frame in H as (_ & -> & _). apply same_book_refl.
  - apply transferOwnership_Reputation_frame in H as (_ & -> & _). apply same_book_refl.
  - apply renounceOwnership_Reputation_frame in H as (_ & -> & _). apply same_book_refl.
  - apply recordLoanPaymentOutcome_frame in H as (_ & -> & _). apply same_book_refl.
  - apply updateReputationOnLoanDefault_frame in H as (_ & -> & _). apply same_book_refl.
  - apply addVouch_frame in H as (_ & -> & _). apply same_book_refl.
  - apply removeVouch_frame in H as (_ & -> & _). apply same_book_refl.
  - apply slashVouchAndReputation_frame in H as (_ & -> & _). apply same_book_refl.
  - unfold setReputationContractAddress in H. ok_require H as Ho. ok_require H as Hn.
    by injection H as <-.
  - unfold setReputationOAppAddress in H. ok_require H as Ho.
    by case_bool_decide; injection H as <-.
  - unfold setPythAddress in H. ok_require H as Ho. discriminate.
  - unfold transferOwnership_P2PL in H. ok_require H as Ho. ok_require H as Hn.
    by injection H as <-.
  - unfold renounceOwnership_P2PL in H. ok_require H as Ho. by injection H as <-.
  - ok_bind H as l Hl. injection H as <-. apply same_book_refl.
  - apply token_transfer_frame in H as (_ & -> & _). apply same_book_refl.
  - apply token_transferFrom_frame in H as (_ & -> & _). apply same_book_refl.
Qed.

(** A new offer identifier was never used before. *)
Lemma offer_id_fresh reg l s a t r d now :
  book_ok reg l →
  P2PLending.loanOffers l
  !! keccak7 s a t r d now (Z.of_nat (length (P2PLending.userLoanOfferIds l !!! s))) = None.
Proof.
  intros (O1 & O2 & _).
  destruct (P2PLending.loanOffers l !! _) as [o|] eqn:Ho; [|done]. exfalso.
  destruct (O2 _ _ Ho) as (_ & _ & _ & _ & _ & _ & _ & k & Hk).
  destruct (O1 _ _ _ Hk) as ((a' & t' & r' & d' & now' & Heq) & _).
  injection Heq as Hs _ _ _ _ _ Hlen. rewrite <- Hs in Hk.
  apply Nat2Z.inj in Hlen. subst k.
  apply lookup_lt_Some in Hk. exact (Nat.lt_irrefl _ Hk).
Qed.

Lemma request_id_fresh reg l s a t r d now :
  book_ok reg l →
  P2PLending.loanRequests l
  !! keccak7 s a t r d now (Z.of_nat (length (P2PLending.userLoanRequestIds l !!! s))) = None.
Proof.
  intros (_ & _ & R1 & R2 & _).
  destruct (P2PLending.loanRequests l !! _) as [o|] eqn:Ho; [|done]. exfalso.
  destruct (R2 _ _ Ho) as (_ & _ & _ & _ & _ & _ & k & Hk).
  destruct (R1 _ _ _ Hk) as ((a' & t' & r' & d' & now' & Heq) & _).
  injection Heq as Hs _ _ _ _ _ Hlen. rewrite <- Hs in Hk.
  apply Nat2Z.inj in Hlen. subst k.
  apply lookup_lt_Some in Hk. exact (Nat.lt_irrefl _ Hk).
Qed.

Lemma book_ok_createLoanOffer (reg : address → Prop) s now a t r d ca ct w i w' :
  createLoanOffer s now a t r d ca ct w = Ok (i, w') →
  (isUserRegistered s w = true → reg s) →
  book_ok reg (lending w) → book_ok reg (lending w').
Proof.
  intros H Hreg Hok.
  apply createLoanOffer_components in H
    as (Hs & Ha & Ht & Hd & Hi & Htok & Eo & Eids & Er & Erids & Eag & _ & _ & _). cbv zeta in *.
  apply transferFrom_balances in Htok as (Hs0 & _).
  assert (P2PLending.loanOffers (lending w) !! i = None) as Hfresh.
  { rewrite Hi. by apply (offer_id_fresh reg). }
  unfold getUserLoanOfferIds in *.
  destruct Hok as (O1 & O2 & R1 & R2 & A).
  unfold book_ok, offer_ok, request_ok. rewrite Eo, Eids, Er, Erids, Eag.
  split; [|split; [|done]].
  - intros u k j Hk. apply lookup_ids_insert in Hk as [Hk|(-> & -> & ->)].
    + destruct (O1 _ _ _ Hk) as (Hform & o & Ho & Hl). split; [done|].
      exists o. split; [|done]. rewrite lookup_insert_ne; [done|]. intros ->. congruence.
    + split; [rewrite Hi; eauto 10|]. eexists. split; [apply lookup_insert_eq|done].
  - intros j o Ho. destruct (decide (i = j)) as [->|Hne].
    + rewrite lookup_insert_eq in Ho. injection Ho as <-. simpl.
      split; [done|]. split; [done|]. split; [auto|]. split; [done|]. split; [done|].
      split; [done|]. split; [done|]. eexists. apply lookup_ids_insert_new.
    + rewrite lookup_insert_ne in Ho by done.
      destruct (O2 _ _ Ho) as (? & ? & ? & ? & ? & ? & ? & k & Hk).
      repeat (split; [done|]). exists k. by apply lookup_ids_insert_old.
Qed.

Lemma book_ok_createLoanRequest (reg : address → Prop) s now a t r d ca ct w i w' :
  createLoanRequest s now a t r d ca ct w = Ok (i, w') →
  (isUserRegistered s w = true → reg s) →
  book_ok reg (lending w) → book_ok reg (lending w').
Proof.
  intros H Hreg Hok.
  apply createLoanRequest_components in H
    as (Hs & Ha & Ht & Hd & Hi & Htok & Er & Erids & Eo & Eids & Eag & _ & _ & _). cbv zeta in *.
  assert (P2PLending.loanRequests (lending w) !! i = None) as Hfresh.
  { rewrite Hi. by apply (request_id_fresh reg). }
  unfold getUserLoanRequestIds in *.
  destruct Hok as (O1 & O2 & R1 & R2 & A).
  unfold book_ok, offer_ok, request_ok. rewrite Eo, Eids, Er, Erids, Eag.
  split; [done|]. split; [done|]. split; [|split; [|done]].
  - intros u k j Hk. apply lookup_ids_insert in Hk as [Hk|(-> & -> & ->)].
    + destruct (R1 _ _ _ Hk) as (Hform & o & Ho & Hl). split; [done|].
      exists o. split; [|done]. rewrite lookup_insert_ne; [done|]. intros ->. congruence.
    + split; [rewrite Hi; eauto 10|]. eexists. split; [apply lookup_insert_eq|done].
  - intros j o Ho. destruct (decide (i = j)) as [->|Hne].
    + rewrite lookup_insert_eq in Ho. injection Ho as <-. simpl.
      split; [done|]. split; [auto|]. split; [done|]. split; [done|].
      split; [done|]. split; [done|]. eexists. apply lookup_ids_insert_new.
    + rewrite lookup_insert_ne in Ho by done.
      destruct (R2 _ _ Ho) as (? & ? & ? & ? & ? & ? & k & Hk).
      repeat (split; [done|]). exists k. by apply lookup_ids_insert_old.
Qed.

Lemma book_ok_acceptLoanOffer (reg : address → Prop) s now oid ca ct w i w' :
  acceptLoanOffer s now oid ca ct w = Ok (i, w') →
  (isUserRegistered s w = true → reg s) →
  book_ok reg (lending w) → book_ok reg (lending w').
Proof.
  intros H Hreg Hok.
  apply acceptLoanOffer_components in H
    as (Hs & Hl & Hact & Hful & Hown & _ & Hi & (l1 & _ & Htok) & Eo & Eag & _ & _ & Eids & Er
        & Erids & _). cbv zeta in *.
  apply transfer_balances in Htok as (_ & Hs0 & _).
  destruct Hok as (O1 & O2 & R1 & R2 & A).
  pose proof (lookup_total_offer _ _ Hl) as Hoid. fold (getOffer oid w) in Hoid.
  destruct (O2 _ _ Hoid) as (Oid & _ & Oreg & Oamt & Otok & Odur & _ & k0 & Hk0).
  unfold book_ok, offer_ok, request_ok. rewrite Eo, Eids, Er, Erids, Eag.
  split; [|split; [|split; [done|split; [done|]]]].
  - intros u k j Hk. destruct (O1 _ _ _ Hk) as (Hform & o & Ho & Hlo). split; [done|].
    destruct (decide (oid = j)) as [->|Hne].
    + eexists. split; [apply lookup_insert_eq|]. simpl. congruence.
    + exists o. by rewrite lookup_insert_ne.
  - intros j o Ho. destruct (decide (oid = j)) as [->|Hne].
    + rewrite lookup_insert_eq in Ho. injection Ho as <-. simpl.
      repeat (split; [done|]). by exists k0.
    + rewrite lookup_insert_ne in Ho by done. by apply O2.
  - intros j Hj. destruct (decide (i = j)) as [->|Hne].
    + rewrite lookup_total_insert_eq. unfold parties_ok, totalDueOf. simpl.
      split; [done|]. split; [done|]. split; [done|]. split; [done|]. split; [done|].
      split; [auto|].
      split; [done|]. split; [done|]. split; [done|]. split; [lia|]. by repeat split.
    + rewrite lookup_total_insert_ne in Hj |- * by done. by apply A.
Qed.

Lemma book_ok_fundLoanRequest (reg : address → Prop) s now rid w i w' :
  fundLoanRequest s now rid w = Ok (i, w') →
  (isUserRegistered s w = true → reg s) →
  book_ok reg (lending w) → book_ok reg (lending w').
Proof.
  intros H Hreg Hok.
  apply fundLoanRequest_components in H
    as (Hs & Hb & Hact & Hful & Hown & Hi & (l1 & Htok & _) & Er & Eag & _ & _ & Eo & Eids
        & Erids & _). cbv zeta in *.
  destruct Hok as (O1 & O2 & R1 & R2 & A).
  pose proof (lookup_total_request _ _ Hb) as Hrid. fold (getRequest rid w) in Hrid.
  destruct (R2 _ _ Hrid) as (Rid & Rreg & Ramt & Rtok & Rdur & _ & k0 & Hk0).
  apply transferFrom_balances in Htok as (Hs0 & _).
  unfold book_ok, offer_ok, request_ok. rewrite Eo, Eids, Er, Erids, Eag.
  split; [done|]. split; [done|]. split; [|split].
  - intros u k j Hk. destruct (R1 _ _ _ Hk) as (Hform & o & Ho & Hlo). split; [done|].
    destruct (decide (rid = j)) as [->|Hne].
    + eexists. split; [apply lookup_insert_eq|]. simpl. congruence.
    + exists o. by rewrite lookup_insert_ne.
  - intros j o Ho. destruct (decide (rid = j)) as [->|Hne].
    + rewrite lookup_insert_eq in Ho. injection Ho as <-. simpl.
      repeat (split; [done|]). by exists k0.
    + rewrite lookup_insert_ne in Ho by done. by apply R2.
  - intros j Hj. destruct (decide (i = j)) as [->|Hne].
    + rewrite lookup_total_insert_eq. unfold parties_ok, totalDueOf. simpl.
      split; [done|]. split; [done|]. split; [done|]. split; [done|]. split; [auto|].
      split; [done|].
      split; [done|]. split; [done|]. split; [done|]. split; [lia|]. by repeat split.
    + rewrite lookup_total_insert_ne in Hj |- * by done. by apply A.
Qed.

Lemma parties_ok_update (reg : address → Prop) i a a' :
  LoanAgreement.id a' = LoanAgreement.id a →
  LoanAgreement.lender a' = LoanAgreement.lender a →
  LoanAgreement.borrower a' = LoanAgreement.borrower a →
  LoanAgreement.principalAmount a' = LoanAgreement.principalAmount a →
  LoanAgreement.interestRateBPS a' = LoanAgreement.interestRateBPS a →
  LoanAgreement.loanToken a' = LoanAgreement.loanToken a →
  LoanAgreement.durationSeconds a' = LoanAgreement.durationSeconds a →
  LoanAgreement.startTime a' = LoanAgreement.startTime a →
  LoanAgreement.dueDate a ≤ LoanAgreement.dueDate a' →
  LoanAgreement.status a' ≠ LoanStatus.Cancelled →
  (LoanAgreement.status a' = LoanStatus.Repaid → LoanAgreement.amountPaid a' = totalDueOf a) →
  (LoanAgreement.status a' = LoanStatus.Defaulted → LoanAgreement.amountPaid a' < totalDueOf a) →
  parties_ok reg i a → parties_ok reg i a'.
Proof.
  intros E1 E2 E3 E4 E5 E6 E7 E8 Hdue Hc Hre Hde
    (? & ? & ? & ? & ? & ? & ? & ? & ? & ? & _ & _ & _).
  unfold parties_ok, totalDueOf in *. rewrite E1, E2, E3, E4, E5, E6, E7, E8.
  repeat (split; [done|]). split; [lia|]. by repeat split.
Qed.

(** The four lifecycle calls keep the parties and the terms of an agreement,
    and leave its status in agreement with the amount paid. *)
Lemma parties_ok_step (reg : address → Prop) now i a tx a' :
  agreement_step now a tx a' →
  (∀ o ca ct, tx ≠ AcceptLoanOffer o ca ct) → (∀ r, tx ≠ FundLoanRequest r) →
  agreement_ok a →
  LoanAgreement.borrower a' = LoanAgreement.borrower a
  ∧ (parties_ok reg i a → parties_ok reg i a').
Proof.
  intros Hst Hna Hnf (Hp & Hr & Hpaid & Hpend & Happ).
  destruct Hst as [| |j p Hrep Hpos Hle|j Hact Hdue Hlt|j m v Hs Hv Hd|j approved Hs].
  - by destruct (Hna o ca ct).
  - by destruct (Hnf r).
  - assert (LoanAgreement.status (agreementAfterRepay now p (totalDueOf a) a)
            = LoanStatus.Active_PartialPaymentAgreed
            ∨ LoanAgreement.status (agreementAfterRepay now p (totalDueOf a) a)
              = statusAfterPayment (LoanAgreement.amountPaid a + p) (totalDueOf a) now
                  (LoanAgreement.dueDate a)) as Hst.
    { unfold agreementAfterRepay. repeat case_bool_decide; simpl; auto. }
    pose proof (agreementAfterRepay_amountPaid now p (totalDueOf a) a) as Hamt.
    split; [unfold agreementAfterRepay; by repeat case_bool_decide|].
    apply parties_ok_update;
      try (unfold agreementAfterRepay; by repeat case_bool_decide).
    + destruct Hst as [->| ->]; [done|]. unfold statusAfterPayment.
      by repeat case_bool_decide.
    + rewrite Hamt. destruct Hst as [->| ->]; [done|]. unfold statusAfterPayment.
      repeat case_bool_decide; intros; try done. lia.
    + destruct Hst as [->| ->]; [done|]. unfold statusAfterPayment.
      by repeat case_bool_decide.
  - split; [done|]. apply parties_ok_update; simpl; try done; lia.
  - split; [done|]. apply parties_ok_update; simpl; try done; lia.
  - unfold agreementAfterResponse, statusByDueDate.
    split; [by destruct approved; [destruct (LoanAgreement.requestedModificationType a)|]|].
    destruct approved; [destruct (LoanAgreement.requestedModificationType a) eqn:Hty|];
      apply parties_ok_update; simpl; try done; try lia;
      try (rewrite Hs; done); try (by case_bool_decide);
      try (specialize (Hpend Hs eq_refl); lia).
Qed.

Lemma book_ok_written (reg : address → Prop) now tx i a' w w' :
  agreement_written i a' w w' →
  agreement_step now (getAgreement i w) tx a' →
  (∀ o ca ct, tx ≠ AcceptLoanOffer o ca ct) → (∀ r, tx ≠ FundLoanRequest r) →
  agreement_ok (getAgreement i w) →
  book_ok reg (lending w) → book_ok reg (lending w').
Proof.
  intros (_ & _ & _ & ->) Hst Hna Hnf Hag (O1 & O2 & R1 & R2 & A).
  unfold book_ok, offer_ok, request_ok. simpl.
  split; [done|]. split; [done|]. split; [done|]. split; [done|].
  intros j Hj. destruct (decide (i = j)) as [->|Hne].
  - rewrite lookup_total_insert_eq in Hj |- *.
    destruct (parties_ok_step reg now j _ _ _ Hst Hna Hnf Hag) as [Hl Hp].
    apply Hp, A. unfold getAgreement in Hl. by rewrite <- Hl.
  - rewrite lookup_total_insert_ne in Hj |- * by done. by apply A.
Qed.

Lemma execute_book_ok s now tx w w' :
  well_typed tx → lending_ok (lending w) →
  execute s now tx w = Ok w' →
  book_ok (λ u, isUserRegistered u w = true) (lending w) →
  book_ok (λ u, isUserRegistered u w' = true) (lending w').
Proof.
  intros Hty Hlok H Hok.
  apply (book_ok_mono (λ u, isUserRegistered u w = true)).
  { intros u. by eapply execute_keeps_registered. }
  pose proof Hlok as (_ & _ & _ & Hag).
  pose proof (execute_same_book _ _ _ _ _ H) as Hsame.
  destruct tx; try (by eapply book_ok_same); simpl in H.
  - apply worldOf_Ok in H as [i H]. by eapply book_ok_createLoanOffer.
  - apply worldOf_Ok in H as [i H]. by eapply book_ok_createLoanRequest.
  - apply worldOf_Ok in H as [i H]. by eapply book_ok_acceptLoanOffer.
  - apply worldOf_Ok in H as [i H]. by eapply book_ok_fundLoanRequest.
  - apply repayLoan_effect in H as (_ & Hs & Hp & Hle & _ & Hw).
    apply (book_ok_written _ now (RepayLoan agreementId paymentAmount) _ _ _ _ Hw);
      [by apply step_repay | done | done | apply Hag | done].
  - apply handleP2PDefault_effect in H as (Hs & Hd & Hlt & Hw).
    apply (book_ok_written _ now (HandleP2PDefault agreementId) _ _ _ _ Hw);
      [by apply step_default | done | done | apply Hag | done].
  - apply requestPaymentModification_effect in H as (_ & Hs & Hv & Hd & Hw).
    apply (book_ok_written _ now
             (RequestPaymentModification _agreementId _modificationType _value) _ _ _ _ Hw);
      [by apply step_request | done | done | apply Hag | done].
  - apply respondToPaymentModification_effect in H as (_ & Hs & Hw).
    apply (book_ok_written _ now (RespondToPaymentModification _agreementId _approved)
             _ _ _ _ Hw);
      [by apply step_respond | done | done | apply Hag | done].
Qed.

Lemma reachable_book_ok w :
  reachable w → book_ok (λ u, isUserRegistered u w = true) (lending w).
Proof.
  induction 1 as [d ra la pw oapp tk w Hd | w s now tx Hr IH Hnow Hty | w tk Hr IH].
  - unfold deploy in Hd. repeat ok_step Hd. unfold book_ok. simpl.
    split; [intros u k i; rewrite lookup_total_empty; intros Hk; by destruct k|].
    split; [intros i o; by rewrite lookup_empty|].
    split; [intros u k i; rewrite lookup_total_empty; intros Hk; by destruct k|].
    split; [intros i o; by rewrite lookup_empty|].
    intros i. by rewrite lookup_total_empty.
  - destruct (execute s now tx w) as [w'|] eqn:He; simpl; [|done].
    eapply execute_book_ok; try done. by apply reachable_lending_ok.
  - exact IH.
Qed.

(** ** Offers, requests and the agreements made from them *)

(** X13. In every reachable world a successful [createLoanOffer] returns
    an identifier under which no offer was stored before. Afterwards
    [getLoanOfferDetails] returns the offer as created, active and not
    fulfilled, the identifier is appended to the lender's list, the amount has
    moved from the lender to the Lending contract, and no other offer, no
    agreement and nothing in Reputation has changed. *)
Theorem createLoanOffer_escrows_under_a_fresh_identifier
    (sender : address) (now amount : Z) (token : address)
    (rate duration collateralAmount : Z) (collateralToken : address)
    (w : World) (i : bytes32) (w' : World) :
  reachable w →
  createLoanOffer sender now amount token rate duration collateralAmount collateralToken w
  = Ok (i, w') →
  getLoanOfferDetails i w = Revert "P2PL: Offer does not exist"
  ∧ P2PLending.loanOffers (lending w) !! i = None
  ∧ getLoanOfferDetails i w'
    = Ok (LoanOffer.mk i sender amount token rate duration collateralAmount collateralToken
            true false)
  ∧ (∀ j, j ≠ i → getOffer j w' = getOffer j w)
  ∧ getUserLoanOfferIds sender w' = getUserLoanOfferIds sender w ++ [i]
  ∧ (∀ t h, ERC20.balanceOf t h (tokens w')
            = ERC20.balanceOf t h (tokens w) + moved token sender (lendingAddress w) amount t h)
  ∧ (∀ j, getAgreement j w' = getAgreement j w)
  ∧ reputation w' = reputation w.
Proof.
  intros Hr H. pose proof (reachable_book_ok w Hr) as Hok.
  apply createLoanOffer_components in H
    as (Hs & Ha & Ht & Hd & Hi & Htok & Eo & Eids & _ & _ & Eag & _ & _ & _ & Erep & _).
  cbv zeta in *.
  apply transferFrom_balances in Htok as (Hs0 & _ & _ & _ & Hbal).
  assert (P2PLending.loanOffers (lending w) !! i = None) as Hfresh.
  { rewrite Hi. by eapply offer_id_fresh. }
  unfold getLoanOfferDetails, getOffer, getUserLoanOfferIds, getAgreement in *.
  rewrite Eo, Eids, Eag.
  split.
  { rewrite (lookup_total_alt _ i), Hfresh. done. }
  split; [done|]. split.
  { rewrite lookup_total_insert_eq. simpl. by rewrite bool_decide_eq_true_2. }
  split; [intros j Hj; by rewrite lookup_total_insert_ne|].
  split; [by rewrite lookup_total_insert_eq|]. done.
Qed.

Lemma createLoanOffer_escrows_under_a_fresh_identifier_witness :
  let w := Scenario.world [(Scenario.L, Scenario.t0,
                            TokenApprove Scenario.DAI Scenario.P2PL (100 * Scenario.e18))] in
  let i := Scenario.offerId (100 * Scenario.e18) 7 in
  let r := createLoanOffer Scenario.L Scenario.t0 (100 * Scenario.e18) Scenario.DAI 1000
             (7 * Scenario.day) 0 0 w in
  let w' := commit w (worldOf r) in
  reachable w
  ∧ r = Ok (i, w')
  ∧ getLoanOfferDetails i w = Revert "P2PL: Offer does not exist"
  ∧ ERC20.balanceOf Scenario.DAI Scenario.P2PL (tokens w') = 100 * Scenario.e18
  ∧ ERC20.balanceOf Scenario.DAI Scenario.L (tokens w') = 900 * Scenario.e18.
Proof.
  intros w i r w'.
  assert (reachable w) as Hr.
  { apply reachable_play; [apply reachable_genesis|]. repeat constructor; typed. }
  assert (r = Ok (i, w')) as Er by (vm_compute; reflexivity).
  split; [exact Hr|]. split; [exact Er|].
  destruct (createLoanOffer_escrows_under_a_fresh_identifier Scenario.L Scenario.t0
              (100 * Scenario.e18) Scenario.DAI 1000 (7 * Scenario.day) 0 0 w i w' Hr Er)
    as (Hrev & _ & _ & _ & _ & Hbal & _).
  split; [exact Hrev|].
  split; (etransitivity; [apply Hbal|]; by vm_compute).
Defined.

(** X14. In every reachable world an agreement that
    [getLoanAgreementDetails] returns is stored under its own identifier, has
    two distinct, non-zero, registered parties, a positive principal and
    duration, a loan token, and a due date no earlier than its start plus its
    duration; it is never Cancelled, it has been paid in full when it is
    Repaid and less than in full when it is Defaulted. *)
Theorem reported_agreement_is_well_formed (i : bytes32) (a : LoanAgreement.t) (w : World) :
  reachable w →
  getLoanAgreementDetails i w = Ok a →
  LoanAgreement.id a = i
  ∧ LoanAgreement.lender a ≠ 0 ∧ LoanAgreement.borrower a ≠ 0
  ∧ LoanAgreement.lender a ≠ LoanAgreement.borrower a
  ∧ isUserRegistered (LoanAgreement.lender a) w = true
  ∧ isUserRegistered (LoanAgreement.borrower a) w = true
  ∧ 0 < LoanAgreement.principalAmount a ∧ LoanAgreement.loanToken a ≠ 0
  ∧ 0 < LoanAgreement.durationSeconds a
  ∧ LoanAgreement.startTime a + LoanAgreement.durationSeconds a ≤ LoanAgreement.dueDate a
  ∧ LoanAgreement.status a ≠ LoanStatus.Cancelled
  ∧ (LoanAgreement.status a = LoanStatus.Repaid → LoanAgreement.amountPaid a = totalDueOf a)
  ∧ (LoanAgreement.status a = LoanStatus.Defaulted → LoanAgreement.amountPaid a < totalDueOf a).
Proof.
  intros Hr H. unfold getLoanAgreementDetails in H.
  ok_require H as Hb. apply bool_decide_eq_true in Hb. injection H as <-.
  destruct (reachable_book_ok w Hr) as (_ & _ & _ & _ & A).
  exact (A i Hb).
Qed.

Lemma reported_agreement_is_well_formed_witness :
  let w := Scenario.world Scenario.S1_prefix in
  let i := Scenario.agreementId (100 * Scenario.e18) 7 in
  let a := getAgreement i w in
  reachable w ∧ getLoanAgreementDetails i w = Ok a
  ∧ LoanAgreement.lender a ≠ LoanAgreement.borrower a
  ∧ LoanAgreement.startTime a + LoanAgreement.durationSeconds a ≤ LoanAgreement.dueDate a.
Proof.
  intros w i a.
  assert (reachable w) as Hr.
  { apply reachable_play; [apply reachable_genesis|]. repeat constructor; typed. }
  assert (getLoanAgreementDetails i w = Ok a) as Ha by (vm_compute; reflexivity).
  split; [exact Hr|]. split; [exact Ha|].
  destruct (reported_agreement_is_well_formed i a w Hr Ha)
    as (_ & _ & _ & Hne & _ & _ & _ & _ & _ & Hdue & _).
  split; [exact Hne | exact Hdue].
Defined.

Lemma ids_NoDup (l : list bytes32) (u : address) :
  (∀ k i, l !! k = Some i → ∃ a t r d now, i = keccak7 u a t r d now (Z.of_nat k)) →
  NoDup l.
Proof.
  intros H. apply NoDup_alt. intros k1 k2 i H1 H2.
  destruct (H _ _ H1) as (a1 & t1 & r1 & d1 & n1 & E1).
  destruct (H _ _ H2) as (a2 & t2 & r2 & d2 & n2 & E2).
  rewrite E1 in E2. injection E2 as _ _ _ _ _ Hk. by apply Nat2Z.inj in Hk.
Qed.

(** X15. In every reachable world [getUserLoanOfferIds u] holds no
    identifier twice and holds exactly the identifiers of the offers that
    [getLoanOfferDetails] returns with lender [u]; the same holds of
    [getUserLoanRequestIds u] and the requests of a borrower [u] other than
    the zero address. *)
Theorem identifier_lists_are_exact (w : World) :
  reachable w →
  (∀ u, NoDup (getUserLoanOfferIds u w))
  ∧ (∀ u i, i ∈ getUserLoanOfferIds u w
            ↔ ∃ o, getLoanOfferDetails i w = Ok o ∧ LoanOffer.lender o = u)
  ∧ (∀ u, NoDup (getUserLoanRequestIds u w))
  ∧ (∀ u i, u ≠ 0 →
            i ∈ getUserLoanRequestIds u w
            ↔ ∃ r, getLoanRequestDetails i w = Ok r ∧ LoanRequest.borrower r = u).
Proof.
  intros Hr. destruct (reachable_book_ok w Hr) as (O1 & O2 & R1 & R2 & _).
  unfold getUserLoanOfferIds, getUserLoanRequestIds, getLoanOfferDetails,
    getLoanRequestDetails, getOffer, getRequest.
  split; [|split; [|split]].
  - intros u. apply (ids_NoDup _ u). intros k i Hk. by destruct (O1 _ _ _ Hk) as [Hf _].
  - intros u i. split.
    + intros Hin. apply list_elem_of_lookup_1 in Hin as [k Hk].
      destruct (O1 _ _ _ Hk) as (_ & o & Ho & Hl).
      destruct (O2 _ _ Ho) as (_ & Hl0 & _).
      exists o. rewrite (lookup_total_correct _ _ _ Ho).
      by rewrite bool_decide_eq_true_2.
    + intros (o & Ho & Hl). ok_require Ho as Hex. apply bool_decide_eq_true in Hex.
      injection Ho as <-. apply lookup_total_offer in Hex.
      destruct (O2 _ _ Hex) as (_ & _ & _ & _ & _ & _ & _ & k & Hk).
      rewrite Hl in Hk. by eapply list_elem_of_lookup_2.
  - intros u. apply (ids_NoDup _ u). intros k i Hk. by destruct (R1 _ _ _ Hk) as [Hf _].
  - intros u i Hu. split.
    + intros Hin. apply list_elem_of_lookup_1 in Hin as [k Hk].
      destruct (R1 _ _ _ Hk) as (_ & r & Ho & Hl).
      exists r. rewrite (lookup_total_correct _ _ _ Ho).
      rewrite bool_decide_eq_true_2 by congruence. done.
    + intros (r & Ho & Hl). ok_require Ho as Hex. apply bool_decide_eq_true in Hex.
      injection Ho as <-. apply lookup_total_request in Hex.
      destruct (R2 _ _ Hex) as (_ & _ & _ & _ & _ & _ & k & Hk).
      rewrite Hl in Hk. by eapply list_elem_of_lookup_2.
Qed.

Lemma identifier_lists_are_exact_witness :
  let w := Scenario.world (Scenario.openLoan (100 * Scenario.e18) 7) in
  let i := Scenario.offerId (100 * Scenario.e18) 7 in
  reachable w
  ∧ getLoanOfferDetails i w
    = Ok (LoanOffer.mk i Scenario.L (100 * Scenario.e18) Scenario.DAI 1000 (7 * Scenario.day)
            0 0 false true)
  ∧ i ∈ getUserLoanOfferIds Scenario.L w
  ∧ NoDup (getUserLoanOfferIds Scenario.L w).
Proof.
  intros w i.
  assert (reachable w) as Hr.
  { apply reachable_play; [apply reachable_genesis|]. repeat constructor; typed. }
  split; [exact Hr|]. split; [vm_compute; reflexivity|].
  destruct (identifier_lists_are_exact w Hr) as (Hnd & Hin & _).
  split; [|apply Hnd].
  apply Hin. eexists. split; [vm_compute; reflexivity | reflexivity].
Defined.

(** X16. In every reachable world a successful [createLoanRequest]
    returns an identifier under which no request was stored before, stores
    the request as created, active and not fulfilled, appends the identifier
    to the borrower's list, and moves no token: the offered collateral is only
    compared with the borrower's balance. No offer, no agreement and nothing
    in Reputation changes. *)
Theorem createLoanRequest_records_without_escrow
    (sender : address) (now amount : Z) (token : address)
    (rate duration collateralAmount : Z) (collateralToken : address)
    (w : World) (i : bytes32) (w' : World) :
  reachable w →
  createLoanRequest sender now amount token rate duration collateralAmount collateralToken w
  = Ok (i, w') →
  P2PLending.loanRequests (lending w) !! i = None
  ∧ getRequest i w'
    = LoanRequest.mk i sender amount token rate duration collateralAmount collateralToken
        true false
  ∧ (sender ≠ 0 → getLoanRequestDetails i w' = Ok (getRequest i w'))
  ∧ (∀ j, j ≠ i → getRequest j w' = getRequest j w)
  ∧ getUserLoanRequestIds sender w' = getUserLoanRequestIds sender w ++ [i]
  ∧ tokens w' = tokens w
  ∧ (∀ j, getOffer j w' = getOffer j w)
  ∧ (∀ j, getAgreement j w' = getAgreement j w)
  ∧ reputation w' = reputation w.
Proof.
  intros Hr H. pose proof (reachable_book_ok w Hr) as Hok.
  apply createLoanRequest_components in H
    as (Hs & Ha & Ht & Hd & Hi & Htok & Er & Eids & Eo & _ & Eag & _ & _ & _ & Erep & _).
  cbv zeta in *.
  assert (P2PLending.loanRequests (lending w) !! i = None) as Hfresh.
  { rewrite Hi. by eapply request_id_fresh. }
  unfold getLoanRequestDetails, getRequest, getOffer, getUserLoanRequestIds, getAgreement in *.
  rewrite Er, Eids, Eag, Eo.
  split; [done|]. rewrite !lookup_total_insert_eq.
  split; [done|]. split.
  { intros Hs0. simpl. by rewrite bool_decide_eq_true_2. }
  split; [intros j Hj; by rewrite lookup_total_insert_ne|]. done.
Qed.

Lemma createLoanRequest_records_without_escrow_witness :
  let w := Scenario.world [] in
  let r := createLoanRequest Scenario.B Scenario.t0 (50 * Scenario.e18) Scenario.DAI 500
             (7 * Scenario.day) (20 * Scenario.e18) Scenario.DAI w in
  let i := keccak7 Scenario.B (50 * Scenario.e18) Scenario.DAI 500 (7 * Scenario.day)
             Scenario.t0 0 in
  let w' := commit w (worldOf r) in
  reachable w ∧ r = Ok (i, w')
  ∧ ERC20.balanceOf Scenario.DAI Scenario.B (tokens w') = 1000 * Scenario.e18
  ∧ getUserLoanRequestIds Scenario.B w' = [i].
Proof.
  intros w r i w'.
  assert (reachable w) as Hr.
  { apply reachable_play; [apply reachable_genesis|]. repeat constructor; typed. }
  assert (r = Ok (i, w')) as Er by (vm_compute; reflexivity).
  split; [exact Hr|]. split; [exact Er|].
  destruct (createLoanRequest_records_without_escrow Scenario.B Scenario.t0
              (50 * Scenario.e18) Scenario.DAI 500 (7 * Scenario.day) (20 * Scenario.e18)
              Scenario.DAI w i w' Hr Er) as (_ & _ & _ & _ & Hids & Htok & _).
  split; [etransitivity; [exact (f_equal (ERC20.balanceOf Scenario.DAI Scenario.B) Htok)|];
          by vm_compute|].
  etransitivity; [exact Hids|]. by vm_compute.
Defined.

(** X17. In every reachable world a successful [acceptLoanOffer] returns
    the hash of the offer identifier, the borrower and the timestamp. The
    offer was active and not the caller's own, and is now inactive and
    fulfilled, so that no later [acceptLoanOffer] on it succeeds.
    [getLoanAgreementDetails] returns the new agreement: Active, with the terms
    of the offer, nothing paid, due at the timestamp plus the duration. The
    principal has moved from the Lending contract to the borrower and the
    collateral, if any, from the borrower to the contract; no other offer or
    agreement and nothing in Reputation has changed. *)
Theorem acceptLoanOffer_consumes_the_offer
    (sender : address) (now : Z) (offerId : bytes32) (ca : Z) (ct : address)
    (w : World) (i : bytes32) (w' : World) :
  reachable w →
  acceptLoanOffer sender now offerId ca ct w = Ok (i, w') →
  let o := getOffer offerId w in
  i = keccak3 offerId sender now
  ∧ LoanOffer.isActive o = true ∧ LoanOffer.lender o ≠ sender
  ∧ getOffer offerId w' = LoanOffer.set_isActive false (LoanOffer.set_isFulfilled true o)
  ∧ (∀ j, j ≠ offerId → getOffer j w' = getOffer j w)
  ∧ (∀ caller now' ca' ct', is_ok (acceptLoanOffer caller now' offerId ca' ct' w') = false)
  ∧ getLoanAgreementDetails i w'
    = Ok (LoanAgreement.mk i offerId zero32 (LoanOffer.lender o) sender (LoanOffer.amount o)
            (LoanOffer.token o) (LoanOffer.interestRateBPS o) (LoanOffer.durationSeconds o)
            ca ct now (now + LoanOffer.durationSeconds o) 0 LoanStatus.Active
            PaymentModificationType.DueDateExtension 0 false)
  ∧ (∀ j, j ≠ i → getAgreement j w' = getAgreement j w)
  ∧ (∀ t h, ERC20.balanceOf t h (tokens w')
            = ERC20.balanceOf t h (tokens w)
              + moved ct sender (lendingAddress w) ca t h
              + moved (LoanOffer.token o) (lendingAddress w) sender (LoanOffer.amount o) t h)
  ∧ reputation w' = reputation w.
Proof.
  intros Hr H o. destruct (reachable_book_ok w Hr) as (_ & O2 & _).
  apply acceptLoanOffer_components in H
    as (Hs & Hl & Hact & Hful & Hown & Hcol & Hi & (l1 & Hl1 & Htok) & Eo & Eag & _ & _ & _
        & _ & _ & _ & Erep & _).
  cbv zeta in *. fold o in Hl, Hact, Hful, Hown, Hcol, Hi, Hl1, Htok, Eo, Eag.
  apply transfer_balances in Htok as (_ & Hs0 & _ & _ & Hbal).
  pose proof (lookup_total_offer _ _ Hl) as Hoid. fold (getOffer offerId w) in Hoid.
  fold o in Hoid. destruct (O2 _ _ Hoid) as (Oid & _).
  rewrite Oid in Hi.
  assert (getOffer offerId w'
          = LoanOffer.set_isActive false (LoanOffer.set_isFulfilled true o)) as Ho'.
  { unfold getOffer. rewrite Eo. by rewrite lookup_total_insert_eq. }
  split; [done|]. split; [done|]. split; [done|]. split; [done|]. split.
  { intros j Hj. unfold getOffer. rewrite Eo. by rewrite lookup_total_insert_ne. }
  split.
  { intros caller now' ca' ct'.
    destruct (acceptLoanOffer caller now' offerId ca' ct' w') as [[j w2]|] eqn:E; [|done].
    apply acceptLoanOffer_components in E as (_ & _ & Hact' & _). cbv zeta in Hact'.
    by rewrite Ho' in Hact'. }
  split.
  { unfold getLoanAgreementDetails, getAgreement. rewrite Eag, lookup_total_insert_eq. simpl.
    by rewrite bool_decide_eq_true_2. }
  split.
  { intros j Hj. unfold getAgreement. rewrite Eag. by rewrite lookup_total_insert_ne. }
  split; [|done].
  intros t h. rewrite Hbal. f_equal.
  destruct (bool_decide (LoanOffer.requiredCollateralAmount o > 0)).
  - apply transferFrom_balances in Hl1 as (_ & _ & _ & _ & Hb1). apply Hb1.
  - injection Hl1 as <-. destruct Hcol as [-> ->]. unfold moved.
    repeat case_bool_decide; lia.
Qed.

Lemma acceptLoanOffer_consumes_the_offer_witness :
  let w := Scenario.world (firstn 2 (Scenario.openLoan (100 * Scenario.e18) 7)) in
  let oid := Scenario.offerId (100 * Scenario.e18) 7 in
  let i := Scenario.agreementId (100 * Scenario.e18) 7 in
  let r := acceptLoanOffer Scenario.B Scenario.t0 oid 0 0 w in
  let w' := commit w (worldOf r) in
  reachable w ∧ r = Ok (i, w')
  ∧ ERC20.balanceOf Scenario.DAI Scenario.B (tokens w') = 1100 * Scenario.e18
  ∧ ERC20.balanceOf Scenario.DAI Scenario.P2PL (tokens w') = 0
  ∧ is_ok (acceptLoanOffer Scenario.V Scenario.t0 oid 0 0 w') = false.
Proof.
  intros w oid i r w'.
  assert (reachable w) as Hr.
  { apply reachable_play; [apply reachable_genesis|]. repeat constructor; typed. }
  assert (r = Ok (i, w')) as Er by (vm_compute; reflexivity).
  split; [exact Hr|]. split; [exact Er|].
  destruct (acceptLoanOffer_consumes_the_offer Scenario.B Scenario.t0 oid 0 0 w i w' Hr Er)
    as (_ & _ & _ & _ & _ & Hno & _ & _ & Hbal & _).
  split; [etransitivity; [apply Hbal|]; by vm_compute|].
  split; [etransitivity; [apply Hbal|]; by vm_compute|].
  apply Hno.
Defined.

(** X18. In every reachable world a successful [fundLoanRequest] returns
    the hash of the request identifier, the lender and the timestamp. The
    request was active and not the caller's own, and is now inactive and
    fulfilled, so that no later [fundLoanRequest] on it succeeds.
    [getLoanAgreementDetails] returns the new agreement: Active, with the terms
    of the request, nothing paid, due at the timestamp plus the duration. The
    principal has moved from the lender straight to the borrower and the
    collateral, if any, from the borrower to the Lending contract; no other
    request or agreement and nothing in Reputation has changed. *)
Theorem fundLoanRequest_pays_the_borrower_directly
    (sender : address) (now : Z) (requestId : bytes32)
    (w : World) (i : bytes32) (w' : World) :
  reachable w →
  fundLoanRequest sender now requestId w = Ok (i, w') →
  let r := getRequest requestId w in
  i = keccak3 requestId sender now
  ∧ LoanRequest.isActive r = true ∧ LoanRequest.borrower r ≠ sender
  ∧ getRequest requestId w'
    = LoanRequest.set_isFulfilled true (LoanRequest.set_isActive false r)
  ∧ (∀ j, j ≠ requestId → getRequest j w' = getRequest j w)
  ∧ (∀ caller now', is_ok (fundLoanRequest caller now' requestId w') = false)
  ∧ getLoanAgreementDetails i w'
    = Ok (LoanAgreement.mk i zero32 requestId sender (LoanRequest.borrower r)
            (LoanRequest.amount r) (LoanRequest.token r) (LoanRequest.proposedInterestRateBPS r)
            (LoanRequest.proposedDurationSeconds r) (LoanRequest.offeredCollateralAmount r)
            (LoanRequest.collateralToken r) now (now + LoanRequest.proposedDurationSeconds r)
            0 LoanStatus.Active PaymentModificationType.DueDateExtension 0 false)
  ∧ (∀ j, j ≠ i → getAgreement j w' = getAgreement j w)
  ∧ (∀ t h, ERC20.balanceOf t h (tokens w')
            = ERC20.balanceOf t h (tokens w)
              + moved (LoanRequest.token r) sender (LoanRequest.borrower r)
                  (LoanRequest.amount r) t h
              + (if bool_decide (LoanRequest.offeredCollateralAmount r > 0)
                 then moved (LoanRequest.collateralToken r) (LoanRequest.borrower r)
                        (lendingAddress w) (LoanRequest.offeredCollateralAmount r) t h
                 else 0))
  ∧ reputation w' = reputation w.
Proof.
  intros Hr H r. destruct (reachable_book_ok w Hr) as (_ & _ & _ & R2 & _).
  apply fundLoanRequest_components in H
    as (Hs & Hb & Hact & Hful & Hown & Hi & (l1 & Hl1 & Htok) & Er & Eag & _ & _ & _ & _ & _
        & _ & Erep & _).
  cbv zeta in *. fold r in Hb, Hact, Hful, Hown, Hi, Hl1, Htok, Er, Eag.
  apply transferFrom_balances in Hl1 as (_ & _ & _ & _ & Hbal1).
  pose proof (lookup_total_request _ _ Hb) as Hrid. fold (getRequest requestId w) in Hrid.
  fold r in Hrid. destruct (R2 _ _ Hrid) as (Rid & _).
  rewrite Rid in Hi.
  assert (getRequest requestId w'
          = LoanRequest.set_isFulfilled true (LoanRequest.set_isActive false r)) as Hr'.
  { unfold getRequest. rewrite Er. by rewrite lookup_total_insert_eq. }
  split; [done|]. split; [done|]. split; [done|]. split; [done|]. split.
  { intros j Hj. unfold getRequest. rewrite Er. by rewrite lookup_total_insert_ne. }
  split.
  { intros caller now'.
    destruct (fundLoanRequest caller now' requestId w') as [[j w2]|] eqn:E; [|done].
    apply fundLoanRequest_components in E as (_ & _ & Hact' & _). cbv zeta in Hact'.
    by rewrite Hr' in Hact'. }
  split.
  { unfold getLoanAgreementDetails, getAgreement. rewrite Eag, lookup_total_insert_eq. simpl.
    by rewrite bool_decide_eq_true_2. }
  split.
  { intros j Hj. unfold getAgreement. rewrite Eag. by rewrite lookup_total_insert_ne. }
  split; [|done].
  intros t h.
  destruct (bool_decide (LoanRequest.offeredCollateralAmount r > 0)).
  - apply transferFrom_balances in Htok as (_ & _ & _ & _ & Hb2). by rewrite Hb2, Hbal1.
  - injection Htok as <-. rewrite Hbal1. lia.
Qed.

Lemma fundLoanRequest_pays_the_borrower_directly_witness :
  let rid := keccak7 Scenario.B (50 * Scenario.e18) Scenario.DAI 500 (7 * Scenario.day)
               Scenario.t0 0 in
  let w := Scenario.world
             [(Scenario.B, Scenario.t0,
               CreateLoanRequest (50 * Scenario.e18) Scenario.DAI 500 (7 * Scenario.day) 0 0);
              (Scenario.L, Scenario.t0,
               TokenApprove Scenario.DAI Scenario.P2PL (50 * Scenario.e18))] in
  let r := fundLoanRequest Scenario.L Scenario.t0 rid w in
  let i := keccak3 rid Scenario.L Scenario.t0 in
  let w' := commit w (worldOf r) in
  reachable w ∧ r = Ok (i, w')
  ∧ ERC20.balanceOf Scenario.DAI Scenario.B (tokens w') = 1050 * Scenario.e18
  ∧ ERC20.balanceOf Scenario.DAI Scenario.L (tokens w') = 950 * Scenario.e18
  ∧ ERC20.balanceOf Scenario.DAI Scenario.P2PL (tokens w') = 0.
Proof.
  intros rid w r i w'.
  assert (reachable w) as Hr.
  { apply reachable_play; [apply reachable_genesis|]. repeat constructor; typed. }
  assert (r = Ok (i, w')) as Er by (vm_compute; reflexivity).
  split; [exact Hr|]. split; [exact Er|].
  destruct (fundLoanRequest_pays_the_borrower_directly Scenario.L Scenario.t0 rid w i w' Hr Er)
    as (_ & _ & _ & _ & _ & _ & _ & _ & Hbal & _).
  split; [etransitivity; [apply Hbal|]; by vm_compute|].
  split; [etransitivity; [apply Hbal|]; by vm_compute|].
  etransitivity; [apply Hbal|]; by vm_compute.
Defined.

(** X19. The identifier of an agreement does not tell an accepted offer
    from a funded request. When, in a reachable world, a user accepts the
    offer stored under [id] and at the same timestamp funds the request stored
    under the same [id], the second call returns the identifier of the first
    agreement and overwrites it: the record in which the user was the borrower
    is replaced by one in which the user is the lender and the requester the
    borrower, with nothing paid, while the identifier stays in the user's
    lists both as borrower and as lender. *)
Theorem funding_a_twin_request_overwrites_the_agreement
    (sender : address) (now : Z) (id : bytes32) (ca : Z) (ct : address)
    (w : World) (i : bytes32) (w1 : World) (j : bytes32) (w2 : World) :
  reachable w →
  acceptLoanOffer sender now id ca ct w = Ok (i, w1) →
  fundLoanRequest sender now id w1 = Ok (j, w2) →
  j = i
  ∧ LoanAgreement.borrower (getAgreement i w1) = sender
  ∧ LoanAgreement.lender (getAgreement i w1) = LoanOffer.lender (getOffer id w)
  ∧ LoanAgreement.originalOfferId (getAgreement i w1) = id
  ∧ LoanAgreement.lender (getAgreement i w2) = sender
  ∧ LoanAgreement.borrower (getAgreement i w2) = LoanRequest.borrower (getRequest id w)
  ∧ LoanAgreement.borrower (getAgreement i w2) ≠ sender
  ∧ LoanAgreement.originalOfferId (getAgreement i w2) = zero32
  ∧ LoanAgreement.originalRequestId (getAgreement i w2) = id
  ∧ LoanAgreement.amountPaid (getAgreement i w2) = 0
  ∧ i ∈ getUserLoanAgreementIdsAsBorrower sender w2
  ∧ i ∈ getUserLoanAgreementIdsAsLender sender w2.
Proof.
  intros Hr H1 H2. pose proof (reachable_book_ok w Hr) as Hok.
  pose proof (book_ok_acceptLoanOffer _ _ _ _ _ _ _ _ _ H1 (λ x, x) Hok) as Hok1.
  destruct Hok as (_ & O2 & _). destruct Hok1 as (_ & _ & _ & R2 & _).
  apply acceptLoanOffer_components in H1
    as (_ & Hl & _ & _ & _ & _ & Hi & _ & _ & Eag & _ & Eb & _ & Er & _).
  apply fundLoanRequest_components in H2
    as (_ & Hb & _ & _ & Hown & Hj & _ & _ & Eag2 & El2 & Eb2 & _).
  cbv zeta in *.
  pose proof (lookup_total_offer _ _ Hl) as Hoid. destruct (O2 _ _ Hoid) as (Oid & _).
  pose proof (lookup_total_request _ _ Hb) as Hrid. destruct (R2 _ _ Hrid) as (Rid & _).
  fold (getOffer id w) in Oid. fold (getRequest id w1) in Rid.
  rewrite Oid in Hi. rewrite Rid in Hj.
  assert (j = i) as -> by congruence.
  assert (getRequest id w1 = getRequest id w) as Hreq by (unfold getRequest; by rewrite Er).
  rewrite Hreq in *.
  unfold getAgreement, getUserLoanAgreementIdsAsBorrower, getUserLoanAgreementIdsAsLender in *.
  rewrite Eag2, Eb2, El2, Eag, !lookup_total_insert_eq. simpl.
  repeat (split; [done|]). split.
  - destruct (decide (LoanRequest.borrower (getRequest id w) = sender)) as [E|N]; [done|].
    rewrite lookup_total_insert_ne by done. rewrite Eb.
    eapply list_elem_of_lookup_2. apply lookup_ids_insert_new.
  - apply elem_of_app. right. apply list_elem_of_here.
Qed.

Lemma funding_a_twin_request_overwrites_the_agreement_witness :
  let id := Scenario.offerId (100 * Scenario.e18) 7 in
  let w := Scenario.world
             [(Scenario.L, Scenario.t0,
               TokenApprove Scenario.DAI Scenario.P2PL (100 * Scenario.e18));
              (Scenario.L, Scenario.t0,
               CreateLoanOffer (100 * Scenario.e18) Scenario.DAI 1000 (7 * Scenario.day) 0 0);
              (Scenario.L, Scenario.t0,
               CreateLoanRequest (100 * Scenario.e18) Scenario.DAI 1000 (7 * Scenario.day) 0 0);
              (Scenario.B, Scenario.t0,
               TokenApprove Scenario.DAI Scenario.P2PL (100 * Scenario.e18))] in
  let i := Scenario.agreementId (100 * Scenario.e18) 7 in
  let w1 := commit w (worldOf (acceptLoanOffer Scenario.B Scenario.t0 id 0 0 w)) in
  let w2 := commit w1 (worldOf (fundLoanRequest Scenario.B Scenario.t0 id w1)) in
  reachable w
  ∧ acceptLoanOffer Scenario.B Scenario.t0 id 0 0 w = Ok (i, w1)
  ∧ fundLoanRequest Scenario.B Scenario.t0 id w1 = Ok (i, w2)
  ∧ LoanAgreement.borrower (getAgreement i w1) = Scenario.B
  ∧ LoanAgreement.lender (getAgreement i w2) = Scenario.B
  ∧ LoanAgreement.borrower (getAgreement i w2) = Scenario.L.
Proof.
  intros id w i w1 w2.
  assert (reachable w) as Hr.
  { apply reachable_play; [apply reachable_genesis|]. repeat constructor; typed. }
  assert (acceptLoanOffer Scenario.B Scenario.t0 id 0 0 w = Ok (i, w1)) as H1
    by (vm_compute; reflexivity).
  assert (fundLoanRequest Scenario.B Scenario.t0 id w1 = Ok (i, w2)) as H2
    by (vm_compute; reflexivity).
  split; [exact Hr|]. split; [exact H1|]. split; [exact H2|].
  destruct (funding_a_twin_request_overwrites_the_agreement Scenario.B Scenario.t0 id 0 0
              w i w1 i w2 Hr H1 H2) as (_ & Hb1 & _ & _ & Hl2 & Hb2 & _).
  split; [exact Hb1|]. split; [exact Hl2|].
  etransitivity; [exact Hb2|]. by vm_compute.
Defined.

(** ** The terms of an agreement *)

Lemma totalDueOf_terms a a' : termsOf a' = termsOf a → totalDueOf a' = totalDueOf a.
Proof. unfold termsOf, totalDueOf. intros [= _ _ _ _ _ Hp _ Hrate _ _ _ _]. by rewrite Hp, Hrate. Qed.

(** X20. In a reachable world no transaction other than
    [acceptLoanOffer] and [fundLoanRequest] changes the parties or the terms
    of any agreement (identifier, origin, lender, borrower, principal, token,
    rate, duration, collateral, start time), hence its total due. The due date
    and the amount paid never decrease; the amount paid changes only by
    [repayLoan] and the due date only by [respondToPaymentModification]. *)
Theorem lifecycle_calls_keep_the_terms
    (sender : address) (now : Z) (tx : Tx) (w w' : World) (j : bytes32) :
  reachable w →
  execute sender now tx w = Ok w' →
  (∀ o ca ct, tx ≠ AcceptLoanOffer o ca ct) → (∀ r, tx ≠ FundLoanRequest r) →
  let a := getAgreement j w in
  let a' := getAgreement j w' in
  termsOf a' = termsOf a
  ∧ totalDueOf a' = totalDueOf a
  ∧ LoanAgreement.dueDate a ≤ LoanAgreement.dueDate a'
  ∧ LoanAgreement.amountPaid a ≤ LoanAgreement.amountPaid a'
  ∧ ((∀ i p, tx ≠ RepayLoan i p) → LoanAgreement.amountPaid a' = LoanAgreement.amountPaid a)
  ∧ ((∀ i approved, tx ≠ RespondToPaymentModification i approved) →
     LoanAgreement.dueDate a' = LoanAgreement.dueDate a).
Proof.
  intros Hr H Hna Hnf a a'.
  pose proof (reachable_lending_ok w Hr) as Hok.
  pose proof Hok as (_ & _ & _ & Hag). specialize (Hag j). fold (getAgreement j w) in Hag.
  fold a in Hag. destruct Hag as (Hp & Hrate & Hpaid & Hpend & _).
  destruct (execute_agreement_step _ _ _ _ _ j Hok H) as [Heq|Hst]; fold a a' in Heq || fold a a' in Hst.
  { rewrite Heq. repeat split; lia. }
  clearbody a a'.
  destruct Hst as [| |i p Hrep Hpos Hle|i Hact Hdue Hlt|i m v Hs Hv Hd|i approved Hs].
  - by destruct (Hna o ca ct).
  - by destruct (Hnf r).
  - pose proof (agreementAfterRepay_amountPaid now p (totalDueOf a) a) as Hamt.
    assert (termsOf (agreementAfterRepay now p (totalDueOf a) a) = termsOf a
            ∧ LoanAgreement.dueDate (agreementAfterRepay now p (totalDueOf a) a)
              = LoanAgreement.dueDate a) as [Ht Hd].
    { unfold agreementAfterRepay. by repeat case_bool_decide. }
    split; [done|]. split; [by apply totalDueOf_terms|].
    split; [lia|]. split; [lia|]. split; [intros Hn; by destruct (Hn i p)|done].
  - split; [done|]. split; [by apply totalDueOf_terms|]. repeat split; simpl; lia.
  - split; [done|]. split; [by apply totalDueOf_terms|]. repeat split; simpl; lia.
  - assert (termsOf (agreementAfterResponse now approved a) = termsOf a
            ∧ LoanAgreement.amountPaid (agreementAfterResponse now approved a)
              = LoanAgreement.amountPaid a
            ∧ LoanAgreement.dueDate a
              ≤ LoanAgreement.dueDate (agreementAfterResponse now approved a))
      as (Ht & Hamt & Hdue).
    { unfold agreementAfterResponse.
      destruct approved; [destruct (LoanAgreement.requestedModificationType a) eqn:Hty|];
        simpl; (split; [done|]); (split; [done|]); try lia.
      specialize (Hpend Hs eq_refl). lia. }
    split; [done|]. split; [by apply totalDueOf_terms|]. split; [done|]. split; [lia|].
    split; [done|]. intros Hn. by destruct (Hn i approved).
Qed.

Lemma lifecycle_calls_keep_the_terms_witness :
  let w := Scenario.world Scenario.S3_prefix in
  let i := Scenario.agreementId (70 * Scenario.e18) 7 in
  let now := Scenario.t0 + 6 * Scenario.day in
  let w' := commit w (execute Scenario.L now (RespondToPaymentModification i true) w) in
  reachable w
  ∧ execute Scenario.L now (RespondToPaymentModification i true) w = Ok w'
  ∧ LoanAgreement.dueDate (getAgreement i w') = Scenario.t0 + 14 * Scenario.day
  ∧ totalDueOf (getAgreement i w') = 77 * Scenario.e18.
Proof.
  intros w i now w'.
  assert (reachable w) as Hr.
  { apply reachable_play; [apply reachable_genesis|]. repeat constructor; typed. }
  assert (execute Scenario.L now (RespondToPaymentModification i true) w = Ok w') as H
    by (vm_compute; reflexivity).
  split; [exact Hr|]. split; [exact H|]. split; [by vm_compute|].
  destruct (lifecycle_calls_keep_the_terms Scenario.L now (RespondToPaymentModification i true)
              w w' i Hr H) as (_ & Htd & _); [discriminate | discriminate |].
  etransitivity; [exact Htd|]. by vm_compute.
Defined.

(** ** Default and repayment *)

(** X21. A successful [updateReputationOnLoanDefault] comes from the
    Lending authority; it counts one loan taken and one default for the
    borrower and lowers the borrower's score by 50, on the profile as
    initialised when the borrower is registered. The lender, the amount and
    the list of vouches play no part: no other profile, no vouch and no
    balance changes, and one [ReputationUpdated] is logged. *)
Theorem updateReputationOnLoanDefault_penalises_only_the_borrower
    (sender borrower lender : address) (loanAmount : Z) (vouchesForThisLoan : list bytes32)
    (w w' : World) :
  updateReputationOnLoanDefault sender borrower lender loanAmount vouchesForThisLoan w = Ok w' →
  let p := getReputationProfile borrower
             (_initializeReputationProfileIfNotExists borrower w) in
  sender = Reputation.p2pLendingContractAddress (reputation w)
  ∧ getReputationProfile borrower w'
    = ReputationProfile.set_currentReputationScore
        (ReputationProfile.currentReputationScore p - 50)
        (ReputationProfile.set_loansDefaulted (ReputationProfile.loansDefaulted p + 1)
           (ReputationProfile.set_loansTaken (ReputationProfile.loansTaken p + 1) p))
  ∧ (∀ u, u ≠ borrower → getReputationProfile u w' = getReputationProfile u w)
  ∧ (∀ v b, getVouchDetails v b w' = getVouchDetails v b w)
  ∧ tokens w' = tokens w
  ∧ log w' = log w ++ [ReputationUpdated borrower
                         (ReputationProfile.currentReputationScore p - 50) "Loan defaulted"].
Proof.
  intros H p. unfold updateReputationOnLoanDefault, onlyP2PLendingContract in H.
  ok_require H as Hauth. apply bool_decide_eq_true in Hauth.
  ok_bind H as w1 E1. apply increase_effect in E1. cbv zeta in E1.
  ok_bind H as w2 E2. apply increase_effect in E2. cbv zeta in E2.
  ok_bind H as w3 E3. apply addScore_effect in E3. cbv zeta in E3.
  injection H as <-.
  rewrite E1, getReputationProfile_writeProfile in E2.
  rewrite E2, getReputationProfile_writeProfile in E3.
  fold p in E1, E2, E3.
  destruct (initialize_shape borrower w) as (m & Hinit & Hoth & _).
  destruct (initialize_keeps borrower w) as (Htk & Hav).
  assert (getReputationProfile borrower w3
          = ReputationProfile.set_currentReputationScore
              (ReputationProfile.currentReputationScore p - 50)
              (ReputationProfile.set_loansDefaulted (ReputationProfile.loansDefaulted p + 1)
                 (ReputationProfile.set_loansTaken (ReputationProfile.loansTaken p + 1) p)))
    as Hb3.
  { rewrite E3, getReputationProfile_writeProfile. by destruct p. }
  assert (∀ u, u ≠ borrower → getReputationProfile u w3 = getReputationProfile u w) as Ho3.
  { intros u Hu. rewrite E3, !getReputationProfile_writeProfile_ne by done.
    rewrite Hinit. unfold getReputationProfile at 1. simpl. by apply Hoth. }
  assert (reputation w3 = Reputation.set_userReputations
                            (Reputation.userReputations (reputation w3))
                            (reputation (_initializeReputationProfileIfNotExists borrower w))
          ∧ tokens w3 = tokens w ∧ log w3 = log w) as (Hrep3 & Htk3 & Hlog3).
  { rewrite E3. simpl. split; [done|]. split; [done|].
    unfold _initializeReputationProfileIfNotExists. by case_match. }
  split; [done|]. split; [exact Hb3|]. split; [exact Ho3|]. split.
  { intros v b. unfold getVouchDetails. simpl. rewrite Hrep3. simpl. by rewrite Hav. }
  split; [exact Htk3|]. simpl. by rewrite Hlog3, Hb3.
Qed.

Lemma updateReputationOnLoanDefault_penalises_only_the_borrower_witness :
  let w := Scenario.world [] in
  let w' := commit w (updateReputationOnLoanDefault Scenario.P2PL Scenario.B Scenario.L
                        (100 * Scenario.e18) [] w) in
  updateReputationOnLoanDefault Scenario.P2PL Scenario.B Scenario.L (100 * Scenario.e18) [] w
  = Ok w'
  ∧ ReputationProfile.currentReputationScore (getReputationProfile Scenario.B w') = -50
  ∧ ReputationProfile.loansDefaulted (getReputationProfile Scenario.B w') = 1
  ∧ getReputationProfile Scenario.L w' = ReputationProfile.zero.
Proof.
  intros w w'.
  assert (updateReputationOnLoanDefault Scenario.P2PL Scenario.B Scenario.L
            (100 * Scenario.e18) [] w = Ok w') as H by (vm_compute; reflexivity).
  split; [exact H|].
  destruct (updateReputationOnLoanDefault_penalises_only_the_borrower Scenario.P2PL Scenario.B
              Scenario.L (100 * Scenario.e18) [] w w' H) as (_ & Hb & Ho & _).
  cbv zeta in Hb.
  split; [exact (eq_trans (f_equal ReputationProfile.currentReputationScore Hb) eq_refl)|].
  split; [exact (eq_trans (f_equal ReputationProfile.loansDefaulted Hb) eq_refl)|].
  etransitivity; [apply Ho; vm_compute; discriminate|]. by vm_compute.
Defined.

Lemma recordLoanPaymentOutcome_tokens sender i b l p o m a w w' :
  recordLoanPaymentOutcome sender i b l p o m a w = Ok w' → b ≠ l → tokens w' = tokens w.
Proof.
  intros H Hne. apply recordLoanPaymentOutcome_effect in H; [|done].
  by destruct H as (_ & _ & _ & _ & _ & _ & _ & _ & _ & Htk).
Qed.

(** X22. In every reachable world a successful [repayLoan] is the
    borrower's, adds the payment to [amountPaid], and moves exactly the payment
    from the borrower to the lender. When the payment settles the loan and a
    collateral is recorded, the collateral moves from the Lending contract to
    the borrower as well. No other balance changes: nothing goes to the
    platform wallet. *)
Theorem repayLoan_pays_the_lender_directly
    (sender : address) (now : Z) (i : bytes32) (p : Z) (w w' : World) :
  reachable w →
  repayLoan sender now i p w = Ok w' →
  let a := getAgreement i w in
  let a' := getAgreement i w' in
  sender = LoanAgreement.borrower a
  ∧ LoanAgreement.amountPaid a' = LoanAgreement.amountPaid a + p
  ∧ ∀ t h,
      ERC20.balanceOf t h (tokens w')
      = ERC20.balanceOf t h (tokens w)
        + moved (LoanAgreement.loanToken a) sender (LoanAgreement.lender a) p t h
        + (if bool_decide (LoanAgreement.status a' = LoanStatus.Repaid)
              && (bool_decide (LoanAgreement.collateralAmount a > 0)
                  && bool_decide (LoanAgreement.collateralToken a ≠ 0))
           then moved (LoanAgreement.collateralToken a) (lendingAddress w) sender
                  (LoanAgreement.collateralAmount a) t h
           else 0).
Proof.
  intros Hr H a a'.
  pose proof (repayLoan_effect _ _ _ _ _ _ H) as (Hb & _ & _ & _ & _ & Hw).
  pose proof (agreement_written_lookup _ _ _ _ i Hw) as Ha'. rewrite decide_True in Ha' by done.
  change (a' = agreementAfterRepay now p (totalDueOf a) a) in Ha'. fold a in Hb.
  clearbody a'.
  pose proof (repayLoan_inv _ _ _ _ _ _ H) as (w1 & Hw1 & Hrest). cbv zeta in Hrest.
  fold a in Hw1, Hrest.
  rewrite <- Ha' in Hrest.
  apply token_transferFrom_effect in Hw1 as (l1 & Hl1 & ->).
  apply transferFrom_balances in Hl1 as (Hs0 & _ & _ & _ & Hbal1).
  split; [done|]. split; [rewrite Ha'; apply agreementAfterRepay_amountPaid|].
  intros t h.
  destruct (bool_decide (LoanAgreement.status a' = LoanStatus.Repaid)) eqn:Hrep; simpl.
  - destruct Hrest as (w3 & w4 & Hw3 & Hw4 & ->). simpl.
    assert (LoanAgreement.borrower a ≠ LoanAgreement.lender a) as Hne.
    { destruct (reachable_book_ok w Hr) as (_ & _ & _ & _ & A).
      assert (LoanAgreement.borrower a ≠ 0) as Hb0 by congruence.
      destruct (A i Hb0) as (_ & _ & _ & Hlb & _). fold (getAgreement i w) in Hlb.
      fold a in Hlb. congruence. }
    assert (tokens w4 = tokens w3) as ->.
    { destruct (bool_decide (P2PLending.reputationContract (lending w) ≠ 0));
        [by eapply recordLoanPaymentOutcome_tokens | by injection Hw4 as <-]. }
    destruct (bool_decide (LoanAgreement.collateralAmount a > 0)
              && bool_decide (LoanAgreement.collateralToken a ≠ 0)).
    + apply token_transfer_effect in Hw3 as (l3 & Hl3 & ->). simpl in *.
      apply transfer_balances in Hl3 as (_ & _ & _ & _ & Hbal3).
      rewrite Hbal3, Hbal1, Hb. done.
    + injection Hw3 as <-. simpl. rewrite Hbal1. lia.
  - rewrite Hrest. simpl. rewrite Hbal1. lia.
Qed.

Lemma repayLoan_pays_the_lender_directly_witness :
  let w := Scenario.world Scenario.S1_prefix in
  let i := Scenario.agreementId (100 * Scenario.e18) 7 in
  let now := Scenario.t0 + 6 * Scenario.day in
  let w' := commit w (repayLoan Scenario.B now i (110 * Scenario.e18) w) in
  reachable w
  ∧ repayLoan Scenario.B now i (110 * Scenario.e18) w = Ok w'
  ∧ ERC20.balanceOf Scenario.DAI Scenario.L (tokens w') = 1010 * Scenario.e18
  ∧ ERC20.balanceOf Scenario.DAI Scenario.B (tokens w') = 990 * Scenario.e18
  ∧ ERC20.balanceOf Scenario.DAI Scenario.platform (tokens w') = 0.
Proof.
  intros w i now w'.
  assert (reachable w) as Hr.
  { apply reachable_play; [apply reachable_genesis|]. repeat constructor; typed. }
  assert (repayLoan Scenario.B now i (110 * Scenario.e18) w = Ok w') as H
    by (vm_compute; reflexivity).
  split; [exact Hr|]. split; [exact H|].
  destruct (repayLoan_pays_the_lender_directly Scenario.B now i (110 * Scenario.e18) w w' Hr H)
    as (_ & _ & Hbal).
  split; [etransitivity; [apply Hbal|]; by vm_compute|].
  split; [etransitivity; [apply Hbal|]; by vm_compute|].
  etransitivity; [apply Hbal|]; by vm_compute.
Defined.

(** ** Administration and deployment *)

Lemma agreement_written_config i a w w' :
  agreement_written i a w w' → lendingConfig (lending w') = lendingConfig (lending w).
Proof. intros (_ & _ & _ & ->). done. Qed.

(** X23. No transaction sent by anyone other than the owner of the
    Lending contract changes its owner, its Reputation contract address, its
    cross-chain application address or its platform wallet. *)
Theorem only_the_owner_reconfigures_lending
    (sender : address) (now : Z) (tx : Tx) (w w' : World) :
  execute sender now tx w = Ok w' →
  sender ≠ P2PLending.owner (lending w) →
  P2PLending.owner (lending w') = P2PLending.owner (lending w)
  ∧ P2PLending.reputationContract (lending w') = P2PLending.reputationContract (lending w)
  ∧ P2PLending.reputationOApp (lending w') = P2PLending.reputationOApp (lending w)
  ∧ P2PLending.platformWallet (lending w') = P2PLending.platformWallet (lending w).
Proof.
  intros H Hne.
  assert (lendingConfig (lending w') = lendingConfig (lending w)) as Hc.
  { destruct tx; simpl in H.
    - by rewrite (registerUser_lending _ _ _ _ _ H).
    - by rewrite (updateProfile_lending _ _ _ _ H).
    - by apply setP2PLendingContractAddress_frame in H as (_ & -> & _).
    - by apply transferOwnership_Reputation_frame in H as (_ & -> & _).
    - by apply renounceOwnership_Reputation_frame in H as (_ & -> & _).
    - by apply recordLoanPaymentOutcome_frame in H as (_ & -> & _).
    - by apply updateReputationOnLoanDefault_frame in H as (_ & -> & _).
    - by apply addVouch_frame in H as (_ & -> & _).
    - by apply removeVouch_frame in H as (_ & -> & _).
    - by apply slashVouchAndReputation_frame in H as (_ & -> & _).
    - unfold setReputationContractAddress, onlyOwner_P2PL in H. ok_require H as Ho.
      by apply bool_decide_eq_true in Ho.
    - unfold setReputationOAppAddress, onlyOwner_P2PL in H. ok_require H as Ho.
      by apply bool_decide_eq_true in Ho.
    - unfold setPythAddress, onlyOwner_P2PL in H. ok_require H as Ho.
      by apply bool_decide_eq_true in Ho.
    - unfold transferOwnership_P2PL, onlyOwner_P2PL in H. ok_require H as Ho.
      by apply bool_decide_eq_true in Ho.
    - unfold renounceOwnership_P2PL, onlyOwner_P2PL in H. ok_require H as Ho.
      by apply bool_decide_eq_true in Ho.
    - apply worldOf_Ok in H as [i H]. apply createLoanOffer_components in H.
      by destruct H as (_ & _ & _ & _ & _ & _ & _ & _ & _ & _ & _ & _ & _ & Hc & _).
    - apply worldOf_Ok in H as [i H]. apply createLoanRequest_components in H.
      by destruct H as (_ & _ & _ & _ & _ & _ & _ & _ & _ & _ & _ & _ & _ & Hc & _).
    - apply worldOf_Ok in H as [i H]. apply acceptLoanOffer_components in H.
      by destruct H as (_ & _ & _ & _ & _ & _ & _ & _ & _ & _ & _ & _ & _ & _ & _ & Hc & _).
    - apply worldOf_Ok in H as [i H]. apply fundLoanRequest_components in H.
      by destruct H as (_ & _ & _ & _ & _ & _ & _ & _ & _ & _ & _ & _ & _ & _ & Hc & _).
    - apply repayLoan_effect in H as (_ & _ & _ & _ & _ & Hw).
      by eapply agreement_written_config.
    - apply handleP2PDefault_effect in H as (_ & _ & _ & Hw).
      by eapply agreement_written_config.
    - apply requestPaymentModification_effect in H as (_ & _ & _ & _ & Hw).
      by eapply agreement_written_config.
    - apply respondToPaymentModification_effect in H as (_ & _ & Hw).
      by eapply agreement_written_config.
    - ok_bind H as l Hl. by injection H as <-.
    - by apply token_transfer_frame in H as (_ & -> & _).
    - by apply token_transferFrom_frame in H as (_ & -> & _). }
  unfold lendingConfig in Hc. by injection Hc as -> -> -> ->.
Qed.

Lemma only_the_owner_reconfigures_lending_witness :
  let w := Scenario.world [] in
  let w' := commit w (execute Scenario.L Scenario.t0
                        (CreateLoanRequest Scenario.e18 Scenario.DAI 0 Scenario.day 0 0) w) in
  execute Scenario.L Scenario.t0
    (CreateLoanRequest Scenario.e18 Scenario.DAI 0 Scenario.day 0 0) w = Ok w'
  ∧ Scenario.L ≠ P2PLending.owner (lending w)
  ∧ P2PLending.reputationContract (lending w') = Scenario.REP
  ∧ P2PLending.platformWallet (lending w') = Scenario.platform.
Proof.
  intros w w'.
  assert (execute Scenario.L Scenario.t0
            (CreateLoanRequest Scenario.e18 Scenario.DAI 0 Scenario.day 0 0) w = Ok w') as H
    by (vm_compute; reflexivity).
  assert (Scenario.L ≠ P2PLending.owner (lending w)) as Hne by (vm_compute; discriminate).
  split; [exact H|]. split; [exact Hne|].
  destruct (only_the_owner_reconfigures_lending Scenario.L Scenario.t0
              (CreateLoanRequest Scenario.e18 Scenario.DAI 0 Scenario.day 0 0) w w' H Hne)
    as (_ & Hrc & _ & Hpw).
  split; (etransitivity; [eassumption|]; by vm_compute).
Defined.

(** X24. [DeployFlow.run] succeeds exactly when the deployer and the
    addresses of the two contracts are non-zero, and it leaves a reachable
    world in which the Lending authority of Reputation is the Lending contract,
    the Reputation contract of Lending is the Reputation contract, the
    deployer owns both and is the platform wallet, no cross-chain application
    is set, and nobody is registered. *)
Theorem DeployFlow_wires_the_contracts
    (deployer reputationAddress_ lendingAddress_ : address) (tokens_ : ERC20.t) :
  (deployer ≠ 0 ∧ reputationAddress_ ≠ 0 ∧ lendingAddress_ ≠ 0 ↔
   is_ok (DeployFlow_run deployer reputationAddress_ lendingAddress_ tokens_) = true)
  ∧ ∀ w, DeployFlow_run deployer reputationAddress_ lendingAddress_ tokens_ = Ok w →
      reachable w
      ∧ reputationAddress w = reputationAddress_ ∧ lendingAddress w = lendingAddress_
      ∧ Reputation.p2pLendingContractAddress (reputation w) = lendingAddress w
      ∧ P2PLending.reputationContract (lending w) = reputationAddress w
      ∧ P2PLending.reputationContract (lending w) ≠ 0
      ∧ Reputation.owner (reputation w) = deployer
      ∧ P2PLending.owner (lending w) = deployer
      ∧ P2PLending.platformWallet (lending w) = deployer
      ∧ P2PLending.reputationOApp (lending w) = 0
      ∧ UserRegistry.totalUsers (userRegistry w) = 0
      ∧ tokens w = tokens_ ∧ log w = [].
Proof.
  unfold DeployFlow_run. split.
  - unfold deploy, setP2PLendingContractAddress. split.
    + intros (Hd & Hr & Hl). rewrite !bool_decide_eq_true_2 by done. simpl.
      by rewrite !bool_decide_eq_true_2.
    + intros H. repeat case_bool_decide; simpl in *; try done.
      repeat case_bool_decide; simpl in *; try done.
  - intros w H. ok_bind H as w0 Hw0.
    assert (reachable w) as Hreach.
    { replace w with (commit w0 (execute deployer 0
                                   (SetP2PLendingContractAddress lendingAddress_) w0))
        by (simpl; by rewrite H).
      apply reachable_step; [by eapply reachable_deploy | | done].
      unfold uint256, MAX_UINT256. lia. }
    split; [done|].
    unfold deploy in Hw0. ok_require Hw0 as Hd. ok_require Hw0 as Hr. ok_require Hw0 as Hp.
    injection Hw0 as <-. apply bool_decide_eq_true in Hr.
    unfold setP2PLendingContractAddress in H. ok_require H as Ho. ok_require H as Hl.
    injection H as <-. simpl. by repeat split.
Qed.

Lemma DeployFlow_wires_the_contracts_witness :
  DeployFlow_run Scenario.deployer Scenario.REP Scenario.P2PL Scenario.funded
  = Ok (play (firstn 1 Scenario.setup)
          (mkWorld Scenario.REP Scenario.P2PL (UserRegistry.mk ∅ [] 0)
             (Reputation.mk Scenario.deployer 0 ∅ ∅ ∅ ∅)
             (P2PLending.mk Scenario.deployer Scenario.REP 0 Scenario.deployer ∅ ∅ ∅ ∅ ∅ ∅ ∅)
             Scenario.funded []))
  ∧ Reputation.p2pLendingContractAddress
      (reputation (play (firstn 1 Scenario.setup)
          (mkWorld Scenario.REP Scenario.P2PL (UserRegistry.mk ∅ [] 0)
             (Reputation.mk Scenario.deployer 0 ∅ ∅ ∅ ∅)
             (P2PLending.mk Scenario.deployer Scenario.REP 0 Scenario.deployer ∅ ∅ ∅ ∅ ∅ ∅ ∅)
             Scenario.funded []))) = Scenario.P2PL.
Proof.
  assert (DeployFlow_run Scenario.deployer Scenario.REP Scenario.P2PL Scenario.funded
          = Ok (play (firstn 1 Scenario.setup)
                  (mkWorld Scenario.REP Scenario.P2PL (UserRegistry.mk ∅ [] 0)
                     (Reputation.mk Scenario.deployer 0 ∅ ∅ ∅ ∅)
                     (P2PLending.mk Scenario.deployer Scenario.REP 0 Scenario.deployer
                        ∅ ∅ ∅ ∅ ∅ ∅ ∅)
                     Scenario.funded []))) as H by (vm_compute; reflexivity).
  split; [exact H|].
  destruct (DeployFlow_wires_the_contracts Scenario.deployer Scenario.REP Scenario.P2PL
              Scenario.funded) as [_ Hw].
  destruct (Hw _ H) as (_ & _ & Hla & Hp & _).
  etransitivity; [exact Hp|]. exact Hla.
Defined.
